(** * Wedding-Planning-App: the timeline editing protocol

    A shallow embedding of the timeline part of the application:
    - [Luxon]: the date arithmetic of the luxon library that the code calls
      (local fields of an instant, [set], [plus], [toISO], zone offsets);
    - [Time]: src/lib/time.ts ([getTimelineWindow], [snapToMinute], ...);
    - [Snapping]: src/lib/timeline/snapping.ts;
    - [History]: the undo/redo stack (second part of snapping.ts);
    - [Draft]: the draft reducer (second part of time.ts);
    - [Route]: src/app/api/weddings/[weddingId]/timeline/route.ts over a
      model of the database tables of the Prisma migration;
    - [UseTimeline]: the session controller of src/hooks/useTimeline.ts.

    - [JsDate]: the part of the JavaScript [Date] that the code relies on
      (the range of the time value, Invalid Date, local time of the host).

    Instants are integers: milliseconds since the Unix epoch, as the time
    value of a JavaScript [Date].  An ISO string on the wire is identified
    with the instant it denotes.  Where the code builds a [Date] by
    arithmetic (snapping.ts), a [Date] is a time value or an Invalid
    Date. *)

From Stdlib Require Import ZArith String Ascii List Bool Lia.
From stdpp Require Import base option list gmap strings sorting pretty.

Local Open Scope string_scope.
Local Open Scope list_scope.
Local Open Scope Z_scope.

(* ===================================================================== *)
(** ** Luxon: the date-time arithmetic used by the application            *)
(* ===================================================================== *)

Module Luxon.

Definition MS_PER_SECOND : Z := 1000.
Definition MS_PER_MINUTE : Z := 60000.
Definition MS_PER_HOUR : Z := 3600000.
Definition MS_PER_DAY : Z := 86400000.

(** The calendar fields of a [DateTime] (luxon's [c], [toObject()]). *)
Record DateObj : Type := mkDateObj {
  year : Z;
  month : Z;        (* 1..12 *)
  day : Z;          (* 1..31 *)
  hour : Z;
  minute : Z;
  second : Z;
  millisecond : Z
}.

Definition isLeapYear (y : Z) : bool :=
  (y mod 4 =? 0) && (negb (y mod 100 =? 0) || (y mod 400 =? 0)).

(** [daysInMonth]: the month is first brought into 1..12, carrying
    into the year. *)
Definition daysInMonth (y m : Z) : Z :=
  let modMonth := (m - 1) mod 12 + 1 in
  let modYear := y + (m - modMonth) / 12 in
  if modMonth =? 2 then (if isLeapYear modYear then 29 else 28)
  else if (modMonth =? 4) || (modMonth =? 6) || (modMonth =? 9) || (modMonth =? 11)
       then 30 else 31.

(** Day number (days since 1970-01-01) of a proleptic Gregorian date, as
    [Date.UTC] computes it: a month outside 1..12 carries into the year
    and the day counts on from the first of the month. *)
Definition daysFromCivil (y m d : Z) : Z :=
  let ym := y + (m - 1) / 12 in
  let mn := (m - 1) mod 12 + 1 in
  let y' := if mn <=? 2 then ym - 1 else ym in
  let era := y' / 400 in
  let yoe := y' - era * 400 in
  let mp := (mn + 9) mod 12 in
  let doy := (153 * mp + 2) / 5 + d - 1 in
  let doe := yoe * 365 + yoe / 4 - yoe / 100 + doy in
  era * 146097 + doe - 719468.

(** The inverse: (year, month, day) of a day number. *)
Definition civilFromDays (z : Z) : Z * Z * Z :=
  let z' := z + 719468 in
  let era := z' / 146097 in
  let doe := z' - era * 146097 in
  let yoe := (doe - doe / 1460 + doe / 36524 - doe / 146096) / 365 in
  let y := yoe + era * 400 in
  let doy := doe - (365 * yoe + yoe / 4 - yoe / 100) in
  let mp := (5 * doy + 2) / 153 in
  let d := doy - (153 * mp + 2) / 5 + 1 in
  let m := if mp <? 10 then mp + 3 else mp - 9 in
  (if m <=? 2 then y + 1 else y, m, d).

(** [objToLocalTS]: the fields read as if they were UTC ([Date.UTC],
    which lets every field overflow into the next larger one). *)
Definition objToLocalTS (c : DateObj) : Z :=
  daysFromCivil (year c) (month c) (day c) * MS_PER_DAY
  + hour c * MS_PER_HOUR + minute c * MS_PER_MINUTE
  + second c * MS_PER_SECOND + millisecond c.

(** [tsToObj ts o]: the local fields of instant [ts] at offset [o]
    (minutes east of UTC). *)
Definition tsToObj (ts o : Z) : DateObj :=
  let l := ts + o * MS_PER_MINUTE in
  let days := l / MS_PER_DAY in
  let r := l mod MS_PER_DAY in
  let '(y, m, d) := civilFromDays days in
  {| year := y; month := m; day := d;
     hour := r / MS_PER_HOUR;
     minute := (r mod MS_PER_HOUR) / MS_PER_MINUTE;
     second := (r mod MS_PER_MINUTE) / MS_PER_SECOND;
     millisecond := r mod MS_PER_SECOND |}.

(** A zone: its name and its offset from UTC, in minutes, at an instant.
    Offsets are whole minutes. *)
Record Zone : Type := mkZone {
  zoneName : string;
  offset : Z -> Z
}.

Definition FixedOffsetZone (name : string) (o : Z) : Zone :=
  {| zoneName := name; offset := fun _ => o |}.

Definition utcInstance : Zone := FixedOffsetZone "UTC" 0.

(** [fixOffset localTS o tz]: find the instant whose local time in [tz] is
    [localTS], starting from the guess [o] for the offset. *)
Definition fixOffset (localTS o : Z) (tz : Zone) : Z * Z :=
  let utcGuess := localTS - o * MS_PER_MINUTE in
  let o2 := offset tz utcGuess in
  if o =? o2 then (utcGuess, o)
  else
    let utcGuess' := utcGuess - (o2 - o) * MS_PER_MINUTE in
    let o3 := offset tz utcGuess' in
    if o2 =? o3 then (utcGuess', o2)
    else (localTS - Z.min o2 o3 * MS_PER_MINUTE, Z.max o2 o3).

Definition objToTS (c : DateObj) (o : Z) (tz : Zone) : Z * Z :=
  fixOffset (objToLocalTS c) o tz.

(** A valid [DateTime]: an instant seen in a zone, with the offset of
    the zone at that instant.  Luxon's invalid [DateTime] is [None] of
    [option DateTime]; every method used here returns an invalid
    [DateTime] unchanged, which is [fmap] on the option. *)
Record DateTime : Type := mkDateTime {
  ts : Z;
  zone : Zone;
  o : Z
}.

Definition toObject (dt : DateTime) : DateObj := tsToObj (ts dt) (o dt).

(** [DateTime.fromJSDate(date, {zone})] *)
Definition fromJSDate (date : Z) (z : Zone) : DateTime :=
  {| ts := date; zone := z; o := offset z date |}.

(** [dt.toJSDate()] *)
Definition toJSDate (dt : DateTime) : Z := ts dt.

(** The units a call of [set] may give. *)
Record Units : Type := mkUnits {
  u_year : option Z;
  u_month : option Z;
  u_day : option Z;
  u_hour : option Z;
  u_minute : option Z;
  u_second : option Z;
  u_millisecond : option Z
}.

Definition noUnits : Units := mkUnits None None None None None None None.

Definition mixUnits (c : DateObj) (u : Units) : DateObj :=
  let y := default (year c) (u_year u) in
  let m := default (month c) (u_month u) in
  {| year := y; month := m;
     day := match u_day u with
            | Some d => d
            | None => Z.min (daysInMonth y m) (day c)
            end;
     hour := default (hour c) (u_hour u);
     minute := default (minute c) (u_minute u);
     second := default (second c) (u_second u);
     millisecond := default (millisecond c) (u_millisecond u) |}.

(** [dt.set(values)]: the given units replace the local fields, and the
    instant of the resulting local time is looked up again. *)
Definition set (dt : DateTime) (u : Units) : DateTime :=
  let '(ts', o') := objToTS (mixUnits (toObject dt) u) (o dt) (zone dt) in
  {| ts := ts'; zone := zone dt; o := o' |}.

(** [dt.plus({days: n})]: calendar days are added to the local date. *)
Definition plusDays (dt : DateTime) (n : Z) : DateTime :=
  let c := toObject dt in
  let c' := {| year := year c; month := month c;
               day := Z.min (day c) (daysInMonth (year c) (month c)) + n;
               hour := hour c; minute := minute c;
               second := second c; millisecond := millisecond c |} in
  let '(ts', o') := fixOffset (objToLocalTS c') (o dt) (zone dt) in
  {| ts := ts'; zone := zone dt; o := o' |}.

(** [dt.toUTC()] *)
Definition toUTC (dt : DateTime) : DateTime :=
  {| ts := ts dt; zone := utcInstance; o := 0 |}.

(** Decimal digits, left-padded with zeros to [width] digits. *)
Definition digitChar (d : Z) : ascii := ascii_of_nat (48 + Z.to_nat d).

Fixpoint padStart (width : nat) (n : Z) : string :=
  match width with
  | O => EmptyString
  | S w => String.append (padStart w (n / 10))
                         (String (digitChar (n mod 10)) EmptyString)
  end.

Definition formatOffset (o : Z) : string :=
  if o =? 0 then "Z"
  else String.concat ""
         [if o <? 0 then "-" else "+";
          padStart 2 (Z.abs o / 60); ":"; padStart 2 (Z.abs o mod 60)].

(** [dt.toISO()], for years 0..9999. *)
Definition toISO (dt : DateTime) : string :=
  let c := toObject dt in
  String.concat ""
    [padStart 4 (year c); "-"; padStart 2 (month c); "-";
     padStart 2 (day c); "T"; padStart 2 (hour c); ":";
     padStart 2 (minute c); ":"; padStart 2 (second c); ".";
     padStart 3 (millisecond c); formatOffset (o dt)].

(** Reading a decimal number of exactly the given digits. *)
Definition digitValue (a : ascii) : option Z :=
  let n := Z.of_nat (nat_of_ascii a) in
  if (48 <=? n) && (n <=? 57) then Some (n - 48) else None.

Fixpoint parseDigits (acc : Z) (s : list ascii) : option Z :=
  match s with
  | [] => Some acc
  | a :: s' =>
      match digitValue a with
      | Some d => parseDigits (acc * 10 + d) s'
      | None => None
      end
  end.

(** The calendar date [YYYY-MM-DD] of an ISO 8601 string.  Only this form
    of the wedding date is modelled (it is the form the application
    stores); it is checked like luxon checks it: month in 1..12 and day
    within the month. *)
Definition parseISODate (s : string) : option (Z * Z * Z) :=
  match list_ascii_of_string s with
  | [y1; y2; y3; y4; d1; m1; m2; d2; a1; a2] =>
      if (Ascii.eqb d1 "-") && (Ascii.eqb d2 "-") then
        match parseDigits 0 [y1; y2; y3; y4], parseDigits 0 [m1; m2],
              parseDigits 0 [a1; a2] with
        | Some y, Some m, Some d =>
            if (1 <=? m) && (m <=? 12) && (1 <=? d) && (d <=? daysInMonth y m)
            then Some (y, m, d) else None
        | _, _, _ => None
        end
      else None
  | _ => None
  end.

(** [DateTime.fromISO(text, {zone})] for a calendar date.  [tzdb] is the
    time-zone database of the platform (a name that it does not know is
    an invalid zone); [now] is the current instant, at which luxon reads
    its first guess of the offset. *)
Definition fromISO (tzdb : string -> option Zone) (now : Z)
           (text zoneName : string) : option DateTime :=
  match tzdb zoneName with
  | None => None
  | Some z =>
      match parseISODate text with
      | None => None
      | Some (y, m, d) =>
          let offsetProvis := offset z now in
          let '(ts', o') := objToTS (mkDateObj y m d 0 0 0 0) offsetProvis z in
          Some {| ts := ts'; zone := z; o := o' |}
      end
  end.

(** The zone America/New_York under the rule in force since 2007:
    daylight time (UTC-4) from the second Sunday of March, 02:00 standard
    time, to the first Sunday of November, 02:00 daylight time; standard
    time (UTC-5) otherwise. *)
Definition dayOfWeek (days : Z) : Z := (days + 4) mod 7.   (* 0 = Sunday *)

(** Day number of the [n]-th Sunday (n = 1, 2, ...) of a month. *)
Definition nthSunday (y m n : Z) : Z :=
  let first := daysFromCivil y m 1 in
  first + (7 - dayOfWeek first) mod 7 + 7 * (n - 1).

Definition usEasternOffset (ts : Z) : Z :=
  let '(y, _, _) := civilFromDays (ts / MS_PER_DAY) in
  let dstStart := nthSunday y 3 2 * MS_PER_DAY + 7 * MS_PER_HOUR in
  let dstEnd := nthSunday y 11 1 * MS_PER_DAY + 6 * MS_PER_HOUR in
  if (dstStart <=? ts) && (ts <? dstEnd) then -240 else -300.

Definition America_New_York : Zone :=
  {| zoneName := "America/New_York"; offset := usEasternOffset |}.

End Luxon.

(* ===================================================================== *)
(** ** JavaScript dates ([Date] of ECMA-262)                              *)
(* ===================================================================== *)

Module JsDate.
Import Luxon.

(** The time value of a [Date]: a whole number of milliseconds since the
    epoch, at most 8.64e15 in magnitude, or NaN, which makes the [Date] an
    Invalid Date.  [None] is NaN. *)
Definition Date : Type := option Z.

Definition MAX_TIME : Z := 8640000000000000.

(** [TimeClip(time)]: what [new Date(value)] keeps of a number. *)
Definition TimeClip (time : Z) : Date :=
  if Z.abs time <=? MAX_TIME then Some time else None.

(** [a < b], [a > b] and [a <= b] on dates compare the time values as
    numbers; a comparison with NaN is false. *)
Definition ltb (a b : Date) : bool :=
  match a, b with
  | Some x, Some y => x <? y
  | _, _ => false
  end.

Definition gtb (a b : Date) : bool :=
  match a, b with
  | Some x, Some y => x >? y
  | _, _ => false
  end.

Definition leb (a b : Date) : bool :=
  match a, b with
  | Some x, Some y => x <=? y
  | _, _ => false
  end.

(** The time zone of the host as the methods on local time see it
    ([LocalTZA(t, isUTC)] of ECMA-262), in milliseconds:
    [localTZA t true] is the offset of local time from UTC at the instant
    [t]; [localTZA t false] is the offset to use for the local time value
    [t], which for a local time that a transition repeats or skips is the
    offset before the transition. *)
Definition LocalTZA : Type := Z -> bool -> Z.

(** [LocalTime(t)] and [UTC(t)] *)
Definition LocalTime (localTZA : LocalTZA) (t : Z) : Z :=
  t + localTZA t true.

Definition UTC (localTZA : LocalTZA) (t : Z) : Z :=
  t - localTZA t false.

End JsDate.

(* ===================================================================== *)
(** ** The timeline types (types/timeline.ts)                             *)
(* ===================================================================== *)

Module Types.

Inductive OwnerType : Type :=
| couple | planner | vendor | person | group | system.

Record OwnerRef : Type := mkOwnerRef {
  owner_id : string;
  owner_type : OwnerType;
  displayName : string
}.

Inductive LaneType : Type :=
| photo | ceremony | transport | venue_ops | music | meal | prep | misc.

Inductive EventStatus : Type := tentative | confirmed.

Inductive BandType : Type := night | golden | forecast.

(** The owner of an event as it travels: the type declares an [OwnerRef]
    object, the route stores it in a text column and reads it back as a
    name, so at run time both shapes are possible. *)
Inductive JsOwner : Type :=
| OwnerName (name : string)
| OwnerObject (ref : OwnerRef).

(** [TimelineLane].  The owner is read with [?.] by the route and may be
    missing.  (The route reads the lane type under the name [laneType].) *)
Record TimelineLane : Type := mkLane {
  lane_id : string;
  lane_weddingId : string;
  lane_name : string;
  lane_type : LaneType;
  lane_owner : option OwnerRef;
  lane_sortOrder : Z
}.

(** [TimelineEventItem].  The fields for which the route supplies a
    default ([category], [assignedOwner], [status], [locked]) and
    [notes] may be missing. *)
Record TimelineEventItem : Type := mkEvent {
  id : string;
  weddingId : string;
  title : string;
  startUtc : Z;
  endUtc : Z;
  laneId : string;
  category : option LaneType;
  assignedOwner : option JsOwner;
  status : option EventStatus;
  locked : option bool;
  notes : option string
}.

Record TimelineBackgroundBand : Type := mkBand {
  band_id : string;
  band_weddingId : string;
  bandType : BandType;
  band_startUtc : Z;
  band_endUtc : Z;
  band_label : string
}.

(** [PatchOp]: the tagged union, tag [op]. *)
Inductive PatchOp : Type :=
| create_event (event : TimelineEventItem)
| update_event_time (eventId : string) (startUtc endUtc : Z)
| update_event_lane (eventId : string) (laneId : string)
| update_event_title (eventId : string) (title : string)
| update_event_owner (eventId : string) (owner : JsOwner)
| delete_event (eventId : string)
| create_lane (lane : TimelineLane)
| update_lane (laneId : string) (name : option string)
              (owner : option OwnerRef) (sortOrder : option Z)
| delete_lane (laneId : string).

Record TimelineUpdateRequest : Type := mkUpdateRequest {
  req_baseVersion : Z;
  req_patchOps : list PatchOp
}.

(** The timeline as the server sends it and the client keeps it
    ([TimelineResponse], [TimelineState]).  The window bounds are [None]
    when the wedding date or zone is invalid ([toISO()] gives [null]). *)
Record TimelineResponse : Type := mkTimeline {
  version : Z;
  venueTimezone : string;
  weddingDate : string;
  windowStartUtc : option string;
  windowEndUtc : option string;
  lanes : list TimelineLane;
  events : list TimelineEventItem;
  bands : list TimelineBackgroundBand
}.

End Types.

(* ===================================================================== *)
(** ** lib/time.ts                                                        *)
(* ===================================================================== *)

Module Time.
Import Luxon.

Definition TIMELINE_WINDOW_START_HOUR : Z := 3.
Definition TIMELINE_WINDOW_END_HOUR : Z := 3.
Definition SNAP_MINUTES : Z := 1.

(** [Math.round(m / s)] on integers, [s > 0]: the nearest integer, a
    half rounding up. *)
Definition mathRoundDiv (m s : Z) : Z := (2 * m + s) / (2 * s).

Record TimelineWindow : Type := mkWindow {
  windowStartLocal : option DateTime;
  windowEndLocal : option DateTime;
  windowStartUtc : option string;
  windowEndUtc : option string
}.

Section WithPlatform.
(** The time-zone database and the clock of the platform. *)
Variable tzdb : string -> option Zone.
Variable now : Z.

Definition getTimelineWindow (weddingDate venueTimezone : string)
  : TimelineWindow :=
  (* Parse the wedding date in the venue timezone *)
  let weddingDt := fromISO tzdb now weddingDate venueTimezone in
  (* Window start: 3:00 AM on wedding day *)
  let windowStartLocal :=
    (fun dt => set dt (mkUnits None None None
                         (Some TIMELINE_WINDOW_START_HOUR)
                         (Some 0) (Some 0) (Some 0))) <$> weddingDt in
  (* Window end: 3:00 AM next day *)
  let windowEndLocal := (fun dt => plusDays dt 1) <$> windowStartLocal in
  {| windowStartLocal := windowStartLocal;
     windowEndLocal := windowEndLocal;
     windowStartUtc := (fun dt => toISO (toUTC dt)) <$> windowStartLocal;
     windowEndUtc := (fun dt => toISO (toUTC dt)) <$> windowEndLocal |}.

(** [new Date(w)] for a bound [w] that [getTimelineWindow] returned:
    the instant that the ISO string denotes, and the epoch for
    [null]. *)
Definition windowInstant (local : option DateTime) : Z :=
  default 0 (toJSDate <$> local).

End WithPlatform.

(** [snapToMinute(dt, snapMinutes = SNAP_MINUTES)] *)
Definition snapToMinute (dt : DateTime) (snapMinutes : Z) : DateTime :=
  let minutes := minute (toObject dt) in
  let snappedMinutes := mathRoundDiv minutes snapMinutes * snapMinutes in
  set dt (mkUnits None None None None (Some snappedMinutes) (Some 0) (Some 0)).

End Time.

(* ===================================================================== *)
(** ** lib/timeline/snapping.ts                                           *)
(* ===================================================================== *)

Module Snapping.
Import Luxon JsDate.

Definition SNAP_MINUTES : Z := 1.
Definition MIN_DURATION_MINUTES : Z := 1.

Section WithLocalZone.
(** The zone of the machine the code runs on ([DateTime.fromJSDate]
    without a zone uses it). *)
Variable localZone : Zone.

(** Snap a date to the nearest minute increment, on time values: [date]
    is the time value of a [Date] that luxon represents in the local zone
    (see [snapToMinuteDate] for the other dates). *)
Definition snapToMinute (date : Z) (snapMinutes : Z) : Z :=
  let dt := fromJSDate date localZone in
  let minutes := minute (toObject dt) in
  let snappedMinutes := Time.mathRoundDiv minutes snapMinutes * snapMinutes in
  toJSDate (set dt (mkUnits None None None None
                      (Some snappedMinutes) (Some 0) (Some 0))).

(** Snap a timestamp (milliseconds) to the nearest minute *)
Definition snapTimestamp (timestamp : Z) (snapMinutes : Z) : Z :=
  let snappedDate := snapToMinute timestamp snapMinutes in
  snappedDate.

(** Luxon builds the local fields of an instant with
    [new Date(ts + offset * 60 * 1000)]: a [DateTime] whose local time is
    outside the range of [Date] is invalid. *)
Definition representable (ts : Z) : bool :=
  Z.abs (ts + offset localZone ts * MS_PER_MINUTE) <=? MAX_TIME.

(** [snapToMinute] on a [Date].  An Invalid Date gives an invalid
    [DateTime], whose [minute] is NaN and which [set] returns as it is;
    so does a date that the local zone cannot represent; [toJSDate] of an
    invalid [DateTime] is an Invalid Date.  The [DateTime] that [set]
    builds is checked the same way, and [toJSDate] is [new Date(ts)]. *)
Definition snapToMinuteDate (date : Date) (snapMinutes : Z) : Date :=
  match date with
  | None => None
  | Some t =>
      if representable t then
        let t' := snapToMinute t snapMinutes in
        if representable t' then TimeClip t' else None
      else None
  end.

(** Ensure minimum duration between start and end *)
Definition ensureMinDuration (start end_ : Date) (minMinutes : Z)
  : Date * Date :=
  let startTime := start in       (* [getTime()]: NaN for an Invalid Date *)
  let endTime := end_ in
  let minDuration := minMinutes * 60 * 1000 in
  match startTime, endTime with
  | Some startTime, Some endTime =>
      if endTime - startTime <? minDuration
      then (start, TimeClip (startTime + minDuration))
      else (start, end_)
  | _, _ => (start, end_)         (* [NaN < minDuration] is false *)
  end.

(** Clamp a date to be within window bounds, on time values. *)
Definition clampToWindow (date windowStart windowEnd : Z) : Z :=
  if date <? windowStart then windowStart
  else if date >? windowEnd then windowEnd
  else date.

(** Clamp a date to be within window bounds, on [Date]s. *)
Definition clampToWindowDate (date windowStart windowEnd : Date) : Date :=
  if ltb date windowStart then windowStart
  else if gtb date windowEnd then windowEnd
  else date.

Record ProcessedTimes : Type := mkProcessed {
  pt_start : Date;
  pt_end : Date;
  pt_valid : bool;
  pt_error : option string
}.

(** Process event times: snap to minute, ensure min duration, clamp to
    window *)
Definition processEventTimes (start end_ windowStart windowEnd : Date)
  : ProcessedTimes :=
  (* Snap to minute *)
  let snappedStart := snapToMinuteDate start SNAP_MINUTES in
  let snappedEnd := snapToMinuteDate end_ SNAP_MINUTES in
  (* Ensure min duration *)
  let '(minStart, minEnd) :=
    ensureMinDuration snappedStart snappedEnd MIN_DURATION_MINUTES in
  let snappedStart := minStart in
  let snappedEnd := minEnd in
  (* Clamp to window *)
  let snappedStart := clampToWindowDate snappedStart windowStart windowEnd in
  let snappedEnd := clampToWindowDate snappedEnd windowStart windowEnd in
  (* Validate *)
  if leb snappedEnd snappedStart then
    {| pt_start := snappedStart; pt_end := snappedEnd;
       pt_valid := false;
       pt_error := Some "Event end must be after start" |}
  else
    {| pt_start := snappedStart; pt_end := snappedEnd;
       pt_valid := true; pt_error := None |}.

End WithLocalZone.

End Snapping.

(* ===================================================================== *)
(** ** The history stack (lib/timeline/history)                           *)
(* ===================================================================== *)

Module History.
Import Types.

Record HistoryState : Type := mkHistory {
  past : list (list PatchOp);
  future : list (list PatchOp);
  maxSize : Z
}.

(** Create initial history state ([maxSize] defaults to 50) *)
Definition createHistory (maxSize : Z) : HistoryState :=
  {| past := []; future := []; maxSize := maxSize |}.

(** The loop [while (newPast.length > maxSize) newPast.shift()], run for
    at most [fuel] tests of its condition; [None] when the fuel does not
    suffice.  [shift] on an empty array leaves it empty. *)
Fixpoint trimToMaxSize (fuel : nat) (newPast : list (list PatchOp))
         (maxSize : Z) : option (list (list PatchOp)) :=
  match fuel with
  | O => None
  | S fuel' =>
      if Z.of_nat (length newPast) >? maxSize
      then trimToMaxSize fuel' (tail newPast) maxSize
      else Some newPast
  end.

(** Record a new action (clears redo stack) *)
Definition recordAction (fuel : nat) (history : HistoryState)
           (patchOps : list PatchOp) : option HistoryState :=
  let newPast := past history ++ [patchOps] in
  (* Trim to max size *)
  newPast' ← trimToMaxSize fuel newPast (maxSize history);
  Some {| past := newPast';
          future := [];   (* Clear redo stack on new action *)
          maxSize := maxSize history |}.

(** Undo the last action: the new history and the batch, [None] for
    [null]. *)
Definition undo (history : HistoryState)
  : HistoryState * option (list PatchOp) :=
  match last (past history) with
  | None => (history, None)
  | Some lastAction =>
      let newPast := removelast (past history) in
      let newFuture := lastAction :: future history in
      ({| past := newPast; future := newFuture;
          maxSize := maxSize history |},
       Some lastAction)
  end.

(** Redo the last undone action *)
Definition redo (history : HistoryState)
  : HistoryState * option (list PatchOp) :=
  match future history with
  | [] => (history, None)
  | nextAction :: newFuture =>
      let newPast := past history ++ [nextAction] in
      ({| past := newPast; future := newFuture;
          maxSize := maxSize history |},
       Some nextAction)
  end.

Definition canUndo (history : HistoryState) : bool :=
  0 <? Z.of_nat (length (past history)).

Definition canRedo (history : HistoryState) : bool :=
  0 <? Z.of_nat (length (future history)).

(** Clear all history *)
Definition clearHistory (history : HistoryState) : HistoryState :=
  {| past := []; future := []; maxSize := maxSize history |}.

End History.

(* ===================================================================== *)
(** ** The draft reducer (lib/timeline/draft)                             *)
(* ===================================================================== *)

Module Draft.
Import Types.

Record DraftState : Type := mkDraft {
  baseVersion : Z;
  patchOps : list PatchOp;
  isDirty : bool
}.

Definition createDraftState (baseVersion : Z) : DraftState :=
  {| baseVersion := baseVersion; patchOps := []; isDirty := false |}.

Definition addPatchOp (draft : DraftState) (op : PatchOp) : DraftState :=
  {| baseVersion := baseVersion draft;
     patchOps := patchOps draft ++ [op];
     isDirty := true |}.

Definition clearDraft (draft : DraftState) : DraftState :=
  {| baseVersion := baseVersion draft; patchOps := []; isDirty := false |}.

Definition resetDraft (newBaseVersion : Z) : DraftState :=
  createDraftState newBaseVersion.

(** One turn of the loop of [applyDraftToEvents]. *)
Definition applyEventOp (result : list TimelineEventItem) (op : PatchOp)
  : list TimelineEventItem :=
  match op with
  | create_event event => result ++ [event]
  | update_event_time eventId s e =>
      (fun ev => if String.eqb (id ev) eventId
                 then mkEvent (id ev) (weddingId ev) (title ev) s e
                        (laneId ev) (category ev) (assignedOwner ev)
                        (status ev) (locked ev) (notes ev)
                 else ev) <$> result
  | update_event_lane eventId l =>
      (fun ev => if String.eqb (id ev) eventId
                 then mkEvent (id ev) (weddingId ev) (title ev)
                        (startUtc ev) (endUtc ev) l (category ev)
                        (assignedOwner ev) (status ev) (locked ev) (notes ev)
                 else ev) <$> result
  | update_event_title eventId t =>
      (fun ev => if String.eqb (id ev) eventId
                 then mkEvent (id ev) (weddingId ev) t
                        (startUtc ev) (endUtc ev) (laneId ev) (category ev)
                        (assignedOwner ev) (status ev) (locked ev) (notes ev)
                 else ev) <$> result
  | update_event_owner eventId ow =>
      (fun ev => if String.eqb (id ev) eventId
                 then mkEvent (id ev) (weddingId ev) (title ev)
                        (startUtc ev) (endUtc ev) (laneId ev) (category ev)
                        (Some ow) (status ev) (locked ev) (notes ev)
                 else ev) <$> result
  | delete_event eventId =>
      List.filter (fun ev => negb (String.eqb (id ev) eventId)) result
  | _ => result
  end.

(** Apply draft patches to local state for preview *)
Definition applyDraftToEvents (events : list TimelineEventItem)
           (patchOps : list PatchOp) : list TimelineEventItem :=
  fold_left applyEventOp patchOps events.

(** One turn of the loop of [applyDraftToLanes]. *)
Definition applyLaneOp (result : list TimelineLane) (op : PatchOp)
  : list TimelineLane :=
  match op with
  | create_lane lane => result ++ [lane]
  | update_lane laneId name owner sortOrder =>
      (fun l => if negb (String.eqb (lane_id l) laneId) then l
                else mkLane (lane_id l) (lane_weddingId l)
                       (default (lane_name l) name) (lane_type l)
                       (match owner with
                        | Some ow => Some ow
                        | None => lane_owner l
                        end)
                       (default (lane_sortOrder l) sortOrder)) <$> result
  | delete_lane laneId =>
      List.filter (fun l => negb (String.eqb (lane_id l) laneId)) result
  | _ => result
  end.

(** Apply draft patches to lanes for preview *)
Definition applyDraftToLanes (lanes : list TimelineLane)
           (patchOps : list PatchOp) : list TimelineLane :=
  fold_left applyLaneOp patchOps lanes.

End Draft.


(* ===================================================================== *)
(** ** The timeline route (app/api/weddings/[weddingId]/timeline/route.ts) *)
(* ===================================================================== *)

Module Route.
Import Luxon Types.

(** *** The tables of the migration

    A table is a finite map from the primary key [id] to the other columns
    of the row; only the columns that the route reads or writes are kept. *)

Record Wedding : Type := mkWedding {
  w_weddingDate : string;
  w_venueTimezone : string;
  timelineVersion : Z
}.

Record TimelineLaneRow : Type := mkLaneRow {
  l_weddingId : string;
  l_name : string;
  l_type : LaneType;
  l_ownerType : OwnerType;
  l_ownerId : string;
  l_ownerName : string;
  l_sortOrder : Z
}.

Record TimelineEventRow : Type := mkEventRow {
  e_weddingId : string;
  e_laneId : string;
  e_title : string;
  e_startUtc : Z;
  e_endUtc : Z;
  e_category : LaneType;
  e_assignedOwnerType : OwnerType;
  e_assignedOwnerId : string;
  e_assignedOwnerName : string;
  e_status : EventStatus;
  e_locked : bool;
  e_notes : option string
}.

Record TimelineBackgroundBandRow : Type := mkBandRow {
  b_weddingId : string;
  b_bandType : BandType;
  b_startUtc : Z;
  b_endUtc : Z;
  b_label : string
}.

Record Db : Type := mkDb {
  wedding : gmap string Wedding;
  timelineLane : gmap string TimelineLaneRow;
  timelineEvent : gmap string TimelineEventRow;
  timelineBackgroundBand : gmap string TimelineBackgroundBandRow
}.

(** *** The Prisma client

    A query runs on the database and either returns or throws; what was
    written before it threw stays written.  The errors are those Prisma
    documents: a value of the wrong type for a column
    ([PrismaClientValidationError]), a unique constraint (P2002), a foreign
    key constraint (P2003), a record that an update or delete needs and
    does not find (P2025).  [TypeError] is what reading a property of
    [null] throws. *)

Inductive PrismaError : Type :=
| ValidationError
| P2002
| P2003
| P2025
| TypeError.

Definition Prisma (A : Type) : Type := Db -> Db * (PrismaError + A).

Definition pure {A : Type} (a : A) : Prisma A := fun db => (db, inr a).

Definition throw {A : Type} (e : PrismaError) : Prisma A :=
  fun db => (db, inl e).

Definition bind {A B : Type} (m : Prisma A) (k : A -> Prisma B) : Prisma B :=
  fun db =>
    match m db with
    | (db', inr a) => k a db'
    | (db', inl e) => (db', inl e)
    end.

Notation "'let_await' x <- m ;; k" := (bind m (fun x => k))
  (at level 10, x name, m at level 99, k at level 200).
Notation "'await' m ;; k" := (bind m (fun _ => k))
  (at level 10, m at level 99, k at level 200).

(** [prisma.wedding.findUnique({ where: { id } })] *)
Definition wedding_findUnique (id : string) : Prisma (option Wedding) :=
  fun db => (db, inr (wedding db !! id)).

(** [prisma.wedding.update({ where: { id },
      data: { timelineVersion: { increment: 1 } } })] *)
Definition wedding_incrementVersion (id : string) : Prisma unit :=
  fun db =>
    match wedding db !! id with
    | None => (db, inl P2025)
    | Some w =>
        (mkDb (<[id := mkWedding (w_weddingDate w) (w_venueTimezone w)
                         (timelineVersion w + 1)]> (wedding db))
              (timelineLane db) (timelineEvent db) (timelineBackgroundBand db),
         inr tt)
    end.

(** [prisma.timelineEvent.create({ data })]: the id is the primary key, the
    wedding and the lane are foreign keys. *)
Definition timelineEvent_create (id : string) (row : TimelineEventRow)
  : Prisma unit :=
  fun db =>
    match timelineEvent db !! id with
    | Some _ => (db, inl P2002)
    | None =>
        match wedding db !! e_weddingId row, timelineLane db !! e_laneId row with
        | Some _, Some _ =>
            (mkDb (wedding db) (timelineLane db)
                  (<[id := row]> (timelineEvent db))
                  (timelineBackgroundBand db),
             inr tt)
        | _, _ => (db, inl P2003)
        end
    end.

(** [prisma.timelineEvent.update({ where: { id }, data })]; [data] is the
    change [f] of the row.  The foreign key is checked when the lane of
    the row changes. *)
Definition timelineEvent_update (id : string)
           (f : TimelineEventRow -> TimelineEventRow) : Prisma unit :=
  fun db =>
    match timelineEvent db !! id with
    | None => (db, inl P2025)
    | Some row =>
        if negb (String.eqb (e_laneId (f row)) (e_laneId row))
           && negb (bool_decide (is_Some (timelineLane db !! e_laneId (f row))))
        then (db, inl P2003)
        else
          (mkDb (wedding db) (timelineLane db)
                (<[id := f row]> (timelineEvent db))
                (timelineBackgroundBand db),
           inr tt)
    end.

(** [prisma.timelineEvent.delete({ where: { id } })] *)
Definition timelineEvent_delete (id : string) : Prisma unit :=
  fun db =>
    match timelineEvent db !! id with
    | None => (db, inl P2025)
    | Some _ =>
        (mkDb (wedding db) (timelineLane db)
              (delete id (timelineEvent db)) (timelineBackgroundBand db),
         inr tt)
    end.

(** [prisma.timelineEvent.deleteMany({ where: { laneId } })] *)
Definition timelineEvent_deleteMany (laneId : string) : Prisma unit :=
  fun db =>
    (mkDb (wedding db) (timelineLane db)
          (filter (fun kv => e_laneId kv.2 <> laneId) (timelineEvent db))
          (timelineBackgroundBand db),
     inr tt).

(** [prisma.timelineLane.create({ data })] *)
Definition timelineLane_create (id : string) (row : TimelineLaneRow)
  : Prisma unit :=
  fun db =>
    match timelineLane db !! id with
    | Some _ => (db, inl P2002)
    | None =>
        match wedding db !! l_weddingId row with
        | Some _ =>
            (mkDb (wedding db) (<[id := row]> (timelineLane db))
                  (timelineEvent db) (timelineBackgroundBand db),
             inr tt)
        | None => (db, inl P2003)
        end
    end.

(** [prisma.timelineLane.update({ where: { id }, data })] *)
Definition timelineLane_update (id : string)
           (f : TimelineLaneRow -> TimelineLaneRow) : Prisma unit :=
  fun db =>
    match timelineLane db !! id with
    | None => (db, inl P2025)
    | Some row =>
        (mkDb (wedding db) (<[id := f row]> (timelineLane db))
              (timelineEvent db) (timelineBackgroundBand db),
         inr tt)
    end.

(** [prisma.timelineLane.delete({ where: { id } })]; the events of the lane
    go with it (ON DELETE CASCADE). *)
Definition timelineLane_delete (id : string) : Prisma unit :=
  fun db =>
    match timelineLane db !! id with
    | None => (db, inl P2025)
    | Some _ =>
        (mkDb (wedding db) (delete id (timelineLane db))
              (filter (fun kv => e_laneId kv.2 <> id) (timelineEvent db))
              (timelineBackgroundBand db),
         inr tt)
    end.

(** [findMany({ where: { weddingId }, orderBy })]: the rows of the wedding,
    sorted by the given column. *)
Definition laneOrder (a b : string * TimelineLaneRow) : Prop :=
  l_sortOrder a.2 <= l_sortOrder b.2.

Definition eventOrder (a b : string * TimelineEventRow) : Prop :=
  e_startUtc a.2 <= e_startUtc b.2.

#[local] Instance laneOrder_dec : RelDecision laneOrder :=
  fun a b => Z_le_dec (l_sortOrder a.2) (l_sortOrder b.2).

#[local] Instance eventOrder_dec : RelDecision eventOrder :=
  fun a b => Z_le_dec (e_startUtc a.2) (e_startUtc b.2).

Definition timelineLane_findMany (weddingId : string) (db : Db)
  : list (string * TimelineLaneRow) :=
  merge_sort laneOrder
    (filter (fun kv => l_weddingId kv.2 = weddingId)
            (map_to_list (timelineLane db))).

Definition timelineEvent_findMany (weddingId : string) (db : Db)
  : list (string * TimelineEventRow) :=
  merge_sort eventOrder
    (filter (fun kv => e_weddingId kv.2 = weddingId)
            (map_to_list (timelineEvent db))).

Definition timelineBackgroundBand_findMany (weddingId : string) (db : Db)
  : list (string * TimelineBackgroundBandRow) :=
  filter (fun kv => b_weddingId kv.2 = weddingId)
         (map_to_list (timelineBackgroundBand db)).

(** *** The route *)

(** [a || b] on strings: the empty string is falsy. *)
Definition orString (a : option string) (b : string) : string :=
  match a with
  | Some s => if String.eqb s "" then b else s
  | None => b
  end.

(** [date.setSeconds(0, 0)] on the instant [t]: the seconds and
    milliseconds of the local time of the server are zeroed and the instant
    of that local time is looked up again; a local time that the zone
    repeats is read with the offset before the transition. *)
Definition setSecondsZero (localTZA : JsDate.LocalTZA) (t : Z) : Z :=
  let tLocal := JsDate.LocalTime localTZA t in
  JsDate.UTC localTZA (tLocal - tLocal mod MS_PER_MINUTE).

Definition laneView (kv : string * TimelineLaneRow) : TimelineLane :=
  {| lane_id := kv.1;
     lane_weddingId := l_weddingId kv.2;
     lane_name := l_name kv.2;
     lane_type := l_type kv.2;
     lane_owner := Some (mkOwnerRef (l_ownerId kv.2) (l_ownerType kv.2)
                                    (l_ownerName kv.2));
     lane_sortOrder := l_sortOrder kv.2 |}.

Definition eventView (kv : string * TimelineEventRow) : TimelineEventItem :=
  {| id := kv.1;
     weddingId := e_weddingId kv.2;
     title := e_title kv.2;
     startUtc := e_startUtc kv.2;
     endUtc := e_endUtc kv.2;
     laneId := e_laneId kv.2;
     category := Some (e_category kv.2);
     assignedOwner :=
       Some (OwnerObject (mkOwnerRef (e_assignedOwnerId kv.2)
                                     (e_assignedOwnerType kv.2)
                                     (e_assignedOwnerName kv.2)));
     status := Some (e_status kv.2);
     locked := Some (e_locked kv.2);
     notes := e_notes kv.2 |}.

Definition bandView (kv : string * TimelineBackgroundBandRow)
  : TimelineBackgroundBand :=
  {| band_id := kv.1;
     band_weddingId := b_weddingId kv.2;
     bandType := b_bandType kv.2;
     band_startUtc := b_startUtc kv.2;
     band_endUtc := b_endUtc kv.2;
     band_label := b_label kv.2 |}.

Section WithPlatform.
(** The time-zone database and the clock of the server, and the time zone
    that the server runs in. *)
Variable tzdb : string -> option Zone.
Variable now : Z.
Variable localTZA : JsDate.LocalTZA.

(** Helper to get full timeline data *)
Definition getFullTimeline (weddingId : string) (w : Wedding)
  : Prisma TimelineResponse :=
  fun db =>
    let lanes := timelineLane_findMany weddingId db in
    let events := timelineEvent_findMany weddingId db in
    let bands := timelineBackgroundBand_findMany weddingId db in
    let win := Time.getTimelineWindow tzdb now
                 (w_weddingDate w) (w_venueTimezone w) in
    (db,
     inr {| version := timelineVersion w;
            venueTimezone := w_venueTimezone w;
            weddingDate := w_weddingDate w;
            windowStartUtc := Time.windowStartUtc win;
            windowEndUtc := Time.windowEndUtc win;
            lanes := laneView <$> lanes;
            events := eventView <$> events;
            bands := bandView <$> bands |}).

(** Apply a single patch operation *)
Definition applyPatchOp (weddingId : string) (op : PatchOp)
           (windowStartUtc windowEndUtc : Z) : Prisma unit :=
  match op with
  | create_event event =>
      (* Validate times are within window *)
      let start := startUtc event in
      let end_ := endUtc event in
      let windowStart := windowStartUtc in
      let windowEnd := windowEndUtc in
      let start := if start <? windowStart then windowStart else start in
      let end_ := if end_ >? windowEnd then windowEnd else end_ in
      (* Snap to minute *)
      let start := setSecondsZero localTZA start in
      let end_ := setSecondsZero localTZA end_ in
      match assignedOwner event with
      | Some (OwnerObject _) => throw ValidationError
      | owner =>
          timelineEvent_create (id event)
            {| e_weddingId := weddingId;
               e_laneId := laneId event;
               e_title := title event;
               e_startUtc := start;
               e_endUtc := end_;
               e_category := default misc (category event);
               e_assignedOwnerType := couple;
               e_assignedOwnerId := "system";
               e_assignedOwnerName :=
                 orString (match owner with
                           | Some (OwnerName n) => Some n
                           | _ => None
                           end) "Couple";
               e_status := default tentative (status event);
               e_locked := default false (locked event);
               e_notes := notes event |}
      end
  | update_event_time eventId startUtc endUtc =>
      let start := startUtc in
      let end_ := endUtc in
      let windowStart := windowStartUtc in
      let windowEnd := windowEndUtc in
      (* Clamp to window *)
      let start := if start <? windowStart then windowStart else start in
      let end_ := if end_ >? windowEnd then windowEnd else end_ in
      (* Snap to minute *)
      let start := setSecondsZero localTZA start in
      let end_ := setSecondsZero localTZA end_ in
      timelineEvent_update eventId
        (fun r => mkEventRow (e_weddingId r) (e_laneId r) (e_title r)
                    start end_ (e_category r) (e_assignedOwnerType r)
                    (e_assignedOwnerId r) (e_assignedOwnerName r)
                    (e_status r) (e_locked r) (e_notes r))
  | update_event_lane eventId laneId =>
      timelineEvent_update eventId
        (fun r => mkEventRow (e_weddingId r) laneId (e_title r)
                    (e_startUtc r) (e_endUtc r) (e_category r)
                    (e_assignedOwnerType r) (e_assignedOwnerId r)
                    (e_assignedOwnerName r) (e_status r) (e_locked r)
                    (e_notes r))
  | update_event_title eventId title =>
      timelineEvent_update eventId
        (fun r => mkEventRow (e_weddingId r) (e_laneId r) title
                    (e_startUtc r) (e_endUtc r) (e_category r)
                    (e_assignedOwnerType r) (e_assignedOwnerId r)
                    (e_assignedOwnerName r) (e_status r) (e_locked r)
                    (e_notes r))
  | update_event_owner eventId owner =>
      match owner with
      | OwnerObject _ => throw ValidationError
      | OwnerName n =>
          timelineEvent_update eventId
            (fun r => mkEventRow (e_weddingId r) (e_laneId r) (e_title r)
                        (e_startUtc r) (e_endUtc r) (e_category r)
                        (e_assignedOwnerType r) (e_assignedOwnerId r)
                        n (e_status r) (e_locked r) (e_notes r))
      end
  | delete_event eventId =>
      timelineEvent_delete eventId
  | create_lane lane =>
      timelineLane_create (lane_id lane)
        {| l_weddingId := weddingId;
           l_name := lane_name lane;
           l_type := lane_type lane;
           l_ownerType := default couple (owner_type <$> lane_owner lane);
           l_ownerId := orString (owner_id <$> lane_owner lane) "system";
           l_ownerName := orString (displayName <$> lane_owner lane) "Couple";
           l_sortOrder := lane_sortOrder lane |}
  | update_lane laneId name owner sortOrder =>
      timelineLane_update laneId
        (fun r => mkLaneRow (l_weddingId r)
                    (default (l_name r) name)
                    (l_type r)
                    (default (l_ownerType r) (owner_type <$> owner))
                    (default (l_ownerId r) (owner_id <$> owner))
                    (default (l_ownerName r) (displayName <$> owner))
                    (default (l_sortOrder r) sortOrder))
  | delete_lane laneId =>
      (* First delete all events in the lane *)
      await timelineEvent_deleteMany laneId ;;
      timelineLane_delete laneId
  end.

(** The loop [for (const op of patchOps) await applyPatchOp(...)]. *)
Fixpoint applyPatchOps (weddingId : string) (patchOps : list PatchOp)
         (windowStartUtc windowEndUtc : Z) : Prisma unit :=
  match patchOps with
  | [] => pure tt
  | op :: rest =>
      await applyPatchOp weddingId op windowStartUtc windowEndUtc ;;
      applyPatchOps weddingId rest windowStartUtc windowEndUtc
  end.

(** The JSON responses of the route, with their HTTP status. *)
Inductive Response : Type :=
| Json200 (timeline : TimelineResponse)
| Json404 (error : string)
| Json409 (error : string) (currentVersion : Z)
          (currentTimeline : TimelineResponse)
| Json500 (error : string).

Definition httpStatus (r : Response) : Z :=
  match r with
  | Json200 _ => 200
  | Json404 _ => 404
  | Json409 _ _ _ => 409
  | Json500 _ => 500
  end.

(** The body of [PUT] inside its [try]. *)
Definition PUT_try (weddingId : string) (body : TimelineUpdateRequest)
  : Prisma Response :=
  let baseVersion := req_baseVersion body in
  let patchOps := req_patchOps body in
  (* Get current wedding with version *)
  let_await w <- wedding_findUnique weddingId ;;
  match w with
  | None => pure (Json404 "Wedding not found")
  | Some w =>
      (* Check for version conflict *)
      if negb (timelineVersion w =? baseVersion) then
        (* Return 409 with current state for conflict resolution *)
        let_await currentTimeline <- getFullTimeline weddingId w ;;
        pure (Json409 "Version conflict" (timelineVersion w) currentTimeline)
      else
        (* Get timeline bounds for validation *)
        let win := Time.getTimelineWindow tzdb now
                     (w_weddingDate w) (w_venueTimezone w) in
        let windowStartUtc := Time.windowInstant (Time.windowStartLocal win) in
        let windowEndUtc := Time.windowInstant (Time.windowEndLocal win) in
        (* Apply patch operations *)
        await applyPatchOps weddingId patchOps windowStartUtc windowEndUtc ;;
        (* Increment version *)
        await wedding_incrementVersion weddingId ;;
        (* Return updated timeline *)
        let_await updatedWedding <- wedding_findUnique weddingId ;;
        match updatedWedding with
        | None => throw TypeError   (* [updatedWedding!] is null *)
        | Some w' =>
            let_await updatedTimeline <- getFullTimeline weddingId w' ;;
            pure (Json200 updatedTimeline)
        end
  end.

(** PUT /api/weddings/[weddingId]/timeline: the response and the database
    after the request. *)
Definition PUT (weddingId : string) (body : TimelineUpdateRequest) (db : Db)
  : Db * Response :=
  match PUT_try weddingId body db with
  | (db', inr response) => (db', response)
  | (db', inl _) => (db', Json500 "Failed to update timeline")
  end.

End WithPlatform.

End Route.


(* ===================================================================== *)
(** ** The session controller (hooks/useTimeline.ts)                      *)
(* ===================================================================== *)

Module UseTimeline.
Import Types Draft History.

(** The state of the hook: one field per [useState]. *)
Record Session : Type := mkSession {
  timeline : option TimelineResponse;
  isLoading : bool;
  error : option string;
  draft : DraftState;
  history : HistoryState;
  selectedEventId : option string
}.

(** A call of [fetch]. *)
Record Request : Type := mkRequest {
  rq_url : string;
  rq_method : string;
  rq_body : TimelineUpdateRequest
}.

(** What [publish] can see of the answer: [fetch] or [res.json()] threw
    (with the message of the error, if it is an [Error]), the status is
    409 (with [currentVersion] of the body), the status is another one that
    is not ok, or the response is ok (with its body). *)
Inductive FetchResult : Type :=
| Threw (message : option string)
| Status409 (currentVersion : Z)
| NotOk (status : Z)
| Ok (data : TimelineResponse).

Definition setError (s : Session) (e : option string) : Session :=
  mkSession (timeline s) (isLoading s) e (draft s) (history s)
            (selectedEventId s).

Section WithNetwork.
(** The network: the answer to each request. *)
Variable fetch : Request -> FetchResult.
Variable weddingId : string.

(** Publish changes to server: the promised boolean, the state after the
    call and the requests that were sent. *)
Definition publish (s : Session) : bool * Session * list Request :=
  if negb (isDirty (draft s)) || (length (patchOps (draft s)) =? 0)%nat then
    (true, s, [])
  else
    let request :=
      {| rq_url := String.concat "" ["/api/weddings/"; weddingId; "/timeline"];
         rq_method := "PUT";
         rq_body := {| req_baseVersion := baseVersion (draft s);
                       req_patchOps := patchOps (draft s) |} |} in
    match fetch request with
    | Status409 currentVersion =>
        (* Version conflict *)
        (false,
         setError s
           (Some (String.concat ""
                    ["Timeline was updated by someone else. Your version: ";
                     pretty (baseVersion (draft s)); ", Current: ";
                     pretty currentVersion])),
         [request])
    | NotOk _ =>
        (false, setError s (Some "Failed to publish changes"), [request])
    | Threw message =>
        (false, setError s (Some (default "Failed to publish" message)),
         [request])
    | Ok data =>
        (true,
         {| timeline := Some data;
            isLoading := isLoading s;
            error := None;
            draft := resetDraft (version data);
            history := clearHistory (history s);
            selectedEventId := selectedEventId s |},
         [request])
    end.

End WithNetwork.

(** Discard changes *)
Definition discard (s : Session) : Session :=
  mkSession (timeline s) (isLoading s) (error s)
            (createDraftState (baseVersion (draft s)))
            (clearHistory (history s)) (selectedEventId s).

(** [array.slice(0, n)]: a negative [n] counts from the end. *)
Definition slice0 {A : Type} (l : list A) (n : Z) : list A :=
  if n <? 0 then take (Z.to_nat (Z.of_nat (length l) + n)) l
  else take (Z.to_nat n) l.

Definition undo (s : Session) : Session :=
  match History.undo (history s) with
  | (newHistory, Some ops) =>
      (* Remove the last N operations from draft *)
      let d := draft s in
      let n := Z.of_nat (length (patchOps d)) - Z.of_nat (length ops) in
      mkSession (timeline s) (isLoading s) (error s)
                {| baseVersion := baseVersion d;
                   patchOps := slice0 (patchOps d) n;
                   isDirty := n >? 0 |}
                newHistory (selectedEventId s)
  | (_, None) => s
  end.

Definition redo (s : Session) : Session :=
  match History.redo (history s) with
  | (newHistory, Some ops) =>
      let d := draft s in
      mkSession (timeline s) (isLoading s) (error s)
                {| baseVersion := baseVersion d;
                   patchOps := patchOps d ++ ops;
                   isDirty := true |}
                newHistory (selectedEventId s)
  | (_, None) => s
  end.

End UseTimeline.


(* ===================================================================== *)
(** ** The vocabulary of the properties                                   *)
(* ===================================================================== *)

Section Vocabulary.
Import Luxon Types History Route.

(** A history is within its capacity when the two stacks together hold at
    most [maxSize] batches. *)
Definition withinCapacity (h : HistoryState) : Prop :=
  Z.of_nat (length (past h)) + Z.of_nat (length (future h)) <= maxSize h.

Definition pastBounded (h : HistoryState) : Prop :=
  Z.of_nat (length (past h)) <= maxSize h.

(** The histories built from [createHistory m] by the operations of the
    stack. *)
Inductive reachable (m : Z) : HistoryState -> Prop :=
| reach_create : reachable m (createHistory m)
| reach_record (h h' : HistoryState) (ops : list PatchOp) (fuel : nat) :
    reachable m h -> recordAction fuel h ops = Some h' -> reachable m h'
| reach_undo (h : HistoryState) : reachable m h -> reachable m (undo h).1
| reach_redo (h : HistoryState) : reachable m h -> reachable m (redo h).1
| reach_clear (h : HistoryState) :
    reachable m h -> reachable m (clearHistory h).

(** An instant on a minute boundary. *)
Definition minuteAligned (t : Z) : Prop := t mod MS_PER_MINUTE = 0.

(** The minute boundary nearest to [t], a half minute rounding up: the
    snap operation in the words of the specification. *)
Definition nearestMinute (t : Z) : Z :=
  MS_PER_MINUTE * ((t + MS_PER_MINUTE / 2) / MS_PER_MINUTE).

(** The instant of a UTC calendar time. *)
Definition utcInstant (y m d h mi s : Z) : Z :=
  objToLocalTS (mkDateObj y m d h mi s 0).

(** The calendar algorithms inside one era of 400 years (146097 days):
    year of the era, month and day of a day of the era, and back. *)
Definition civilOfDoe (doe : Z) : Z * Z * Z :=
  let yoe := (doe - doe / 1460 + doe / 36524 - doe / 146096) / 365 in
  let doy := doe - (365 * yoe + yoe / 4 - yoe / 100) in
  let mp := (5 * doy + 2) / 153 in
  let d := doy - (153 * mp + 2) / 5 + 1 in
  let m := if mp <? 10 then mp + 3 else mp - 9 in
  (yoe, m, d).

Definition doeOfCivil (yoe m d : Z) : Z :=
  let mp := (m + 9) mod 12 in
  let doy := (153 * mp + 2) / 5 + d - 1 in
  yoe * 365 + yoe / 4 - yoe / 100 + doy.

(** The check that the two agree on a day of the era, and that the month
    and the day are in range. *)
Definition eraDayOk (doe : Z) : bool :=
  let '(yoe, m, d) := civilOfDoe doe in
  (0 <=? yoe) && (yoe <=? 399) && (1 <=? m) && (m <=? 12) && (1 <=? d)
  && (d <=? daysInMonth (yoe + (if m <=? 2 then 1 else 0)) m)
  && (doeOfCivil yoe m d =? doe).

(** [f] holds on the [n] integers from [start] on. *)
Fixpoint allFrom (f : Z -> bool) (n : nat) (start : Z) : bool :=
  match n with
  | O => true
  | S n' => f start && allFrom f n' (start + 1)
  end.

(** The window bounds that [PUT] hands to [applyPatchOp]. *)
Definition putWindow (tzdb : string -> option Zone) (now : Z) (w : Wedding)
  : Z * Z :=
  let win := Time.getTimelineWindow tzdb now
               (w_weddingDate w) (w_venueTimezone w) in
  (Time.windowInstant (Time.windowStartLocal win),
   Time.windowInstant (Time.windowEndLocal win)).

(** The database after the version of a wedding was incremented. *)
Definition bumpVersion (weddingId : string) (w : Wedding) (db : Db) : Db :=
  mkDb (<[weddingId := mkWedding (w_weddingDate w) (w_venueTimezone w)
                         (timelineVersion w + 1)]> (wedding db))
       (timelineLane db) (timelineEvent db) (timelineBackgroundBand db).

(** The database with one event row written. *)
Definition withEvent (eventId : string) (row : TimelineEventRow) (db : Db) : Db :=
  mkDb (wedding db) (timelineLane db) (<[eventId := row]> (timelineEvent db))
       (timelineBackgroundBand db).

(** The platform of the examples: a time-zone database that knows the
    zone of the demo weddings. *)
Definition exampleTzdb (name : string) : option Zone :=
  if String.eqb name "America/New_York" then Some America_New_York else None.

Definition exampleEvent (title : string) (locked : bool) : TimelineEventRow :=
  {| e_weddingId := "w1"; e_laneId := "lane1"; e_title := title;
     e_startUtc := 1792245600000; e_endUtc := 1792249200000;
     e_category := ceremony;
     e_assignedOwnerType := couple; e_assignedOwnerId := "system";
     e_assignedOwnerName := "Couple";
     e_status := tentative; e_locked := locked; e_notes := None |}.

(** One wedding at version 3 with one lane and one event. *)
Definition exampleDb (locked : bool) : Db :=
  {| wedding := {[ "w1" := mkWedding "2026-10-17" "America/New_York" 3 ]};
     timelineLane := {[ "lane1" := mkLaneRow "w1" "Ceremony" ceremony
                                             couple "system" "Couple" 0 ]};
     timelineEvent := {[ "e1" := exampleEvent "Vows" locked ]};
     timelineBackgroundBand := ∅ |}.

(** Two servers: one that runs on UTC (or on any zone of a fixed offset
    of whole minutes), one that runs in America/New_York. *)
Definition fixedHost (off : Z) : JsDate.LocalTZA :=
  fun _ _ => off * MS_PER_MINUTE.

Definition utcHost : JsDate.LocalTZA := fixedHost 0.

(** The offset of America/New_York for a local time: daylight time from
    03:00 on the second Sunday of March to 02:00 on the first Sunday of
    November; the skipped hour 02:00-03:00 and the repeated hour
    01:00-02:00 are read with the offset before the transition. *)
Definition usEasternLocalOffset (tLocal : Z) : Z :=
  let '(y, _, _) := civilFromDays (tLocal / MS_PER_DAY) in
  let dstStart := nthSunday y 3 2 * MS_PER_DAY + 3 * MS_PER_HOUR in
  let dstEnd := nthSunday y 11 1 * MS_PER_DAY + 2 * MS_PER_HOUR in
  if (dstStart <=? tLocal) && (tLocal <? dstEnd) then -240 else -300.

Definition newYorkHost : JsDate.LocalTZA :=
  fun t isUTC =>
    (if isUTC then usEasternOffset t else usEasternLocalOffset t)
    * MS_PER_MINUTE.

(** What an op that throws leaves of the database it ran on: the database
    as it was, except that a [delete_lane] has deleted the events of the
    lane before its second query throws. *)
Definition failedOpLeaves (op : PatchOp) (db : Db) : Db :=
  match op with
  | delete_lane laneId =>
      mkDb (wedding db) (timelineLane db)
           (filter (fun kv => e_laneId kv.2 <> laneId) (timelineEvent db))
           (timelineBackgroundBand db)
  | _ => db
  end.

(** The snapshot of a wedding, in the words of the specification: an item
    shows a row when each of its fields is the column of the row. *)
Definition showsEvent (k : string) (row : TimelineEventRow)
           (ev : TimelineEventItem) : Prop :=
  id ev = k
  /\ weddingId ev = e_weddingId row
  /\ title ev = e_title row
  /\ startUtc ev = e_startUtc row
  /\ endUtc ev = e_endUtc row
  /\ laneId ev = e_laneId row
  /\ category ev = Some (e_category row)
  /\ assignedOwner ev
     = Some (OwnerObject {| owner_id := e_assignedOwnerId row;
                            owner_type := e_assignedOwnerType row;
                            displayName := e_assignedOwnerName row |})
  /\ status ev = Some (e_status row)
  /\ locked ev = Some (e_locked row)
  /\ notes ev = e_notes row.

Definition showsLane (k : string) (row : TimelineLaneRow)
           (ln : TimelineLane) : Prop :=
  lane_id ln = k
  /\ lane_weddingId ln = l_weddingId row
  /\ lane_name ln = l_name row
  /\ lane_type ln = l_type row
  /\ lane_owner ln
     = Some {| owner_id := l_ownerId row; owner_type := l_ownerType row;
               displayName := l_ownerName row |}
  /\ lane_sortOrder ln = l_sortOrder row.

Definition showsBand (k : string) (row : TimelineBackgroundBandRow)
           (bd : TimelineBackgroundBand) : Prop :=
  band_id bd = k
  /\ band_weddingId bd = b_weddingId row
  /\ bandType bd = b_bandType row
  /\ band_startUtc bd = b_startUtc row
  /\ band_endUtc bd = b_endUtc row
  /\ band_label bd = b_label row.

(** [t] is the snapshot of the wedding [weddingId], whose row is [w], in
    the database [db]: the version, zone and date of the wedding row, the
    window of that date, and for each lane, event and band row of the
    wedding exactly one item, which shows the row; the lanes in the order
    of [sortOrder], the events in the order of their start. *)
Definition isSnapshotOf (tzdb : string -> option Zone) (now : Z)
           (weddingId : string) (w : Wedding) (db : Db)
           (t : TimelineResponse) : Prop :=
  let win := Time.getTimelineWindow tzdb now
               (w_weddingDate w) (w_venueTimezone w) in
  version t = timelineVersion w
  /\ venueTimezone t = w_venueTimezone w
  /\ weddingDate t = w_weddingDate w
  /\ windowStartUtc t = Time.windowStartUtc win
  /\ windowEndUtc t = Time.windowEndUtc win
  /\ (forall ev, ev ∈ events t <->
                 exists k row, timelineEvent db !! k = Some row
                               /\ e_weddingId row = weddingId
                               /\ showsEvent k row ev)
  /\ NoDup (id <$> events t)
  /\ Sorted (fun a b => startUtc a <= startUtc b) (events t)
  /\ (forall ln, ln ∈ lanes t <->
                 exists k row, timelineLane db !! k = Some row
                               /\ l_weddingId row = weddingId
                               /\ showsLane k row ln)
  /\ NoDup (lane_id <$> lanes t)
  /\ Sorted (fun a b => lane_sortOrder a <= lane_sortOrder b) (lanes t)
  /\ (forall bd, bd ∈ bands t <->
                 exists k row, timelineBackgroundBand db !! k = Some row
                               /\ b_weddingId row = weddingId
                               /\ showsBand k row bd)
  /\ NoDup (band_id <$> bands t).

End Vocabulary.


(* ===================================================================== *)
(** ** More of the code: validation, the read route, the hook's actions   *)
(* ===================================================================== *)

Module TimeChecks.

Record Validation : Type := mkValidation {
  v_valid : bool;
  v_error : option string
}.

(** [validateEventTimes] of lib/time.ts, on the instants that the four ISO
    strings denote.  [end.diff(start, "minutes").minutes < 1] is
    [end - start < 60000] in milliseconds. *)
Definition validateEventTimes (startUtc endUtc windowStartUtc windowEndUtc : Z)
  : Validation :=
  let start := startUtc in
  let end_ := endUtc in
  let windowStart := windowStartUtc in
  let windowEnd := windowEndUtc in
  (* Check start is before end *)
  if end_ <=? start then
    mkValidation false (Some "End time must be after start time")
  (* Check minimum duration (1 minute) *)
  else if end_ - start <? 1 * 60000 then
    mkValidation false (Some "Event must be at least 1 minute long")
  (* Check start is within window *)
  else if (start <? windowStart) || (start >=? windowEnd) then
    mkValidation false
      (Some "Start time must be within the day-of timeline window")
  (* Check end is within window *)
  else if (end_ <=? windowStart) || (end_ >? windowEnd) then
    mkValidation false
      (Some "End time must be within the day-of timeline window")
  else mkValidation true None.

End TimeChecks.

Module RouteRead.
Import Luxon Types Route.

(** The lane and the event as [GET] sends them: the owner of a lane is
    [null] when the owner id is empty, the owner of an event is its name,
    or [null] when the name is empty. *)
Definition laneViewGET (kv : string * TimelineLaneRow) : TimelineLane :=
  {| lane_id := kv.1;
     lane_weddingId := l_weddingId kv.2;
     lane_name := l_name kv.2;
     lane_type := l_type kv.2;
     lane_owner := if String.eqb (l_ownerId kv.2) "" then None
                   else Some (mkOwnerRef (l_ownerId kv.2) (l_ownerType kv.2)
                                         (l_ownerName kv.2));
     lane_sortOrder := l_sortOrder kv.2 |}.

Definition eventViewGET (kv : string * TimelineEventRow) : TimelineEventItem :=
  {| id := kv.1;
     weddingId := e_weddingId kv.2;
     title := e_title kv.2;
     startUtc := e_startUtc kv.2;
     endUtc := e_endUtc kv.2;
     laneId := e_laneId kv.2;
     category := Some (e_category kv.2);
     assignedOwner := if String.eqb (e_assignedOwnerName kv.2) "" then None
                      else Some (OwnerName (e_assignedOwnerName kv.2));
     status := Some (e_status kv.2);
     locked := Some (e_locked kv.2);
     notes := e_notes kv.2 |}.

(** GET /api/weddings/[weddingId]/timeline: the wedding with its lanes (by
    sort order), events (by start) and bands. *)
Definition GET (tzdb : string -> option Zone) (now : Z) (weddingId : string)
           (db : Db) : Response :=
  match wedding db !! weddingId with
  | None => Json404 "Wedding not found"
  | Some w =>
      (* Calculate timeline window bounds *)
      let win := Time.getTimelineWindow tzdb now
                   (w_weddingDate w) (w_venueTimezone w) in
      Json200
        {| version := timelineVersion w;
           venueTimezone := w_venueTimezone w;
           weddingDate := w_weddingDate w;
           windowStartUtc := Time.windowStartUtc win;
           windowEndUtc := Time.windowEndUtc win;
           lanes := laneViewGET <$> timelineLane_findMany weddingId db;
           events := eventViewGET <$> timelineEvent_findMany weddingId db;
           bands := bandView <$> timelineBackgroundBand_findMany weddingId db |}
  end.

End RouteRead.

Module UseTimelineActions.
Import Types Draft History UseTimeline.

(** Apply draft to get display state *)
Definition displayEvents (s : Session) : list TimelineEventItem :=
  match timeline s with
  | Some t => applyDraftToEvents (events t) (patchOps (draft s))
  | None => []
  end.

Definition displayLanes (s : Session) : list TimelineLane :=
  match timeline s with
  | Some t => applyDraftToLanes (lanes t) (patchOps (draft s))
  | None => []
  end.

(** Helper to add patch op and record history: every op is appended to
    the draft, the ops are recorded as one batch.  [fuel] bounds the
    trimming loop of [recordAction]. *)
Definition applyPatch (fuel : nat) (ops : list PatchOp) (s : Session)
  : option Session :=
  let d := fold_left addPatchOp ops (draft s) in
  h ← recordAction fuel (history s) ops;
  Some (mkSession (timeline s) (isLoading s) (error s) d h
                  (selectedEventId s)).

Definition addEvent (fuel : nat) (event : TimelineEventItem) :=
  applyPatch fuel [create_event event].

Definition updateEventTime (fuel : nat) (eventId : string) (startUtc endUtc : Z) :=
  applyPatch fuel [update_event_time eventId startUtc endUtc].

Definition updateEventLane (fuel : nat) (eventId laneId : string) :=
  applyPatch fuel [update_event_lane eventId laneId].

Definition updateEventTitle (fuel : nat) (eventId title : string) :=
  applyPatch fuel [update_event_title eventId title].

Definition deleteEvent (fuel : nat) (eventId : string) (s : Session)
  : option Session :=
  s' ← applyPatch fuel [delete_event eventId] s;
  Some (if bool_decide (selectedEventId s = Some eventId)
        then mkSession (timeline s') (isLoading s') (error s') (draft s')
                       (history s') None
        else s').

Definition addLane (fuel : nat) (lane : TimelineLane) :=
  applyPatch fuel [create_lane lane].

Definition deleteLane (fuel : nat) (laneId : string) :=
  applyPatch fuel [delete_lane laneId].

(** Fetch timeline data: the state after [refresh], for the answer of the
    GET request. *)
Definition refresh (answer : FetchResult) (s : Session) : Session :=
  match answer with
  | Ok data =>
      {| timeline := Some data; isLoading := false; error := None;
         draft := createDraftState (version data);
         history := clearHistory (history s);
         selectedEventId := selectedEventId s |}
  | Threw message =>
      {| timeline := timeline s; isLoading := false;
         error := Some (default "Unknown error" message);
         draft := draft s; history := history s;
         selectedEventId := selectedEventId s |}
  | _ =>
      {| timeline := timeline s; isLoading := false;
         error := Some "Failed to fetch timeline";
         draft := draft s; history := history s;
         selectedEventId := selectedEventId s |}
  end.

End UseTimelineActions.

Section MoreVocabulary.
Import Luxon Types Draft History Route UseTimeline.

(** The dirty flag of a draft says whether it holds ops. *)
Definition draftConsistent (d : DraftState) : Prop :=
  isDirty d = true <-> patchOps d <> [].

(** The ops of the draft end with the ops of the undoable batches, oldest
    batch first. *)
Definition draftTracksHistory (s : Session) : Prop :=
  exists older : list PatchOp,
    patchOps (draft s) = older ++ concat (past (history s)).

(** Every event row points at a lane row. *)
Definition lanesExist (db : Db) : Prop :=
  forall (k : string) (row : TimelineEventRow),
    timelineEvent db !! k = Some row -> is_Some (timelineLane db !! e_laneId row).

(** The event of the snapshot of [PUT] with its owner as [GET] sends it. *)
Definition ownerAsName (ev : TimelineEventItem) : TimelineEventItem :=
  mkEvent (id ev) (weddingId ev) (title ev) (startUtc ev) (endUtc ev)
          (laneId ev) (category ev)
          (match assignedOwner ev with
           | Some (OwnerObject r) =>
               if String.eqb (displayName r) "" then None
               else Some (OwnerName (displayName r))
           | other => other
           end)
          (status ev) (locked ev) (notes ev).

(** The calendar date [YYYY-MM-DD] as a string. *)
Definition isoDate (y m d : Z) : string :=
  String.concat "" [padStart 4 y; "-"; padStart 2 m; "-"; padStart 2 d].

(** The length in milliseconds of the window of a date, when the date and
    the zone are valid. *)
Definition windowLength (tzdb : string -> option Zone) (now : Z)
           (weddingDate venueTimezone : string) : option Z :=
  let w := Time.getTimelineWindow tzdb now weddingDate venueTimezone in
  match Time.windowStartLocal w, Time.windowEndLocal w with
  | Some a, Some b => Some (ts b - ts a)
  | _, _ => None
  end.

(** A window that is not empty and whose bounds are dates that luxon
    represents at the offset [off] (minutes). *)
Definition representableWindow (off ws we : Z) : Prop :=
  ws <= we
  /\ - JsDate.MAX_TIME <= ws /\ we <= JsDate.MAX_TIME
  /\ - JsDate.MAX_TIME <= ws + off * MS_PER_MINUTE
  /\ we + off * MS_PER_MINUTE <= JsDate.MAX_TIME.

(** The check of the window length for one date in America/New_York, for
    a clock in standard time and a clock in daylight time. *)
Definition nyWindowOk (z : Z) : bool :=
  let '(y, m, d) := civilFromDays z in
  let expected :=
    if z + 1 =? nthSunday y 3 2 then 23 * MS_PER_HOUR
    else if z + 1 =? nthSunday y 11 1 then 25 * MS_PER_HOUR
    else 24 * MS_PER_HOUR in
  forallb (fun now =>
             match windowLength exampleTzdb now (isoDate y m d)
                                "America/New_York" with
             | Some len => len =? expected
             | None => false
             end) [0; 1792220400000].

End MoreVocabulary.


(* ===================================================================== *)
(** * Properties                                                          *)
(* ===================================================================== *)

(** ** The history stack *)

Section HistoryFacts.
Import Types History.

(** The trimming loop ends when the capacity is not negative: it drops the
    surplus from the front. *)
Lemma trimToMaxSize_drop (fuel : nat) :
  forall (l : list (list PatchOp)) (m : Z),
    0 <= m -> (length l < fuel)%nat ->
    trimToMaxSize fuel l m = Some (drop (length l - Z.to_nat m) l).
Proof.
  induction fuel as [|fuel IH]; intros l m Hm Hlen; [lia|].
  cbn [trimToMaxSize].
  destruct (Z.gtb_spec (Z.of_nat (length l)) m) as [Hgt|Hle].
  - destruct l as [|x l']; cbn [length] in *; [lia|].
    cbn [tail]. rewrite IH by lia.
    replace (S (length l') - Z.to_nat m)%nat
      with (S (length l' - Z.to_nat m)) by lia.
    reflexivity.
  - replace (length l - Z.to_nat m)%nat with O by lia.
    rewrite drop_0. reflexivity.
Qed.

(** With a negative capacity the condition of the loop never becomes
    false: no amount of fuel suffices. *)
Lemma trimToMaxSize_negative (fuel : nat) :
  forall (l : list (list PatchOp)) (m : Z),
    m < 0 -> trimToMaxSize fuel l m = None.
Proof.
  induction fuel as [|fuel IH]; intros l m Hm; [reflexivity|].
  cbn [trimToMaxSize].
  destruct (Z.gtb_spec (Z.of_nat (length l)) m) as [Hgt|Hle]; [|lia].
  apply IH; assumption.
Qed.

Lemma recordAction_returns (h : HistoryState) (ops : list PatchOp) (fuel : nat) :
  0 <= maxSize h -> (length (past h) + 1 < fuel)%nat ->
  recordAction fuel h ops =
    Some {| past := drop (length (past h) + 1 - Z.to_nat (maxSize h))
                         (past h ++ [ops]);
            future := [];
            maxSize := maxSize h |}.
Proof.
  intros Hm Hfuel. unfold recordAction.
  rewrite trimToMaxSize_drop by (try rewrite length_app; cbn; lia).
  rewrite length_app. cbn. reflexivity.
Qed.

Lemma last_snoc_inv {A : Type} (l : list A) (b : A) :
  last l = Some b -> l = removelast l ++ [b].
Proof.
  intros H. destruct (list.last_Some l b) as [[l' ->] _]; [exact H|].
  rewrite removelast_last. reflexivity.
Qed.

Lemma undo_nonempty (h : HistoryState) (b : list PatchOp) :
  last (past h) = Some b ->
  undo h = ({| past := removelast (past h);
               future := b :: future h;
               maxSize := maxSize h |}, Some b).
Proof. intros H. unfold undo. rewrite H. reflexivity. Qed.

End HistoryFacts.

Section HistoryClaims.
Import Types History.

Lemma withinCapacity_pastBounded (h : HistoryState) :
  withinCapacity h -> pastBounded h.
Proof. unfold withinCapacity, pastBounded. lia. Qed.

Lemma length_removelast_last {A : Type} (l : list A) (b : A) :
  last l = Some b -> length l = S (length (removelast l)).
Proof.
  intros H. rewrite (last_snoc_inv l b H) at 1.
  rewrite length_app. cbn. lia.
Qed.

(** [undo] and [redo] move one batch between the stacks, or nothing. *)
Lemma undo_lengths (h : HistoryState) :
  maxSize (undo h).1 = maxSize h
  /\ (length (past (undo h).1) <= length (past h))%nat
  /\ (length (past (undo h).1) + length (future (undo h).1)
      = length (past h) + length (future h))%nat.
Proof.
  unfold undo. destruct (last (past h)) as [b|] eqn:Hlast; cbn; [|lia].
  pose proof (length_removelast_last _ _ Hlast). lia.
Qed.

Lemma redo_lengths (h : HistoryState) :
  maxSize (redo h).1 = maxSize h
  /\ (length (past (redo h).1) <= length (past h) + length (future h))%nat
  /\ (length (past (redo h).1) + length (future (redo h).1)
      = length (past h) + length (future h))%nat.
Proof.
  unfold redo. destruct (future h) as [|b f] eqn:Hf; cbn.
  - rewrite Hf. cbn. lia.
  - rewrite length_app. cbn. lia.
Qed.

(** Whatever the loop returns is within the capacity. *)
Lemma trimToMaxSize_bound (fuel : nat) :
  forall (l l' : list (list PatchOp)) (m : Z),
    trimToMaxSize fuel l m = Some l' -> Z.of_nat (length l') <= m.
Proof.
  induction fuel as [|fuel IH]; intros l l' m H; [discriminate|].
  cbn [trimToMaxSize] in H.
  destruct (Z.gtb_spec (Z.of_nat (length l)) m) as [Hgt|Hle].
  - eapply IH; exact H.
  - injection H as <-. exact Hle.
Qed.

(** Every history built from [createHistory m] keeps its two stacks
    together within [m]. *)
Lemma reachable_withinCapacity (m : Z) (h : HistoryState) :
  0 <= m -> reachable m h -> withinCapacity h /\ maxSize h = m.
Proof.
  intros Hm Hr. unfold withinCapacity.
  induction Hr as [|h h' ops fuel _ [IH1 IH2] Hrec
                   |h _ [IH1 IH2]|h _ [IH1 IH2]|h _ [IH1 IH2]].
  - cbn. lia.
  - unfold recordAction in Hrec.
    destruct (trimToMaxSize _ _ _) as [l'|] eqn:Htrim; [|discriminate].
    cbn in Hrec. injection Hrec as <-. cbn [past future maxSize length].
    apply trimToMaxSize_bound in Htrim. lia.
  - destruct (undo_lengths h) as (H1 & H2 & H3). lia.
  - destruct (redo_lengths h) as (H1 & H2 & H3). lia.
  - cbn. lia.
Qed.

(** C7, counterexample: with the capacity -1 the trimming loop of
    [recordAction] never ends, so no state with an empty redo stack (no
    state at all) is returned. *)
Lemma recordAction_negative_capacity_diverges :
  ~ exists (fuel : nat) (h' : HistoryState),
      recordAction fuel (createHistory (-1)) [] = Some h' /\ future h' = [].
Proof.
  intros (fuel & h' & Hrun & _). unfold recordAction in Hrun.
  rewrite trimToMaxSize_negative in Hrun by (cbn; lia).
  discriminate Hrun.
Qed.

(** C7, amended: for every history [h] with a non-empty past, [undo]
    returns the newest past batch [b] and moves it to the front of the
    future, and [redo] of the state after [undo] returns the same [b] and
    restores [h] exactly; for every history [hr] whose capacity is not
    negative, [recordAction] returns (given fuel beyond the length of the
    past) a state whose redo stack is empty. *)
Theorem undo_redo_symmetry_and_record_clears_future
        (h hr : HistoryState) (ops : list PatchOp) :
  past h <> [] ->
  0 <= maxSize hr ->
  (exists b : list PatchOp,
      last (past h) = Some b
      /\ undo h = ({| past := removelast (past h);
                      future := b :: future h;
                      maxSize := maxSize h |}, Some b)
      /\ redo (undo h).1 = (h, Some b))
  /\ (exists hr' : HistoryState,
         (forall fuel : nat, (length (past hr) + 1 < fuel)%nat ->
                             recordAction fuel hr ops = Some hr')
         /\ future hr' = []).
Proof.
  intros Hne Hcap. split.
  - destruct (last (past h)) as [b|] eqn:Hlast.
    + exists b. split; [reflexivity|].
      rewrite (undo_nonempty h b Hlast). split; [reflexivity|].
      cbn. unfold redo. cbn.
      rewrite <- (last_snoc_inv _ _ Hlast).
      destruct h; reflexivity.
    + apply list.last_None in Hlast. contradiction.
  - eexists. split.
    + intros fuel Hfuel. apply recordAction_returns; assumption.
    + reflexivity.
Qed.

Lemma undo_redo_symmetry_and_record_clears_future_witness :
  let h := {| past := [[delete_event "a"]; [delete_event "b"]];
              future := [[delete_event "c"]];
              maxSize := 50 |} in
  (past h <> [] /\ 0 <= maxSize h)
  /\ redo (undo h).1 = (h, Some [delete_event "b"])
  /\ recordAction 4 h [delete_event "d"]
     = Some {| past := [[delete_event "a"]; [delete_event "b"];
                        [delete_event "d"]];
               future := []; maxSize := 50 |}.
Proof.
  intros h.
  assert (Hne : past h <> []) by (cbn; discriminate).
  assert (Hcap : 0 <= maxSize h) by (cbn; lia).
  destruct (undo_redo_symmetry_and_record_clears_future
              h h [delete_event "d"] Hne Hcap)
    as [(b & Hlast & _ & Hredo) (hr' & Hrec & _)].
  split; [split; assumption|]. split.
  - cbn in Hlast. injection Hlast as <-. exact Hredo.
  - rewrite (Hrec 4%nat) by (cbn; lia).
    rewrite <- (Hrec 5%nat) by (cbn; lia). reflexivity.
Defined.

(** C8, counterexample: a state whose past is full (length 1, capacity 1)
    and whose future is not empty; [redo] yields a past of length 2. *)
Lemma redo_exceeds_capacity :
  let h := {| past := [[delete_event "a"]];
              future := [[delete_event "b"]];
              maxSize := 1 |} in
  pastBounded h /\ ~ pastBounded (redo h).1.
Proof. unfold pastBounded. cbn. lia. Qed.

(** C8, amended: for every history [h] whose past holds at most [maxSize]
    batches, [recordAction] (which returns), [undo] and [clearHistory]
    yield a past of at most [maxSize] batches, and [recordAction] drops the
    surplus from the front of the past; for every history [hc] whose past
    and future together hold at most [maxSize] batches, [redo] yields a
    past of at most [maxSize] batches too, and all four operations keep
    past and future together within [maxSize]. *)
Theorem history_stays_bounded (h hc : HistoryState) (ops : list PatchOp) :
  pastBounded h ->
  withinCapacity hc ->
  ((exists h' : HistoryState,
       (forall fuel : nat, (length (past h) + 1 < fuel)%nat ->
                           recordAction fuel h ops = Some h')
       /\ past h' = drop (length (past h) + 1 - Z.to_nat (maxSize h))
                         (past h ++ [ops])
       /\ maxSize h' = maxSize h
       /\ pastBounded h' /\ withinCapacity h')
   /\ pastBounded (undo h).1
   /\ pastBounded (clearHistory h))
  /\ (pastBounded (redo hc).1
      /\ withinCapacity (redo hc).1
      /\ withinCapacity (undo hc).1
      /\ withinCapacity (clearHistory hc)).
Proof.
  unfold pastBounded, withinCapacity. intros Hb Hc.
  assert (Hm : 0 <= maxSize h) by lia.
  destruct (undo_lengths h) as (Hu1 & Hu2 & Hu3).
  destruct (undo_lengths hc) as (Hc1 & Hc2 & Hc3).
  destruct (redo_lengths hc) as (Hr1 & Hr2 & Hr3).
  repeat split; cbn [clearHistory past future maxSize length]; try lia.
  eexists. split; [intros fuel Hfuel; apply recordAction_returns; assumption|].
  cbn [past future maxSize]. split; [reflexivity|]. split; [reflexivity|].
  rewrite length_drop, length_app. cbn [length]. lia.
Qed.

Lemma history_stays_bounded_witness :
  let h := {| past := [[delete_event "a"]; [delete_event "b"]];
              future := [[delete_event "c"]];
              maxSize := 2 |} in
  let hc := {| past := [[delete_event "a"]];
               future := [[delete_event "c"]];
               maxSize := 2 |} in
  (pastBounded h /\ withinCapacity hc)
  /\ recordAction 4 h [delete_event "d"]
     = Some {| past := [[delete_event "b"]; [delete_event "d"]];
               future := []; maxSize := 2 |}
  /\ pastBounded (redo hc).1.
Proof.
  intros h hc.
  assert (Hb : pastBounded h) by (cbv [pastBounded h past maxSize length]; lia).
  assert (Hc : withinCapacity hc)
    by (cbv [withinCapacity hc past future maxSize length]; lia).
  destruct (history_stays_bounded h hc [delete_event "d"] Hb Hc)
    as [[(h' & Hrec & _) _] [Hredo _]].
  split; [split; assumption|]. split.
  - rewrite (Hrec 4%nat) by (cbn; lia).
    rewrite <- (Hrec 5%nat) by (cbn; lia). reflexivity.
  - exact Hredo.
Defined.

End HistoryClaims.

(** ** The calendar *)

Section CalendarFacts.
Import Luxon.

Lemma allFrom_spec (f : Z -> bool) (n : nat) :
  forall start z, allFrom f n start = true ->
                  start <= z < start + Z.of_nat n -> f z = true.
Proof.
  induction n as [|n IH]; intros start z H Hz; [lia|].
  cbn [allFrom] in H. apply andb_true_iff in H as [H0 H1].
  destruct (Z.eq_dec z start) as [->|Hne]; [exact H0|].
  apply (IH (start + 1)); [exact H1|lia].
Qed.

Lemma eraDayOk_all : allFrom eraDayOk (Z.to_nat 146097) 0 = true.
Proof. vm_compute. reflexivity. Qed.

Lemma isLeapYear_era (k era : Z) : isLeapYear (k + era * 400) = isLeapYear k.
Proof.
  unfold isLeapYear.
  replace ((k + era * 400) mod 4) with (k mod 4)
    by (replace (k + era * 400) with (k + era * 100 * 4) by lia;
        symmetry; apply Z_mod_plus_full).
  replace ((k + era * 400) mod 100) with (k mod 100)
    by (replace (k + era * 400) with (k + era * 4 * 100) by lia;
        symmetry; apply Z_mod_plus_full).
  replace ((k + era * 400) mod 400) with (k mod 400)
    by (symmetry; apply Z_mod_plus_full).
  reflexivity.
Qed.

Lemma daysInMonth_era (k era m : Z) :
  daysInMonth (k + era * 400) m = daysInMonth k m.
Proof.
  unfold daysInMonth.
  replace (k + era * 400 + (m - ((m - 1) mod 12 + 1)) / 12)
    with (k + (m - ((m - 1) mod 12 + 1)) / 12 + era * 400) by lia.
  rewrite isLeapYear_era. reflexivity.
Qed.

Lemma civil_roundtrip (z : Z) :
  daysFromCivil (civilFromDays z).1.1 (civilFromDays z).1.2 (civilFromDays z).2
  = z
  /\ 1 <= (civilFromDays z).1.2 <= 12
  /\ 1 <= (civilFromDays z).2
     <= daysInMonth (civilFromDays z).1.1 (civilFromDays z).1.2.
Proof.
  set (z' := z + 719468).
  set (era := z' / 146097).
  set (doe := z' - era * 146097).
  assert (Hdoe : 0 <= doe < 146097).
  { subst doe era. pose proof (Z.mod_pos_bound z' 146097 eq_refl) as H.
    rewrite Z.mod_eq in H by discriminate. lia. }
  assert (Heq : civilFromDays z
                = (let '(yoe, m, d) := civilOfDoe doe in
                   (if m <=? 2 then yoe + era * 400 + 1 else yoe + era * 400,
                    m, d))) by reflexivity.
  pose proof (allFrom_spec eraDayOk _ 0 doe eraDayOk_all) as Hok.
  rewrite Z2Nat.id in Hok by discriminate. specialize (Hok ltac:(lia)).
  unfold eraDayOk in Hok. rewrite Heq. clear Heq.
  destruct (civilOfDoe doe) as [[yoe m] d].
  repeat (apply andb_true_iff in Hok as [Hok ?]).
  repeat match goal with
         | H : (_ <=? _) = true |- _ => apply Z.leb_le in H
         | H : (_ =? _) = true |- _ => apply Z.eqb_eq in H
         end.
  cbn [fst snd].
  assert (Hdim : daysInMonth
                   (if m <=? 2 then yoe + era * 400 + 1 else yoe + era * 400) m
                 = daysInMonth (yoe + (if m <=? 2 then 1 else 0)) m).
  { destruct (m <=? 2).
    - replace (yoe + era * 400 + 1) with (yoe + 1 + era * 400) by lia.
      apply daysInMonth_era.
    - rewrite Z.add_0_r. apply daysInMonth_era. }
  rewrite Hdim. split; [|lia].
  unfold daysFromCivil.
  replace ((m - 1) / 12) with 0 by (symmetry; apply Z.div_small; lia).
  replace ((m - 1) mod 12) with (m - 1) by (symmetry; apply Z.mod_small; lia).
  replace (m - 1 + 1) with m by lia.
  replace (if m <=? 2
           then (if m <=? 2 then yoe + era * 400 + 1 else yoe + era * 400) + 0 - 1
           else (if m <=? 2 then yoe + era * 400 + 1 else yoe + era * 400) + 0)
    with (yoe + era * 400) by (destruct (m <=? 2); lia).
  replace ((yoe + era * 400) / 400) with era
    by (rewrite Z.div_add by discriminate;
        rewrite (Z.div_small yoe 400) by lia; lia).
  replace (yoe + era * 400 - era * 400) with yoe by lia.
  unfold doeOfCivil in *. subst doe z'. lia.
Qed.

Lemma mathRoundDiv_one (m : Z) : Time.mathRoundDiv m 1 * 1 = m.
Proof.
  unfold Time.mathRoundDiv. rewrite Z.mul_1_r.
  symmetry. apply (Z.div_unique (2 * m + 1) (2 * 1) m 1); lia.
Qed.

(** Zeroing the seconds and milliseconds of the local fields and reading
    the fields back gives the start of the local minute. *)
Lemma objToLocalTS_start_of_minute (t o : Z) :
  let c := tsToObj t o in
  objToLocalTS
    (mixUnits c (mkUnits None None None None
                   (Some (Time.mathRoundDiv (minute c) 1 * 1))
                   (Some 0) (Some 0)))
  = (t + o * MS_PER_MINUTE) - (t + o * MS_PER_MINUTE) mod MS_PER_MINUTE.
Proof.
  intros c. subst c. rewrite mathRoundDiv_one. unfold tsToObj.
  set (l := t + o * MS_PER_MINUTE).
  pose proof (civil_roundtrip (l / MS_PER_DAY)) as (Hrt & Hm & Hd).
  destruct (civilFromDays (l / MS_PER_DAY)) as [[y m] d].
  cbn [fst snd] in *.
  unfold objToLocalTS, mixUnits.
  cbn [year month day hour minute second millisecond
       u_year u_month u_day u_hour u_minute u_second u_millisecond default].
  rewrite Z.min_r by lia. rewrite Hrt.
  assert (Hmod : l mod MS_PER_MINUTE
                 = ((l mod MS_PER_DAY) mod MS_PER_HOUR) mod MS_PER_MINUTE).
  { rewrite (Z.mod_mod_divide (l mod MS_PER_DAY) MS_PER_HOUR MS_PER_MINUTE)
      by (exists 60; reflexivity).
    rewrite (Z.mod_mod_divide l MS_PER_DAY MS_PER_MINUTE)
      by (exists 1440; reflexivity).
    reflexivity. }
  rewrite Hmod.
  pose proof (Z.div_mod l MS_PER_DAY ltac:(discriminate)) as E1.
  pose proof (Z.div_mod (l mod MS_PER_DAY) MS_PER_HOUR ltac:(discriminate))
    as E2.
  pose proof (Z.div_mod ((l mod MS_PER_DAY) mod MS_PER_HOUR) MS_PER_MINUTE
                ltac:(discriminate)) as E3.
  clearbody l.
  unfold id, MS_PER_DAY, MS_PER_HOUR, MS_PER_MINUTE, MS_PER_SECOND in *.
  lia.
Qed.

(** In a zone of fixed offset [snapToMinute] cuts the instant down to the
    start of its minute. *)
Lemma snapToMinute_fixed_zone (name : string) (off t : Z) :
  Snapping.snapToMinute (FixedOffsetZone name off) t Snapping.SNAP_MINUTES
  = t - t mod MS_PER_MINUTE.
Proof.
  unfold Snapping.snapToMinute, Snapping.SNAP_MINUTES, fromJSDate, toJSDate,
    set, objToTS, toObject.
  cbn [ts o zone offset FixedOffsetZone].
  rewrite objToLocalTS_start_of_minute.
  unfold fixOffset. cbn [offset FixedOffsetZone]. rewrite Z.eqb_refl.
  cbn [ts]. rewrite Z_mod_plus_full. lia.
Qed.

(** So every instant in the second half of a minute is snapped away from
    its nearest minute boundary. *)
Lemma snapToMinute_not_nearest (name : string) (off t : Z) :
  30000 <= t mod MS_PER_MINUTE ->
  Snapping.snapToMinute (FixedOffsetZone name off) t Snapping.SNAP_MINUTES
  = nearestMinute t - MS_PER_MINUTE.
Proof.
  intros H. rewrite snapToMinute_fixed_zone. unfold nearestMinute.
  pose proof (Z.div_mod t MS_PER_MINUTE ltac:(discriminate)) as E.
  pose proof (Z.mod_pos_bound t MS_PER_MINUTE eq_refl) as B.
  assert (Hq : (t + MS_PER_MINUTE / 2) / MS_PER_MINUTE = t / MS_PER_MINUTE + 1).
  { symmetry.
    apply (Z.div_unique _ _ _ (t mod MS_PER_MINUTE - 30000)).
    - left. unfold MS_PER_MINUTE in *. lia.
    - replace (MS_PER_MINUTE / 2) with 30000 by reflexivity.
      unfold MS_PER_MINUTE in *. lia. }
  rewrite Hq. unfold MS_PER_MINUTE in *. lia.
Qed.

End CalendarFacts.

(** ** Snapping and clamping *)

Section SnappingFacts.
Import Luxon JsDate Snapping.

Lemma minuteAligned_divide (t : Z) :
  minuteAligned t <-> (MS_PER_MINUTE | t).
Proof.
  unfold minuteAligned. apply Z.mod_divide. discriminate.
Qed.

Lemma minuteAligned_sub_minutes (t k : Z) :
  minuteAligned t -> minuteAligned (t - k * MS_PER_MINUTE).
Proof.
  rewrite !minuteAligned_divide. intros H.
  apply Z.divide_sub_r; [exact H|]. apply Z.divide_factor_r.
Qed.

Lemma minuteAligned_add_minutes (t k : Z) :
  minuteAligned t -> minuteAligned (t + k * MS_PER_MINUTE).
Proof.
  rewrite !minuteAligned_divide. intros H.
  apply Z.divide_add_r; [exact H|]. apply Z.divide_factor_r.
Qed.

(** Two instants on minute boundaries that are in order are at least a
    minute apart. *)
Lemma minuteAligned_gap (a b : Z) :
  minuteAligned a -> minuteAligned b -> a < b -> b - a >= MS_PER_MINUTE.
Proof.
  rewrite !minuteAligned_divide. intros [p ->] [q ->] Hlt.
  unfold MS_PER_MINUTE in *. nia.
Qed.

(** A local time with zero seconds and milliseconds is on a minute
    boundary. *)
Lemma objToLocalTS_aligned (c : DateObj) :
  second c = 0 -> millisecond c = 0 -> minuteAligned (objToLocalTS c).
Proof.
  intros Hs Hms. apply minuteAligned_divide. unfold objToLocalTS.
  rewrite Hs, Hms.
  exists (daysFromCivil (year c) (month c) (day c) * 1440
          + hour c * 60 + minute c).
  unfold MS_PER_DAY, MS_PER_HOUR, MS_PER_MINUTE, MS_PER_SECOND. lia.
Qed.

(** Whatever the zone answers, [fixOffset] moves a local time by whole
    minutes. *)
Lemma fixOffset_aligned (localTS o0 : Z) (tz : Zone) :
  minuteAligned localTS -> minuteAligned (fixOffset localTS o0 tz).1.
Proof.
  intros H. unfold fixOffset.
  destruct (o0 =? _); cbn [fst].
  - apply minuteAligned_sub_minutes; exact H.
  - destruct (_ =? _); cbn [fst].
    + do 2 apply minuteAligned_sub_minutes. exact H.
    + apply minuteAligned_sub_minutes; exact H.
Qed.

Lemma snapToMinute_aligned (localZone : Zone) (date snapMinutes : Z) :
  minuteAligned (snapToMinute localZone date snapMinutes).
Proof.
  unfold snapToMinute, toJSDate, set, objToTS.
  match goal with
  | |- context [fixOffset ?l ?o0 ?z] =>
      pose proof (fixOffset_aligned l o0 z) as H;
      destruct (fixOffset l o0 z) as [ts' o'] eqn:E
  end.
  cbn [ts fst] in *. apply H. apply objToLocalTS_aligned; reflexivity.
Qed.

Lemma clampToWindow_cases (date ws we : Z) :
  clampToWindow date ws we = ws
  \/ clampToWindow date ws we = we
  \/ clampToWindow date ws we = date.
Proof.
  unfold clampToWindow. destruct (date <? ws); [tauto|].
  destruct (date >? we); tauto.
Qed.

Lemma clampToWindow_bounds (date ws we : Z) :
  ws <= we -> ws <= clampToWindow date ws we <= we.
Proof.
  intros H. unfold clampToWindow.
  destruct (Z.ltb_spec date ws); [lia|].
  destruct (Z.gtb_spec date we); lia.
Qed.

Lemma clampToWindow_aligned (date ws we : Z) :
  minuteAligned date -> minuteAligned ws -> minuteAligned we ->
  minuteAligned (clampToWindow date ws we).
Proof.
  intros Hd Hs He.
  destruct (clampToWindow_cases date ws we) as [-> | [-> | ->]]; assumption.
Qed.

Lemma TimeClip_Some (t x : Z) :
  TimeClip t = Some x <-> x = t /\ Z.abs t <= MAX_TIME.
Proof.
  unfold TimeClip. destruct (Z.leb_spec (Z.abs t) MAX_TIME); split.
  - intros [= <-]. split; [reflexivity | assumption].
  - intros [-> _]. reflexivity.
  - discriminate.
  - intros [_ H']. lia.
Qed.

(** A date that [snapToMinuteDate] returns is a valid date on a minute
    boundary. *)
Lemma snapToMinuteDate_Some (localZone : Zone) (date : Date) (x : Z) :
  snapToMinuteDate localZone date SNAP_MINUTES = Some x ->
  minuteAligned x /\ Z.abs x <= MAX_TIME.
Proof.
  unfold snapToMinuteDate. destruct date as [t|]; [|discriminate].
  destruct (representable localZone t); [|discriminate].
  destruct (representable localZone _); [|discriminate].
  intros H. apply TimeClip_Some in H as [-> Hr].
  split; [apply snapToMinute_aligned | exact Hr].
Qed.

(** What [ensureMinDuration] returns: the start as it is, and an end that
    is the given end or one minute after the start; when both are valid
    dates they are at least a minute apart. *)
Lemma ensureMinDuration_spec (start end_ : Date) :
  let r := ensureMinDuration start end_ MIN_DURATION_MINUTES in
  r.1 = start
  /\ (forall e, r.2 = Some e ->
                end_ = Some e
                \/ exists s, start = Some s /\ e = s + MS_PER_MINUTE)
  /\ (forall s e, start = Some s -> r.2 = Some e -> s + MS_PER_MINUTE <= e)
  /\ (forall s e, start = Some s -> end_ = Some e ->
                  Z.abs s <= MAX_TIME -> s + MS_PER_MINUTE <= MAX_TIME ->
                  is_Some r.2)
  /\ (start = None -> r.2 = end_)
  /\ (end_ = None -> r.2 = None).
Proof.
  cbv zeta. unfold ensureMinDuration.
  change (MIN_DURATION_MINUTES * 60 * 1000) with 60000.
  unfold MS_PER_MINUTE.
  destruct start as [s|], end_ as [e|]; cbn [fst snd];
    try (repeat split; intros; try discriminate; try congruence;
         try (left; assumption); eauto; fail).
  destruct (Z.ltb_spec (e - s) 60000) as [Hlt|Hge]; cbn [fst snd].
  - repeat split; intros; try discriminate.
    + match goal with H : TimeClip _ = Some _ |- _ =>
        apply TimeClip_Some in H as [-> _] end.
      right. exists s. split; reflexivity.
    + match goal with H : TimeClip _ = Some _ |- _ =>
        apply TimeClip_Some in H as [-> _] end.
      match goal with H : Some _ = Some _ |- _ => injection H as <- end. lia.
    + match goal with H : Some s = Some _ |- _ => injection H as <- end.
      unfold TimeClip.
      destruct (Z.leb_spec (Z.abs (s + 60000)) MAX_TIME); [eauto|].
      unfold MAX_TIME in *. lia.
  - repeat split; intros; try discriminate; eauto.
    + match goal with H : Some e = Some _ |- _ => injection H as <- end.
      match goal with H : Some s = Some _ |- _ => injection H as <- end. lia.
Qed.

Lemma clampToWindowDate_Some (x ws we : Z) :
  clampToWindowDate (Some x) (Some ws) (Some we)
  = Some (clampToWindow x ws we).
Proof.
  unfold clampToWindowDate, clampToWindow, ltb, gtb.
  destruct (x <? ws); [reflexivity|]. destruct (x >? we); reflexivity.
Qed.

Lemma clampToWindowDate_None (ws we : Date) :
  clampToWindowDate None ws we = None.
Proof. reflexivity. Qed.

(** The result of [processEventTimes], from the two dates that
    [ensureMinDuration] returns. *)
Lemma processEventTimes_eq (localZone : Zone) (start end_ ws we : Date) :
  let m := ensureMinDuration (snapToMinuteDate localZone start SNAP_MINUTES)
                             (snapToMinuteDate localZone end_ SNAP_MINUTES)
                             MIN_DURATION_MINUTES in
  let s := clampToWindowDate m.1 ws we in
  let e := clampToWindowDate m.2 ws we in
  processEventTimes localZone start end_ ws we
  = {| pt_start := s; pt_end := e; pt_valid := negb (leb e s);
       pt_error := if leb e s then Some "Event end must be after start"
                   else None |}.
Proof.
  cbv zeta. unfold processEventTimes.
  destruct (ensureMinDuration _ _ _) as [m1 m2]. cbn [fst snd].
  destruct (leb _ _); reflexivity.
Qed.




(** [snapToMinute] of lib/time.ts does the same on a [DateTime] of a zone
    of fixed offset. *)
Lemma Time_snapToMinute_fixed_zone (name : string) (off t : Z) :
  ts (Time.snapToMinute (fromJSDate t (FixedOffsetZone name off))
                        Time.SNAP_MINUTES)
  = t - t mod MS_PER_MINUTE.
Proof.
  rewrite <- (snapToMinute_fixed_zone name off t). reflexivity.
Qed.

(** C3, the code on the failing inputs: in a zone of fixed offset, every
    instant exactly 30 seconds past a minute is snapped back to that
    minute, by both [snapToMinute] functions, while the nearest minute
    boundary with a half rounding up is the following minute. *)
Theorem snapToMinute_half_minute_rounds_down (name : string) (off t : Z) :
  t mod MS_PER_MINUTE = 30000 ->
  snapToMinute (FixedOffsetZone name off) t SNAP_MINUTES = t - 30000
  /\ ts (Time.snapToMinute (fromJSDate t (FixedOffsetZone name off))
                           Time.SNAP_MINUTES) = t - 30000
  /\ nearestMinute t = t + 30000.
Proof.
  intros H.
  rewrite Time_snapToMinute_fixed_zone, snapToMinute_fixed_zone, H.
  split; [reflexivity|]. split; [reflexivity|].
  pose proof (snapToMinute_not_nearest name off t ltac:(lia)) as Hn.
  rewrite snapToMinute_fixed_zone, H in Hn.
  unfold MS_PER_MINUTE in *. lia.
Qed.

Lemma snapToMinute_half_minute_rounds_down_witness :
  30000 mod MS_PER_MINUTE = 30000
  /\ snapToMinute utcInstance 30000 SNAP_MINUTES = 0
  /\ nearestMinute 30000 = 60000.
Proof.
  assert (H : 30000 mod MS_PER_MINUTE = 30000) by reflexivity.
  destruct (snapToMinute_half_minute_rounds_down "UTC" 0 30000 H)
    as (A & _ & C).
  split; [exact H|]. split; [exact A | exact C].
Defined.

(** The same in the zone of the demo weddings, half a minute after the
    start of the window. *)
Example snapToMinute_New_York_half_minute :
  snapToMinute America_New_York 1792220430000 SNAP_MINUTES = 1792220400000
  /\ nearestMinute 1792220430000 = 1792220460000.
Proof. split; vm_compute; reflexivity. Qed.

End SnappingFacts.

(** ** The timeline window *)

Section WindowFacts.
Import Luxon Time.

(** The offset of America/New_York is one of its two values. *)
Lemma usEasternOffset_cases (t : Z) :
  usEasternOffset t = -240 \/ usEasternOffset t = -300.
Proof.
  unfold usEasternOffset.
  destruct (civilFromDays (t / MS_PER_DAY)) as [[y m] d].
  destruct (_ && _); [left|right]; reflexivity.
Qed.

(** C9: for the wedding date 2026-10-17 and the zone America/New_York
    (under the rule of the time-zone database), whatever the clock
    reads, the window starts at the instant 2026-10-17T07:00:00Z and ends
    at 2026-10-18T07:00:00Z, which is 03:00 local time on the wedding date
    and on the next day; the two strings returned are the ISO forms of
    these instants as luxon prints them, with milliseconds. *)
Theorem getTimelineWindow_2026_10_17_New_York
        (tzdb : string -> option Zone) (now : Z) :
  tzdb "America/New_York" = Some America_New_York ->
  let w := getTimelineWindow tzdb now "2026-10-17" "America/New_York" in
  windowStartUtc w = Some "2026-10-17T07:00:00.000Z"
  /\ windowEndUtc w = Some "2026-10-18T07:00:00.000Z"
  /\ ts <$> windowStartLocal w = Some (utcInstant 2026 10 17 7 0 0)
  /\ ts <$> windowEndLocal w = Some (utcInstant 2026 10 18 7 0 0)
  /\ toObject <$> windowStartLocal w = Some (mkDateObj 2026 10 17 3 0 0 0)
  /\ toObject <$> windowEndLocal w = Some (mkDateObj 2026 10 18 3 0 0 0).
Proof.
  intros Hzone w. subst w. unfold getTimelineWindow, fromISO.
  rewrite Hzone.
  replace (parseISODate "2026-10-17") with (Some (2026, 10, 17))
    by (vm_compute; reflexivity).
  cbn [offset America_New_York].
  destruct (usEasternOffset_cases now) as [-> | ->];
    vm_compute; repeat split; reflexivity.
Qed.

Lemma getTimelineWindow_2026_10_17_New_York_witness :
  let tzdb := fun n : string =>
                if String.eqb n "America/New_York"
                then Some America_New_York else None in
  let w := getTimelineWindow tzdb 0 "2026-10-17" "America/New_York" in
  tzdb "America/New_York" = Some America_New_York
  /\ windowStartUtc w = Some "2026-10-17T07:00:00.000Z"
  /\ windowEndUtc w = Some "2026-10-18T07:00:00.000Z".
Proof.
  intros tzdb w.
  assert (H : tzdb "America/New_York" = Some America_New_York) by reflexivity.
  destruct (getTimelineWindow_2026_10_17_New_York tzdb 0 H) as (A & B & _).
  repeat split; assumption.
Defined.

End WindowFacts.

(** ** The draft reducer and the route *)

Section RouteFacts.
Import Luxon Types Route.

(** No query of a patch op writes the wedding table. *)
Lemma applyPatchOp_wedding (localTZA : JsDate.LocalTZA)
      (weddingId : string) (op : PatchOp) (ws we : Z) (db : Db) :
  wedding (applyPatchOp localTZA weddingId op ws we db).1 = wedding db.
Proof.
  destruct op; cbn [applyPatchOp];
    unfold timelineEvent_create, timelineEvent_update, timelineEvent_delete,
      timelineLane_create, timelineLane_update, bind,
      timelineEvent_deleteMany, timelineLane_delete, throw;
    repeat match goal with
           | |- context [match ?x with _ => _ end] => destruct x
           end; reflexivity.
Qed.

Lemma applyPatchOps_wedding (localTZA : JsDate.LocalTZA)
      (weddingId : string) (ops : list PatchOp) (ws we : Z) :
  forall db : Db,
    wedding (applyPatchOps localTZA weddingId ops ws we db).1 = wedding db.
Proof.
  induction ops as [|op ops IH]; intros db; [reflexivity|].
  cbn [applyPatchOps]. unfold bind.
  pose proof (applyPatchOp_wedding localTZA weddingId op ws we db) as H.
  destruct (applyPatchOp localTZA weddingId op ws we db) as [db1 [e|[]]];
    cbn [fst] in *.
  - exact H.
  - rewrite IH. exact H.
Qed.

(** The loop stops at the first op that throws: the ops before it have
    run, the ops after it have not. *)
Lemma applyPatchOps_stops (localTZA : JsDate.LocalTZA)
      (weddingId : string) (ws we : Z)
      (pre : list PatchOp) (op : PatchOp) (post : list PatchOp)
      (e : PrismaError) :
  forall db db1 db2 : Db,
    applyPatchOps localTZA weddingId pre ws we db = (db1, inr tt) ->
    applyPatchOp localTZA weddingId op ws we db1 = (db2, inl e) ->
    applyPatchOps localTZA weddingId (pre ++ op :: post) ws we db = (db2, inl e).
Proof.
  induction pre as [|p pre IH]; intros db db1 db2 Hpre Hop.
  - cbn in Hpre. injection Hpre as <-.
    cbn [app applyPatchOps]. unfold bind. rewrite Hop. reflexivity.
  - cbn [app applyPatchOps] in *. unfold bind in *.
    destruct (applyPatchOp localTZA weddingId p ws we db) as [db' [e'|[]]];
      [discriminate|].
    eapply IH; eassumption.
Qed.

(** What a patch op that throws has written: nothing, except that
    [delete_lane] has run its first query. *)
Lemma applyPatchOp_throws (localTZA : JsDate.LocalTZA) (weddingId : string)
      (op : PatchOp) (ws we : Z) (db db' : Db) (e : PrismaError) :
  applyPatchOp localTZA weddingId op ws we db = (db', inl e) ->
  db' = failedOpLeaves op db.
Proof.
  destruct op; cbn [applyPatchOp failedOpLeaves];
    unfold timelineEvent_create, timelineEvent_update, timelineEvent_delete,
      timelineLane_create, timelineLane_update, throw, bind,
      timelineEvent_deleteMany, timelineLane_delete;
    cbn [timelineLane timelineEvent wedding timelineBackgroundBand];
    repeat match goal with
           | |- context [match ?x with _ => _ end] => destruct x
           | |- context [if ?x then _ else _] => destruct x
           end; intros H; inversion H; reflexivity.
Qed.

(** When every event names a lane that exists, the first query of a
    [delete_lane] that throws has deleted nothing. *)
Lemma failedOpLeaves_lanesExist (localTZA : JsDate.LocalTZA)
      (weddingId : string) (op : PatchOp) (ws we : Z) (db db' : Db)
      (e : PrismaError) :
  applyPatchOp localTZA weddingId op ws we db = (db', inl e) ->
  lanesExist db -> failedOpLeaves op db = db.
Proof.
  intros Hop Hinv.
  destruct op as [ev|eid s0 e0|eid l|eid t|eid ow|eid|ln|lid nm ow so|lid];
    try reflexivity.
  cbn [applyPatchOp] in Hop.
  unfold bind, timelineEvent_deleteMany, timelineLane_delete in Hop.
  cbn [timelineLane] in Hop.
  destruct (timelineLane db !! lid) as [lrow|] eqn:Hl; [discriminate|].
  cbn [failedOpLeaves].
  rewrite map_filter_id; [destruct db; reflexivity|].
  intros k row Hrow. cbn. intros Heq.
  destruct (Hinv k row Hrow) as [lrow Hsome]. congruence.
Qed.

(** On a server whose zone has a fixed offset of whole minutes,
    [setSeconds(0, 0)] cuts the instant down to the start of its minute. *)
Lemma setSecondsZero_fixedHost (off t : Z) :
  setSecondsZero (fixedHost off) t = t - t mod MS_PER_MINUTE.
Proof.
  unfold setSecondsZero, JsDate.LocalTime, JsDate.UTC, fixedHost.
  rewrite Z_mod_plus_full. lia.
Qed.

Lemma PUT_ops_throw (tzdb : string -> option Zone) (now : Z)
        (localTZA : JsDate.LocalTZA)
      (weddingId : string) (body : TimelineUpdateRequest)
      (db db' : Db) (w : Wedding) (e : PrismaError) :
  wedding db !! weddingId = Some w ->
  timelineVersion w = req_baseVersion body ->
  applyPatchOps localTZA weddingId (req_patchOps body)
                (putWindow tzdb now w).1 (putWindow tzdb now w).2 db
  = (db', inl e) ->
  PUT tzdb now localTZA weddingId body db
  = (db', Json500 "Failed to update timeline").
Proof.
  intros Hw Hv Hops. unfold PUT, PUT_try, bind, wedding_findUnique.
  rewrite Hw, Hv, Z.eqb_refl. cbn [negb].
  unfold putWindow in Hops. cbn [fst snd] in Hops. rewrite Hops.
  reflexivity.
Qed.

End RouteFacts.

Section RouteClaims.
Import Luxon Types Route.

(** The rows that [findMany] returns are the rows of the wedding. *)
Lemma timelineEvent_findMany_spec (weddingId : string) (db : Db)
      (kv : string * TimelineEventRow) :
  kv ∈ timelineEvent_findMany weddingId db
  <-> timelineEvent db !! kv.1 = Some kv.2 /\ e_weddingId kv.2 = weddingId.
Proof.
  unfold timelineEvent_findMany.
  rewrite merge_sort_Permutation, list_elem_of_filter, elem_of_map_to_list'.
  tauto.
Qed.

Lemma timelineLane_findMany_spec (weddingId : string) (db : Db)
      (kv : string * TimelineLaneRow) :
  kv ∈ timelineLane_findMany weddingId db
  <-> timelineLane db !! kv.1 = Some kv.2 /\ l_weddingId kv.2 = weddingId.
Proof.
  unfold timelineLane_findMany.
  rewrite merge_sort_Permutation, list_elem_of_filter, elem_of_map_to_list'.
  tauto.
Qed.

Lemma timelineBackgroundBand_findMany_spec (weddingId : string) (db : Db)
      (kv : string * TimelineBackgroundBandRow) :
  kv ∈ timelineBackgroundBand_findMany weddingId db
  <-> timelineBackgroundBand db !! kv.1 = Some kv.2
      /\ b_weddingId kv.2 = weddingId.
Proof.
  unfold timelineBackgroundBand_findMany.
  rewrite list_elem_of_filter, elem_of_map_to_list'. tauto.
Qed.

Lemma NoDup_fst_filter {A B : Type} (P : A * B -> Prop)
      `{!forall x, Decision (P x)} (l : list (A * B)) :
  NoDup l.*1 -> NoDup (filter P l).*1.
Proof.
  induction l as [|x l IH]; [intros; constructor|].
  rewrite fmap_cons, NoDup_cons. intros [Hnotin Hnd].
  rewrite filter_cons. destruct (decide (P x)); [|apply IH; exact Hnd].
  rewrite fmap_cons, NoDup_cons. split; [|apply IH; exact Hnd].
  intros Hin. apply Hnotin.
  apply list_elem_of_fmap in Hin as (y & Hy & Hin).
  apply list_elem_of_filter in Hin as [_ Hin].
  apply list_elem_of_fmap. exists y. split; assumption.
Qed.

#[local] Instance eventOrder_total : Total eventOrder.
Proof. intros a b. unfold eventOrder. lia. Qed.

#[local] Instance laneOrder_total : Total laneOrder.
Proof. intros a b. unfold laneOrder. lia. Qed.

(** What [getFullTimeline] returns is the snapshot of the wedding, and it
    writes nothing. *)
Lemma getFullTimeline_isSnapshotOf
      (tzdb : string -> option Zone) (now : Z)
      (weddingId : string) (w : Wedding) (db : Db) :
  exists t : TimelineResponse,
    getFullTimeline tzdb now weddingId w db = (db, inr t)
    /\ isSnapshotOf tzdb now weddingId w db t.
Proof.
  eexists. split; [reflexivity|].
  unfold isSnapshotOf.
  cbn [version venueTimezone weddingDate windowStartUtc windowEndUtc
       events lanes bands].
  repeat apply conj; try reflexivity.
  - intros ev. rewrite list_elem_of_fmap. split.
    + intros ([k row] & -> & Hin).
      apply timelineEvent_findMany_spec in Hin as [H1 H2].
      exists k, row. split; [exact H1|]. split; [exact H2|].
      repeat split.
    + intros (k & row & H1 & H2 & Hshown). exists (k, row).
      split; [|apply timelineEvent_findMany_spec; auto].
      destruct ev. unfold showsEvent in Hshown. cbn in Hshown.
      destruct Hshown as (-> & -> & -> & -> & -> & -> & -> & -> & -> & -> & ->).
      reflexivity.
  - rewrite <- list_fmap_compose.
    change (id ∘ eventView) with (@fst string TimelineEventRow).
    unfold timelineEvent_findMany. rewrite merge_sort_Permutation.
    apply NoDup_fst_filter, NoDup_fst_map_to_list.
  - apply (Sorted_fmap _ eventOrder); [intros x y H; exact H|].
    apply Sorted_merge_sort. apply _.
  - intros ln. rewrite list_elem_of_fmap. split.
    + intros ([k row] & -> & Hin).
      apply timelineLane_findMany_spec in Hin as [H1 H2].
      exists k, row. split; [exact H1|]. split; [exact H2|].
      repeat split.
    + intros (k & row & H1 & H2 & Hshown). exists (k, row).
      split; [|apply timelineLane_findMany_spec; auto].
      destruct ln. unfold showsLane in Hshown. cbn in Hshown.
      destruct Hshown as (-> & -> & -> & -> & -> & ->).
      reflexivity.
  - rewrite <- list_fmap_compose.
    change (lane_id ∘ laneView) with (@fst string TimelineLaneRow).
    unfold timelineLane_findMany. rewrite merge_sort_Permutation.
    apply NoDup_fst_filter, NoDup_fst_map_to_list.
  - apply (Sorted_fmap _ laneOrder); [intros x y H; exact H|].
    apply Sorted_merge_sort. apply _.
  - intros bd. rewrite list_elem_of_fmap. split.
    + intros ([k row] & -> & Hin).
      apply timelineBackgroundBand_findMany_spec in Hin as [H1 H2].
      exists k, row. split; [exact H1|]. split; [exact H2|].
      repeat split.
    + intros (k & row & H1 & H2 & Hshown). exists (k, row).
      split; [|apply timelineBackgroundBand_findMany_spec; auto].
      destruct bd. unfold showsBand in Hshown. cbn in Hshown.
      destruct Hshown as (-> & -> & -> & -> & -> & ->).
      reflexivity.
  - rewrite <- list_fmap_compose.
    change (band_id ∘ bandView) with (@fst string TimelineBackgroundBandRow).
    unfold timelineBackgroundBand_findMany.
    apply NoDup_fst_filter, NoDup_fst_map_to_list.
Qed.

(** C1, counterexample: the base version matches, the second op names an
    unknown event and fails; the request is answered with status 500 and
    the version stays 3, but the title written by the first op is in the
    canonical events. *)
Lemma publish_failure_keeps_earlier_writes :
  let db := exampleDb false in
  let body := {| req_baseVersion := 3;
                 req_patchOps := [update_event_title "e1" "Changed";
                                  delete_event "missing"] |} in
  let r := PUT exampleTzdb 0 utcHost "w1" body db in
  httpStatus r.2 = 500
  /\ timelineVersion <$> wedding r.1 !! "w1" = Some 3
  /\ e_title <$> timelineEvent db !! "e1" = Some "Vows"
  /\ e_title <$> timelineEvent r.1 !! "e1" = Some "Changed"
  /\ timelineEvent r.1 <> timelineEvent db.
Proof.
  cbv zeta.
  assert (E : e_title <$> timelineEvent
                (PUT exampleTzdb 0 utcHost "w1"
                   {| req_baseVersion := 3;
                      req_patchOps := [update_event_title "e1" "Changed";
                                       delete_event "missing"] |}
                   (exampleDb false)).1 !! "e1" = Some "Changed")
    by (vm_compute; reflexivity).
  repeat split; try (vm_compute; reflexivity); try exact E.
  intros Heq. rewrite Heq in E. vm_compute in E. discriminate E.
Qed.

(** C1, amended: when the base version matches and an op of the sequence
    fails, the request is answered with an error (status 500), the wedding
    table, so the timeline version, is as before, no op after the failing
    one is applied and the failing op writes nothing (a failing
    [delete_lane] has run its first query, which deletes the events that
    name the lane: none when every event names a lane that exists); the
    ops before the failing one stay applied: the database after the
    request is the one that those ops produced.  So it is the database of
    before the request when the failing op is the first one. *)
Theorem publish_failure_outcome
        (tzdb : string -> option Zone) (now : Z)
        (localTZA : JsDate.LocalTZA)
        (weddingId : string) (body : TimelineUpdateRequest) (w : Wedding)
        (pre : list PatchOp) (op : PatchOp) (post : list PatchOp)
        (db db1 db2 : Db) (e : PrismaError) :
  wedding db !! weddingId = Some w ->
  timelineVersion w = req_baseVersion body ->
  req_patchOps body = pre ++ op :: post ->
  applyPatchOps localTZA weddingId pre
                (putWindow tzdb now w).1 (putWindow tzdb now w).2
                db = (db1, inr tt) ->
  applyPatchOp localTZA weddingId op
               (putWindow tzdb now w).1 (putWindow tzdb now w).2
               db1 = (db2, inl e) ->
  PUT tzdb now localTZA weddingId body db
  = (db2, Json500 "Failed to update timeline")
  /\ wedding db2 = wedding db
  /\ db2 = failedOpLeaves op db1
  /\ (lanesExist db1 -> db2 = db1)
  /\ (pre = [] -> db1 = db).
Proof.
  intros Hw Hv Hops Hpre Hop.
  pose proof (applyPatchOps_stops _ _ _ _ _ _ post _ _ _ _ Hpre Hop) as Hrun.
  rewrite <- Hops in Hrun.
  pose proof (applyPatchOp_throws _ _ _ _ _ _ _ _ Hop) as Hleft.
  split; [eapply PUT_ops_throw; eassumption|].
  split; [|split; [|split]].
  - pose proof (applyPatchOps_wedding localTZA weddingId (req_patchOps body)
                  (putWindow tzdb now w).1 (putWindow tzdb now w).2 db) as H.
    rewrite Hrun in H. exact H.
  - exact Hleft.
  - intros Hinv. rewrite Hleft.
    eapply failedOpLeaves_lanesExist; eassumption.
  - intros ->. cbn in Hpre. injection Hpre as ->. reflexivity.
Qed.

Lemma publish_failure_outcome_witness :
  let db := exampleDb false in
  let w := mkWedding "2026-10-17" "America/New_York" 3 in
  let body := {| req_baseVersion := 3;
                 req_patchOps := [update_event_title "e1" "Changed";
                                  delete_event "missing";
                                  delete_event "e1"] |} in
  exists db1 : Db,
    (wedding db !! "w1" = Some w
     /\ applyPatchOps utcHost "w1" [update_event_title "e1" "Changed"]
                      (putWindow exampleTzdb 0 w).1
                      (putWindow exampleTzdb 0 w).2 db = (db1, inr tt)
     /\ applyPatchOp utcHost "w1" (delete_event "missing")
                     (putWindow exampleTzdb 0 w).1
                     (putWindow exampleTzdb 0 w).2 db1 = (db1, inl P2025))
    /\ PUT exampleTzdb 0 utcHost "w1" body db
       = (db1, Json500 "Failed to update timeline").
Proof.
  intros db w body.
  set (db1 := (applyPatchOps utcHost "w1" [update_event_title "e1" "Changed"]
                 (putWindow exampleTzdb 0 w).1
                 (putWindow exampleTzdb 0 w).2 db).1).
  exists db1.
  assert (H1 : wedding db !! "w1" = Some w) by (vm_compute; reflexivity).
  assert (H2 : timelineVersion w = req_baseVersion body) by reflexivity.
  assert (H3 : req_patchOps body
               = [update_event_title "e1" "Changed"]
                   ++ delete_event "missing" :: [delete_event "e1"])
    by reflexivity.
  assert (H4 : applyPatchOps utcHost "w1" [update_event_title "e1" "Changed"]
                 (putWindow exampleTzdb 0 w).1
                 (putWindow exampleTzdb 0 w).2 db = (db1, inr tt))
    by (vm_compute; reflexivity).
  assert (H5 : applyPatchOp utcHost "w1" (delete_event "missing")
                 (putWindow exampleTzdb 0 w).1
                 (putWindow exampleTzdb 0 w).2 db1 = (db1, inl P2025))
    by (vm_compute; reflexivity).
  split; [repeat split; assumption|].
  exact (proj1 (publish_failure_outcome exampleTzdb 0 utcHost "w1" body w _ _ _
                  db db1 db1 P2025 H1 H2 H3 H4 H5)).
Defined.

(** C2: when the base version of the request differs from the timeline
    version of the wedding, [PUT] answers with status 409, the current
    version and the current snapshot: the version, zone, date and window
    of the wedding and, for every lane, event and band row of the wedding
    in the database, exactly one item with the columns of the row as its
    fields, lanes by sort order and events by start; and the database is
    unchanged. *)
Theorem stale_publish_is_rejected_with_snapshot
        (tzdb : string -> option Zone) (now : Z)
        (localTZA : JsDate.LocalTZA)
        (weddingId : string) (body : TimelineUpdateRequest)
        (db : Db) (w : Wedding) :
  wedding db !! weddingId = Some w ->
  req_baseVersion body <> timelineVersion w ->
  exists snapshot : TimelineResponse,
    PUT tzdb now localTZA weddingId body db
    = (db, Json409 "Version conflict" (timelineVersion w) snapshot)
    /\ httpStatus (PUT tzdb now localTZA weddingId body db).2 = 409
    /\ isSnapshotOf tzdb now weddingId w db snapshot.
Proof.
  intros Hw Hv.
  assert (Hneq : (timelineVersion w =? req_baseVersion body) = false)
    by (apply Z.eqb_neq; congruence).
  destruct (getFullTimeline_isSnapshotOf tzdb now weddingId w db)
    as (snapshot & Hget & Hsnap).
  assert (Hput : PUT tzdb now localTZA weddingId body db
                 = (db, Json409 "Version conflict" (timelineVersion w)
                          snapshot)).
  { unfold PUT, PUT_try, bind, wedding_findUnique, pure.
    rewrite Hw, Hneq. cbn [negb]. rewrite Hget. reflexivity. }
  exists snapshot. split; [exact Hput|]. rewrite Hput.
  split; [reflexivity | exact Hsnap].
Qed.

Lemma stale_publish_is_rejected_with_snapshot_witness :
  let db := exampleDb false in
  let w := mkWedding "2026-10-17" "America/New_York" 3 in
  let body := {| req_baseVersion := 2;
                 req_patchOps := [delete_event "e1"] |} in
  (wedding db !! "w1" = Some w /\ req_baseVersion body <> 3)
  /\ exists snapshot : TimelineResponse,
       PUT exampleTzdb 0 utcHost "w1" body db
       = (db, Json409 "Version conflict" 3 snapshot)
       /\ isSnapshotOf exampleTzdb 0 "w1" w db snapshot
       /\ title <$> events snapshot = ["Vows"]
       /\ windowStartUtc snapshot = Some "2026-10-17T07:00:00.000Z"
       /\ windowEndUtc snapshot = Some "2026-10-18T07:00:00.000Z".
Proof.
  intros db w body.
  assert (H1 : wedding db !! "w1" = Some w) by (vm_compute; reflexivity).
  assert (H2 : req_baseVersion body <> timelineVersion w) by (cbn; lia).
  destruct (stale_publish_is_rejected_with_snapshot
              exampleTzdb 0 utcHost "w1" body db w H1 H2)
    as (snapshot & Hput & _ & Hsnap).
  split; [split; [exact H1 | exact H2]|].
  exists snapshot. split; [exact Hput|]. split; [exact Hsnap|].
  assert (E : match (PUT exampleTzdb 0 utcHost "w1" body db).2 with
              | Json409 _ _ t =>
                  title <$> events t = ["Vows"]
                  /\ windowStartUtc t = Some "2026-10-17T07:00:00.000Z"
                  /\ windowEndUtc t = Some "2026-10-18T07:00:00.000Z"
              | _ => False
              end) by (vm_compute; repeat split; reflexivity).
  rewrite Hput in E. exact E.
Defined.

End RouteClaims.

Section LockedAndDelete.
Import Luxon Types Route.

(** When every op succeeds, the version is incremented by exactly one and
    the answer is the fresh snapshot, status 200. *)
Lemma PUT_ops_succeed (tzdb : string -> option Zone) (now : Z)
        (localTZA : JsDate.LocalTZA)
      (weddingId : string) (body : TimelineUpdateRequest)
      (db db1 : Db) (w : Wedding) :
  wedding db !! weddingId = Some w ->
  timelineVersion w = req_baseVersion body ->
  applyPatchOps localTZA weddingId (req_patchOps body)
                (putWindow tzdb now w).1 (putWindow tzdb now w).2 db
  = (db1, inr tt) ->
  exists snapshot : TimelineResponse,
    PUT tzdb now localTZA weddingId body db
    = (bumpVersion weddingId w db1, Json200 snapshot)
    /\ version snapshot = timelineVersion w + 1.
Proof.
  intros Hw Hv Hops.
  pose proof (applyPatchOps_wedding localTZA weddingId (req_patchOps body)
                (putWindow tzdb now w).1 (putWindow tzdb now w).2 db) as Hwed.
  rewrite Hops in Hwed. cbn [fst] in Hwed.
  assert (Heq : (timelineVersion w =? req_baseVersion body) = true)
    by (apply Z.eqb_eq; exact Hv).
  unfold PUT, PUT_try, bind, wedding_findUnique, pure.
  rewrite Hw, Heq. cbn [negb].
  unfold putWindow in Hops. cbn [fst snd] in Hops. rewrite Hops.
  unfold wedding_incrementVersion. rewrite Hwed, Hw.
  cbn [wedding]. rewrite lookup_insert_eq.
  cbn [getFullTimeline]. unfold bumpVersion. rewrite Hwed.
  eexists. split; reflexivity.
Qed.

Lemma timelineEvent_update_found (eventId : string)
      (f : TimelineEventRow -> TimelineEventRow) (db : Db)
      (row : TimelineEventRow) :
  timelineEvent db !! eventId = Some row ->
  e_laneId (f row) = e_laneId row
  \/ is_Some (timelineLane db !! e_laneId (f row)) ->
  timelineEvent_update eventId f db = (withEvent eventId (f row) db, inr tt).
Proof.
  intros Hrow Hlane. unfold timelineEvent_update. rewrite Hrow.
  destruct Hlane as [-> | Hsome].
  - rewrite String.eqb_refl. reflexivity.
  - rewrite (bool_decide_eq_true_2 _ Hsome), andb_false_r. reflexivity.
Qed.

(** C5, counterexample: the event "e1" is locked; a publish that renames
    it is answered with status 200 and the event is renamed. *)
Lemma locked_event_is_renamed :
  let db := exampleDb true in
  let body := {| req_baseVersion := 3;
                 req_patchOps := [update_event_title "e1" "Renamed"] |} in
  let r := PUT exampleTzdb 0 utcHost "w1" body db in
  e_locked <$> timelineEvent db !! "e1" = Some true
  /\ httpStatus r.2 = 200
  /\ e_title <$> timelineEvent db !! "e1" = Some "Vows"
  /\ e_title <$> timelineEvent r.1 !! "e1" = Some "Renamed".
Proof. cbv zeta. repeat split; vm_compute; reflexivity. Qed.

(** C5, amended: the route does not look at the locked flag.  For every
    stored event whose locked flag is true, a publish (at the current
    version) of one op that edits it is applied and answered with status
    200: the title, the owner name, the lane (when the lane exists) and
    the times (clamped to the window, after [setSeconds(0, 0)] in the
    time of the server) are written and the locked flag stays true;
    [delete_event] removes the event. *)
Theorem locked_flag_is_not_consulted
        (tzdb : string -> option Zone) (now : Z)
        (localTZA : JsDate.LocalTZA) (weddingId : string)
        (w : Wedding) (db : Db) (eventId : string) (row : TimelineEventRow) :
  wedding db !! weddingId = Some w ->
  timelineEvent db !! eventId = Some row ->
  e_locked row = true ->
  let publish := fun op : PatchOp =>
    PUT tzdb now localTZA weddingId
        {| req_baseVersion := timelineVersion w; req_patchOps := [op] |} db in
  let stored := fun op : PatchOp => timelineEvent (publish op).1 !! eventId in
  let ws := (putWindow tzdb now w).1 in
  let we := (putWindow tzdb now w).2 in
  (forall t : string,
      httpStatus (publish (update_event_title eventId t)).2 = 200
      /\ stored (update_event_title eventId t)
         = Some (mkEventRow (e_weddingId row) (e_laneId row) t
                   (e_startUtc row) (e_endUtc row) (e_category row)
                   (e_assignedOwnerType row) (e_assignedOwnerId row)
                   (e_assignedOwnerName row) (e_status row) true (e_notes row)))
  /\ (forall n : string,
         httpStatus (publish (update_event_owner eventId (OwnerName n))).2 = 200
         /\ stored (update_event_owner eventId (OwnerName n))
            = Some (mkEventRow (e_weddingId row) (e_laneId row) (e_title row)
                      (e_startUtc row) (e_endUtc row) (e_category row)
                      (e_assignedOwnerType row) (e_assignedOwnerId row)
                      n (e_status row) true (e_notes row)))
  /\ (forall l : string,
         is_Some (timelineLane db !! l) ->
         httpStatus (publish (update_event_lane eventId l)).2 = 200
         /\ stored (update_event_lane eventId l)
            = Some (mkEventRow (e_weddingId row) l (e_title row)
                      (e_startUtc row) (e_endUtc row) (e_category row)
                      (e_assignedOwnerType row) (e_assignedOwnerId row)
                      (e_assignedOwnerName row) (e_status row) true
                      (e_notes row)))
  /\ (forall s e : Z,
         httpStatus (publish (update_event_time eventId s e)).2 = 200
         /\ stored (update_event_time eventId s e)
            = Some (mkEventRow (e_weddingId row) (e_laneId row) (e_title row)
                      (setSecondsZero localTZA (if s <? ws then ws else s))
                      (setSecondsZero localTZA (if e >? we then we else e))
                      (e_category row)
                      (e_assignedOwnerType row) (e_assignedOwnerId row)
                      (e_assignedOwnerName row) (e_status row) true
                      (e_notes row)))
  /\ (httpStatus (publish (delete_event eventId)).2 = 200
      /\ stored (delete_event eventId) = None).
Proof.
  intros Hw Hrow Hlocked publish stored ws we.
  assert (Hput : forall (op : PatchOp) (db1 : Db),
             applyPatchOp localTZA weddingId op ws we db = (db1, inr tt) ->
             httpStatus (publish op).2 = 200
             /\ stored op = timelineEvent db1 !! eventId).
  { intros op db1 Hop. subst publish stored. cbv beta.
    destruct (PUT_ops_succeed tzdb now localTZA weddingId
                {| req_baseVersion := timelineVersion w;
                   req_patchOps := [op] |} db db1 w Hw eq_refl)
      as (snapshot & -> & _).
    - cbn [req_patchOps applyPatchOps]. unfold bind. fold ws we.
      rewrite Hop. reflexivity.
    - split; reflexivity. }
  assert (Hupd : forall (op : PatchOp) (f : TimelineEventRow -> TimelineEventRow),
             applyPatchOp localTZA weddingId op ws we
             = timelineEvent_update eventId f ->
             e_laneId (f row) = e_laneId row
             \/ is_Some (timelineLane db !! e_laneId (f row)) ->
             httpStatus (publish op).2 = 200 /\ stored op = Some (f row)).
  { intros op f Hop Hlane.
    destruct (Hput op (withEvent eventId (f row) db)) as [H1 H2].
    - rewrite Hop. apply timelineEvent_update_found; assumption.
    - split; [exact H1|]. rewrite H2. cbn [withEvent timelineEvent].
      apply lookup_insert_eq. }
  repeat apply conj.
  - intros t. rewrite <- Hlocked.
    apply (Hupd (update_event_title eventId t) _ eq_refl). left; reflexivity.
  - intros n. rewrite <- Hlocked.
    apply (Hupd (update_event_owner eventId (OwnerName n)) _ eq_refl).
    left; reflexivity.
  - intros l Hl. rewrite <- Hlocked.
    apply (Hupd (update_event_lane eventId l) _ eq_refl). right; exact Hl.
  - intros s e. rewrite <- Hlocked.
    apply (Hupd (update_event_time eventId s e) _ eq_refl). left; reflexivity.
  - destruct (Hput (delete_event eventId)
                (mkDb (wedding db) (timelineLane db)
                      (delete eventId (timelineEvent db))
                      (timelineBackgroundBand db))) as [H1 H2].
    + cbn [applyPatchOp]. unfold timelineEvent_delete. rewrite Hrow.
      reflexivity.
    + rewrite H1. reflexivity.
  - destruct (Hput (delete_event eventId)
                (mkDb (wedding db) (timelineLane db)
                      (delete eventId (timelineEvent db))
                      (timelineBackgroundBand db))) as [H1 H2].
    + cbn [applyPatchOp]. unfold timelineEvent_delete. rewrite Hrow.
      reflexivity.
    + rewrite H2. cbn [timelineEvent]. apply lookup_delete_eq.
Qed.

Lemma locked_flag_is_not_consulted_witness :
  let db := exampleDb true in
  let w := mkWedding "2026-10-17" "America/New_York" 3 in
  (wedding db !! "w1" = Some w
   /\ timelineEvent db !! "e1" = Some (exampleEvent "Vows" true)
   /\ e_locked (exampleEvent "Vows" true) = true)
  /\ httpStatus (PUT exampleTzdb 0 utcHost "w1"
                     {| req_baseVersion := 3;
                        req_patchOps := [delete_event "e1"] |} db).2 = 200.
Proof.
  intros db w.
  assert (H1 : wedding db !! "w1" = Some w) by (vm_compute; reflexivity).
  assert (H2 : timelineEvent db !! "e1" = Some (exampleEvent "Vows" true))
    by (vm_compute; reflexivity).
  assert (H3 : e_locked (exampleEvent "Vows" true) = true) by reflexivity.
  split; [repeat split; assumption|].
  exact (proj1 (proj2 (proj2 (proj2 (proj2
    (locked_flag_is_not_consulted exampleTzdb 0 utcHost "w1" w db "e1" _
       H1 H2 H3)))))).
Defined.

(** C6, counterexample: a publish of two ops, a retitle and the delete
    of an id that is not in the event table.  The answer is the status 500
    with the message that every failure gets (the publish of an event
    whose id is taken, a unique constraint failure, gets the very same
    answer), so the answer does not report a not-found; and the publish
    has not failed as a whole: the title written by the first op is in
    the canonical events. *)
Lemma delete_missing_event_is_a_generic_partial_failure :
  let db := exampleDb false in
  let publish := fun ops =>
    PUT exampleTzdb 0 utcHost "w1"
        {| req_baseVersion := 3; req_patchOps := ops |} db in
  let deleteMissing := publish [update_event_title "e1" "Changed";
                                delete_event "missing"] in
  let createTaken :=
    publish [create_event (mkEvent "e1" "w1" "Again" 1792245600000
                                   1792249200000 "lane1"
                                   None None None None None)] in
  timelineEvent db !! "missing" = None
  /\ deleteMissing.2 = Json500 "Failed to update timeline"
  /\ (applyPatchOps utcHost "w1"
        [create_event (mkEvent "e1" "w1" "Again" 1792245600000
                               1792249200000 "lane1"
                               None None None None None)]
        (putWindow exampleTzdb 0 (mkWedding "2026-10-17" "America/New_York" 3)).1
        (putWindow exampleTzdb 0 (mkWedding "2026-10-17" "America/New_York" 3)).2
        db).2 = inl P2002
  /\ createTaken.2 = deleteMissing.2
  /\ e_title <$> timelineEvent db !! "e1" = Some "Vows"
  /\ e_title <$> timelineEvent deleteMissing.1 !! "e1" = Some "Changed".
Proof. cbv zeta. repeat split; vm_compute; reflexivity. Qed.

(** C6, amended: deleting an event id that is not in the list is a no-op
    of the draft reducer (the list comes back unchanged; the function is
    total, it raises nothing), while the route's delete of an id that is
    not in the event table throws Prisma's record-not-found error (P2025)
    inside [applyPatchOp]; [PUT] answers it like every failure of an op,
    with status 500 and the message "Failed to update timeline"; the
    delete and the ops after it write nothing and the version is not
    incremented, but the ops before it stay applied: the database after
    the request is the one that those ops produced. *)
Theorem delete_missing_event_draft_vs_route
        (tzdb : string -> option Zone) (now : Z)
        (localTZA : JsDate.LocalTZA) (weddingId : string)
        (w : Wedding) (db db1 : Db) (body : TimelineUpdateRequest)
        (pre rest : list PatchOp)
        (draftEvents : list TimelineEventItem) (eventId : string) :
  (forall ev, ev ∈ draftEvents -> id ev <> eventId) ->
  wedding db !! weddingId = Some w ->
  timelineVersion w = req_baseVersion body ->
  req_patchOps body = pre ++ delete_event eventId :: rest ->
  applyPatchOps localTZA weddingId pre
                (putWindow tzdb now w).1 (putWindow tzdb now w).2
                db = (db1, inr tt) ->
  timelineEvent db1 !! eventId = None ->
  Draft.applyDraftToEvents draftEvents [delete_event eventId] = draftEvents
  /\ applyPatchOp localTZA weddingId (delete_event eventId)
                  (putWindow tzdb now w).1 (putWindow tzdb now w).2 db1
     = (db1, inl P2025)
  /\ PUT tzdb now localTZA weddingId body db
     = (db1, Json500 "Failed to update timeline")
  /\ wedding db1 !! weddingId = Some w
  /\ (forall (body' : TimelineUpdateRequest) (db' db2 : Db) (e : PrismaError),
         timelineVersion w = req_baseVersion body' ->
         wedding db' !! weddingId = Some w ->
         applyPatchOps localTZA weddingId (req_patchOps body')
                       (putWindow tzdb now w).1 (putWindow tzdb now w).2 db'
         = (db2, inl e) ->
         (PUT tzdb now localTZA weddingId body' db').2
         = (PUT tzdb now localTZA weddingId body db).2).
Proof.
  intros Habsent Hw Hv Hops Hpre Hnone.
  assert (Hdel : applyPatchOp localTZA weddingId (delete_event eventId)
                   (putWindow tzdb now w).1 (putWindow tzdb now w).2 db1
                 = (db1, inl P2025)).
  { cbn [applyPatchOp]. unfold timelineEvent_delete. rewrite Hnone.
    reflexivity. }
  assert (Hput : PUT tzdb now localTZA weddingId body db
                 = (db1, Json500 "Failed to update timeline")).
  { eapply PUT_ops_throw; [exact Hw | exact Hv |].
    rewrite Hops. eapply applyPatchOps_stops; eassumption. }
  split; [|split; [|split; [|split]]].
  - cbn [Draft.applyDraftToEvents fold_left Draft.applyEventOp].
    induction draftEvents as [|ev evs IH]; [reflexivity|].
    cbn [List.filter].
    destruct (String.eqb_spec (id ev) eventId) as [Heq|Hneq]; cbn [negb].
    + exfalso. apply (Habsent ev); [left|exact Heq].
    + f_equal. apply IH. intros ev' Hin. apply Habsent. right. exact Hin.
  - exact Hdel.
  - exact Hput.
  - pose proof (applyPatchOps_wedding localTZA weddingId pre
                  (putWindow tzdb now w).1 (putWindow tzdb now w).2 db) as H.
    rewrite Hpre in H. cbn [fst] in H. rewrite H. exact Hw.
  - intros body' db' db2 e Hv' Hw' Hops'.
    rewrite Hput,
      (PUT_ops_throw tzdb now localTZA weddingId body' db' db2 w e Hw' Hv' Hops').
    reflexivity.
Qed.

Lemma delete_missing_event_draft_vs_route_witness :
  let db := exampleDb false in
  let w := mkWedding "2026-10-17" "America/New_York" 3 in
  let body := {| req_baseVersion := 3;
                 req_patchOps := [update_event_title "e1" "Changed";
                                  delete_event "gone";
                                  update_event_title "e1" "Again"] |} in
  let draftEvents := [eventView ("e1", exampleEvent "Vows" false)] in
  let db1 := withEvent "e1" (exampleEvent "Changed" false) db in
  ((forall ev, ev ∈ draftEvents -> id ev <> "gone")
   /\ wedding db !! "w1" = Some w
   /\ applyPatchOps utcHost "w1" [update_event_title "e1" "Changed"]
                    (putWindow exampleTzdb 0 w).1
                    (putWindow exampleTzdb 0 w).2 db = (db1, inr tt)
   /\ timelineEvent db1 !! "gone" = None)
  /\ Draft.applyDraftToEvents draftEvents [delete_event "gone"] = draftEvents
  /\ PUT exampleTzdb 0 utcHost "w1" body db
     = (db1, Json500 "Failed to update timeline").
Proof.
  intros db w body draftEvents db1.
  assert (H1 : forall ev, ev ∈ draftEvents -> id ev <> "gone").
  { intros ev Hin. apply list_elem_of_singleton in Hin. subst ev.
    cbn. discriminate. }
  assert (H2 : wedding db !! "w1" = Some w) by (vm_compute; reflexivity).
  assert (H3 : applyPatchOps utcHost "w1" [update_event_title "e1" "Changed"]
                 (putWindow exampleTzdb 0 w).1
                 (putWindow exampleTzdb 0 w).2 db = (db1, inr tt))
    by (vm_compute; reflexivity).
  assert (H4 : timelineEvent db1 !! "gone" = None) by (vm_compute; reflexivity).
  destruct (delete_missing_event_draft_vs_route exampleTzdb 0 utcHost "w1" w
              db db1 body
              [update_event_title "e1" "Changed"]
              [update_event_title "e1" "Again"] draftEvents "gone"
              H1 H2 eq_refl eq_refl H3 H4) as (A & _ & C & _).
  split; [repeat split; assumption|]. split; assumption.
Defined.

End LockedAndDelete.

(** ** The session controller *)

Section SessionClaims.
Import Types Draft History UseTimeline.

(** C10: when the draft is not dirty or its list of patch ops is empty,
    [publish] returns true at once: no request is sent, whatever the
    network would answer, and the state of the session (timeline, draft,
    history and the rest) is the one before. *)
Theorem publish_clean_draft_is_noop
        (fetch : Request -> FetchResult) (weddingId : string) (s : Session) :
  isDirty (draft s) = false \/ patchOps (draft s) = [] ->
  publish fetch weddingId s = (true, s, []).
Proof.
  intros [Hclean | Hempty]; unfold publish.
  - rewrite Hclean. reflexivity.
  - rewrite Hempty. cbn. rewrite orb_true_r. reflexivity.
Qed.

Lemma publish_clean_draft_is_noop_witness :
  let s := {| timeline := None; isLoading := false; error := None;
              draft := createDraftState 3;
              history := createHistory 50;
              selectedEventId := None |} in
  (isDirty (draft s) = false \/ patchOps (draft s) = [])
  /\ publish (fun _ => Threw None) "w1" s = (true, s, []).
Proof.
  intros s.
  assert (H : isDirty (draft s) = false \/ patchOps (draft s) = [])
    by (left; reflexivity).
  split; [exact H|].
  exact (publish_clean_draft_is_noop (fun _ => Threw None) "w1" s H).
Defined.

End SessionClaims.

(** ** More on snapping, clamping and validation *)

Section MoreSnapping.
Import Luxon JsDate Snapping TimeChecks.

(** The dates that [ensureMinDuration] returns after snapping are on
    minute boundaries. *)
Lemma ensureMinDuration_snapped_aligned (localZone : Zone) (start end_ : Date) :
  let m := ensureMinDuration (snapToMinuteDate localZone start SNAP_MINUTES)
                             (snapToMinuteDate localZone end_ SNAP_MINUTES)
                             MIN_DURATION_MINUTES in
  (forall s, m.1 = Some s -> minuteAligned s)
  /\ (forall e, m.2 = Some e -> minuteAligned e)
  /\ (forall s e, m.1 = Some s -> m.2 = Some e -> s + MS_PER_MINUTE <= e).
Proof.
  cbv zeta.
  pose proof (snapToMinuteDate_Some localZone start) as Hs.
  pose proof (snapToMinuteDate_Some localZone end_) as He.
  destruct (ensureMinDuration_spec
              (snapToMinuteDate localZone start SNAP_MINUTES)
              (snapToMinuteDate localZone end_ SNAP_MINUTES))
    as (M1 & M2 & M3 & _).
  destruct (ensureMinDuration _ _ _) as [m1 m2]. cbn [fst snd] in *.
  subst m1. split; [|split].
  - intros s Es. apply (Hs s Es).
  - intros e Ee. destruct (M2 e Ee) as [Heq | (s' & Es & ->)].
    + apply (He e Heq).
    + replace MS_PER_MINUTE with (1 * MS_PER_MINUTE) by reflexivity.
      apply minuteAligned_add_minutes. apply (Hs s' Es).
  - intros s e Es Ee. apply (M3 s e Es Ee).
Qed.


(** X1: for a window with [windowStart <= windowEnd], [clampToWindow]
    returns an instant of the window, returns the instants of the window
    (and only them) unchanged, and clamping twice is clamping once. *)
Theorem clampToWindow_window (date windowStart windowEnd : Z) :
  windowStart <= windowEnd ->
  windowStart <= clampToWindow date windowStart windowEnd <= windowEnd
  /\ (clampToWindow date windowStart windowEnd = date
      <-> windowStart <= date <= windowEnd)
  /\ clampToWindow (clampToWindow date windowStart windowEnd)
                   windowStart windowEnd
     = clampToWindow date windowStart windowEnd.
Proof.
  intros Hw. unfold clampToWindow.
  repeat match goal with
         | |- context [?a <? ?b] => destruct (Z.ltb_spec a b)
         | |- context [?a >? ?b] => destruct (Z.gtb_spec a b)
         end; repeat split; try lia.
Qed.

Lemma clampToWindow_window_witness :
  1792220400000 <= 1792306800000
  /\ clampToWindow 1792219500000 1792220400000 1792306800000 = 1792220400000.
Proof.
  assert (H : 1792220400000 <= 1792306800000) by lia.
  split; [exact H|].
  destruct (clampToWindow_window 1792219500000 _ _ H) as (_ & _ & Hidem).
  rewrite <- Hidem. reflexivity.
Defined.

(** X2: for a window with [windowStart < windowEnd], in any local zone,
    when the snapped start [s] and the snapped end are valid dates and [s]
    is at least a minute before the largest date: with [e] the snapped end
    pushed to at least one minute after [s], [processEventTimes] returns
    the clamped [s] and [e], and reports the result valid exactly when [s]
    is before the end of the window and [e] is after its start; an event
    that lies outside the window is the only one rejected. *)
Theorem processEventTimes_valid_iff
        (localZone : Zone) (start end_ : Date)
        (s e0 windowStart windowEnd : Z) :
  windowStart < windowEnd ->
  snapToMinuteDate localZone start SNAP_MINUTES = Some s ->
  snapToMinuteDate localZone end_ SNAP_MINUTES = Some e0 ->
  s + 60000 <= MAX_TIME ->
  let e := Z.max e0 (s + 60000) in
  let r := processEventTimes localZone start end_
                             (Some windowStart) (Some windowEnd) in
  pt_start r = Some (clampToWindow s windowStart windowEnd)
  /\ pt_end r = Some (clampToWindow e windowStart windowEnd)
  /\ (pt_valid r = true <-> s < windowEnd /\ windowStart < e)
  /\ (pt_valid r = false <-> pt_error r <> None).
Proof.
  intros Hw Es Ee Hmax e r. subst r. rewrite processEventTimes_eq.
  rewrite Es, Ee. cbn [pt_start pt_end pt_valid pt_error].
  destruct (snapToMinuteDate_Some localZone start s Es) as [_ Hrange].
  unfold ensureMinDuration. cbv beta iota zeta.
  change (MIN_DURATION_MINUTES * 60 * 1000) with 60000.
  assert (He : (if e0 - s <? 60000
                then (Some s : Date, TimeClip (s + 60000))
                else (Some s : Date, Some e0 : Date))
               = (Some s : Date, Some e : Date)).
  { subst e. destruct (Z.ltb_spec (e0 - s) 60000).
    - f_equal. replace (Z.max e0 (s + 60000)) with (s + 60000) by lia.
      apply TimeClip_Some. split; [reflexivity|]. unfold MAX_TIME in *. lia.
    - do 2 f_equal. lia. }
  assert (Hse : s + 60000 <= e) by (subst e; lia).
  rewrite He. cbn [fst snd]. rewrite !clampToWindowDate_Some. cbn [leb].
  clearbody e. unfold clampToWindow.
  repeat match goal with
         | |- context [?a <? ?b] => destruct (Z.ltb_spec a b)
         | |- context [?a >? ?b] => destruct (Z.gtb_spec a b)
         end;
    match goal with
    | |- context [?a <=? ?b] => destruct (Z.leb_spec a b)
    end; cbn [negb];
    repeat split; intros; try lia; try congruence; try discriminate.
Qed.

Lemma processEventTimes_valid_iff_witness :
  let ws := 1792220400000 in
  let we := 1792306800000 in
  let start := TimeClip (we + 1) in
  let end_ := TimeClip (we + 7200000) in
  (ws < we
   /\ snapToMinuteDate America_New_York start SNAP_MINUTES = Some we
   /\ snapToMinuteDate America_New_York end_ SNAP_MINUTES
      = Some (we + 7200000)
   /\ we + 60000 <= MAX_TIME)
  /\ pt_valid (processEventTimes America_New_York start end_
                                 (Some ws) (Some we)) = false.
Proof.
  intros ws we start end_.
  assert (H1 : ws < we) by (subst ws we; lia).
  assert (H2 : snapToMinuteDate America_New_York start SNAP_MINUTES = Some we)
    by (vm_compute; reflexivity).
  assert (H3 : snapToMinuteDate America_New_York end_ SNAP_MINUTES
               = Some (we + 7200000)) by (vm_compute; reflexivity).
  assert (H4 : we + 60000 <= MAX_TIME) by (vm_compute; discriminate).
  split; [repeat split; assumption|].
  destruct (processEventTimes_valid_iff America_New_York start end_
              we (we + 7200000) ws we H1 H2 H3 H4) as (_ & _ & Hv & _).
  destruct (pt_valid _) eqn:E; [|reflexivity].
  destruct (proj1 Hv eq_refl) as [Hlt _].
  vm_compute in Hlt. discriminate Hlt.
Defined.


(** In a zone of fixed offset, a valid date on a minute boundary that the
    zone can represent is snapped to itself. *)
Lemma snapToMinuteDate_fixed_aligned (name : string) (off x : Z) :
  minuteAligned x ->
  Z.abs x <= MAX_TIME ->
  Z.abs (x + off * MS_PER_MINUTE) <= MAX_TIME ->
  snapToMinuteDate (FixedOffsetZone name off) (Some x) SNAP_MINUTES = Some x.
Proof.
  intros Ha Hx Hrep. unfold snapToMinuteDate, representable.
  cbn [offset FixedOffsetZone]. rewrite snapToMinute_fixed_zone.
  unfold minuteAligned in Ha. rewrite Ha, Z.sub_0_r.
  apply Z.leb_le in Hrep. rewrite Hrep.
  apply TimeClip_Some. split; [reflexivity | exact Hx].
Qed.

(** X4: in a zone of fixed offset and for a window that is not empty,
    with minute-aligned bounds that are dates which the zone represents,
    a result that [processEventTimes] reports valid is a fixed point:
    processing its start and end again returns the same result, also when
    one of them is an Invalid Date. *)
Theorem processEventTimes_idempotent
        (name : string) (off : Z) (start end_ : Date)
        (windowStart windowEnd : Z) :
  minuteAligned windowStart ->
  minuteAligned windowEnd ->
  representableWindow off windowStart windowEnd ->
  let z := FixedOffsetZone name off in
  let r := processEventTimes z start end_
                             (Some windowStart) (Some windowEnd) in
  pt_valid r = true ->
  processEventTimes z (pt_start r) (pt_end r)
                    (Some windowStart) (Some windowEnd) = r.
Proof.
  intros Hws Hwe (Hle & B1 & B2 & B3 & B4) z r Hvalid. subst r.
  rewrite (processEventTimes_eq z start end_) in *.
  cbn [pt_start pt_end pt_valid] in *.
  destruct (ensureMinDuration_snapped_aligned z start end_) as (A1 & A2 & A3).
  destruct (ensureMinDuration _ _ _) as [m1 m2]. cbn [fst snd] in *.
  (* a clamped date is [None] or a date of the window that is snapped and
     clamped to itself *)
  assert (Hfix : forall m : Date,
             (forall x, m = Some x -> minuteAligned x) ->
             let c := clampToWindowDate m (Some windowStart) (Some windowEnd) in
             c = None
             \/ exists x, c = Some x /\ minuteAligned x
                          /\ snapToMinuteDate z (Some x) SNAP_MINUTES = Some x
                          /\ clampToWindow x windowStart windowEnd = x).
  { intros [x|] Hal; cbv zeta; [|left; reflexivity].
    right. rewrite clampToWindowDate_Some.
    exists (clampToWindow x windowStart windowEnd).
    pose proof (clampToWindow_bounds x _ _ Hle) as Bx.
    assert (Ax : minuteAligned (clampToWindow x windowStart windowEnd))
      by (apply clampToWindow_aligned; auto).
    split; [reflexivity|]. split; [exact Ax|]. split.
    - apply snapToMinuteDate_fixed_aligned; [exact Ax | lia | lia].
    - unfold clampToWindow at 1.
      destruct (Z.ltb_spec (clampToWindow x windowStart windowEnd) windowStart);
        [lia|].
      destruct (Z.gtb_spec (clampToWindow x windowStart windowEnd) windowEnd);
        [lia | reflexivity]. }
  destruct (Hfix m1 A1) as [S0 | (s & S0 & As & Ss & Cs)];
    destruct (Hfix m2 A2) as [E0 | (e & E0 & Ae & Se & Ce)];
    rewrite S0, E0 in *; rewrite processEventTimes_eq;
    rewrite ?Ss, ?Se;
    change (snapToMinuteDate z None SNAP_MINUTES) with (@None Z);
    try reflexivity.
  - unfold ensureMinDuration. cbv beta iota zeta. cbn [fst snd].
    rewrite clampToWindowDate_Some, Ce. reflexivity.
  - unfold ensureMinDuration. cbv beta iota zeta. cbn [fst snd].
    rewrite clampToWindowDate_Some, Cs. reflexivity.
  - cbn [leb] in Hvalid. apply negb_true_iff, Z.leb_gt in Hvalid.
    pose proof (minuteAligned_gap s e As Ae Hvalid) as Hgap.
    unfold ensureMinDuration. cbv beta iota zeta.
    change (MIN_DURATION_MINUTES * 60 * 1000) with 60000.
    unfold MS_PER_MINUTE in Hgap.
    destruct (Z.ltb_spec (e - s) 60000); [lia|]. cbn [fst snd].
    rewrite !clampToWindowDate_Some, Cs, Ce. reflexivity.
Qed.

Lemma processEventTimes_idempotent_witness :
  let ws := 1792220400000 in
  let we := 1792306800000 in
  let r := processEventTimes utcInstance (TimeClip (ws - 900000))
                             (TimeClip (ws + 3600123)) (Some ws) (Some we) in
  (minuteAligned ws /\ minuteAligned we /\ representableWindow 0 ws we
   /\ pt_valid r = true)
  /\ processEventTimes utcInstance (pt_start r) (pt_end r) (Some ws) (Some we)
     = r.
Proof.
  intros ws we r.
  assert (H1 : minuteAligned ws) by reflexivity.
  assert (H2 : minuteAligned we) by reflexivity.
  assert (H3 : representableWindow 0 ws we)
    by (repeat split; vm_compute; congruence).
  assert (H4 : pt_valid r = true) by (vm_compute; reflexivity).
  split; [exact (conj H1 (conj H2 (conj H3 H4)))|].
  exact (processEventTimes_idempotent "UTC" 0 (TimeClip (ws - 900000))
           (TimeClip (ws + 3600123)) ws we H1 H2 H3 H4).
Defined.

(** X5: [validateEventTimes] accepts exactly the intervals of at least one
    minute whose start is in [[windowStart, windowEnd)] and whose end is in
    [(windowStart, windowEnd]]; when it rejects with the message about the
    end of the window, the end is after the window (the test
    [end <= windowStart] of that check can no longer hold). *)
Theorem validateEventTimes_valid_iff (startUtc endUtc windowStart windowEnd : Z) :
  let v := validateEventTimes startUtc endUtc windowStart windowEnd in
  (v_valid v = true <->
   60000 <= endUtc - startUtc
   /\ windowStart <= startUtc < windowEnd
   /\ windowStart < endUtc <= windowEnd)
  /\ (v_valid v = true <-> v_error v = None)
  /\ (v_error v = Some "End time must be within the day-of timeline window" ->
      windowEnd < endUtc).
Proof.
  cbv zeta. unfold validateEventTimes.
  destruct (Z.leb_spec endUtc startUtc);
    [cbn; repeat split; intros; try lia; try discriminate|].
  destruct (Z.ltb_spec (endUtc - startUtc) (1 * 60000));
    [cbn; repeat split; intros; try lia; try discriminate|].
  destruct (Z.ltb_spec startUtc windowStart);
    [cbn; repeat split; intros; try lia; try discriminate|].
  destruct (Z.geb_spec startUtc windowEnd);
    [cbn; repeat split; intros; try lia; try discriminate|].
  destruct (Z.leb_spec endUtc windowStart); [lia|].
  destruct (Z.gtb_spec endUtc windowEnd);
    cbn; repeat split; intros; try lia; try discriminate; try reflexivity.
Qed.



End MoreSnapping.

(** ** More on the timeline window *)

Section MoreWindow.
Import Luxon Time.

Lemma daysFromCivil_next_day (y m d : Z) :
  daysFromCivil y m (d + 1) = daysFromCivil y m d + 1.
Proof. unfold daysFromCivil. lia. Qed.

(** The local fields of an instant given by its local day and the
    milliseconds since local midnight. *)
Lemma tsToObj_local (days r off : Z) :
  0 <= r < MS_PER_DAY ->
  tsToObj (days * MS_PER_DAY + r - off * MS_PER_MINUTE) off
  = let '(y, m, d) := civilFromDays days in
    {| year := y; month := m; day := d;
       hour := r / MS_PER_HOUR;
       minute := (r mod MS_PER_HOUR) / MS_PER_MINUTE;
       second := (r mod MS_PER_MINUTE) / MS_PER_SECOND;
       millisecond := r mod MS_PER_SECOND |}.
Proof.
  intros Hr. unfold tsToObj.
  replace (days * MS_PER_DAY + r - off * MS_PER_MINUTE + off * MS_PER_MINUTE)
    with (r + days * MS_PER_DAY) by lia.
  rewrite Z.div_add, Z_mod_plus_full by discriminate.
  rewrite (Z.div_small r), (Z.mod_small r) by lia.
  reflexivity.
Qed.

(** X7: in a zone of fixed offset, for every wedding date that parses and
    whatever the clock reads, the window starts at 03:00 local time of the
    wedding date and is exactly 24 hours long. *)
Theorem getTimelineWindow_fixed_zone
        (tzdb : string -> option Zone) (now : Z)
        (weddingDate venueTimezone name : string) (off y m d : Z) :
  tzdb venueTimezone = Some (FixedOffsetZone name off) ->
  parseISODate weddingDate = Some (y, m, d) ->
  let w := getTimelineWindow tzdb now weddingDate venueTimezone in
  let start := daysFromCivil y m d * MS_PER_DAY + 3 * MS_PER_HOUR
               - off * MS_PER_MINUTE in
  ts <$> windowStartLocal w = Some start
  /\ ts <$> windowEndLocal w = Some (start + 24 * MS_PER_HOUR)
  /\ windowInstant (windowStartLocal w) = start
  /\ windowInstant (windowEndLocal w) = start + 24 * MS_PER_HOUR.
Proof.
  intros Hzone Hdate w start. subst w.
  unfold getTimelineWindow, fromISO. rewrite Hzone, Hdate.
  set (days := daysFromCivil y m d) in *.
  assert (H0 : objToTS (mkDateObj y m d 0 0 0 0)
                 (offset (FixedOffsetZone name off) now)
                 (FixedOffsetZone name off)
               = (days * MS_PER_DAY + 0 - off * MS_PER_MINUTE, off)).
  { unfold objToTS, fixOffset, objToLocalTS. cbn [offset FixedOffsetZone
      year month day hour minute second millisecond].
    rewrite Z.eqb_refl. f_equal. subst days. lia. }
  rewrite H0.
  pose proof (civil_roundtrip days) as (Hrt & Hm & Hd).
  assert (H1 : set {| ts := days * MS_PER_DAY + 0 - off * MS_PER_MINUTE;
                      zone := FixedOffsetZone name off; o := off |}
                   (mkUnits None None None (Some TIMELINE_WINDOW_START_HOUR)
                            (Some 0) (Some 0) (Some 0))
               = {| ts := days * MS_PER_DAY + 3 * MS_PER_HOUR
                          - off * MS_PER_MINUTE;
                    zone := FixedOffsetZone name off; o := off |}).
  { unfold set, toObject. cbn [ts o zone].
    rewrite tsToObj_local by (vm_compute; split; congruence).
    destruct (civilFromDays days) as [[y' m'] d']. cbn [fst snd] in *.
    unfold objToTS, fixOffset, objToLocalTS, mixUnits.
    cbn [offset FixedOffsetZone year month day hour minute second millisecond
         u_year u_month u_day u_hour u_minute u_second u_millisecond default].
    rewrite Z.eqb_refl, Z.min_r by lia. rewrite Hrt.
    f_equal. unfold id, TIMELINE_WINDOW_START_HOUR. lia. }
  assert (H2 : plusDays {| ts := days * MS_PER_DAY + 3 * MS_PER_HOUR
                                 - off * MS_PER_MINUTE;
                           zone := FixedOffsetZone name off; o := off |} 1
               = {| ts := days * MS_PER_DAY + 3 * MS_PER_HOUR
                          - off * MS_PER_MINUTE + 24 * MS_PER_HOUR;
                    zone := FixedOffsetZone name off; o := off |}).
  { unfold plusDays, toObject. cbn [ts o zone].
    rewrite tsToObj_local by (vm_compute; split; congruence).
    destruct (civilFromDays days) as [[y' m'] d']. cbn [fst snd] in *.
    unfold fixOffset, objToLocalTS.
    cbn [offset FixedOffsetZone year month day hour minute second millisecond].
    rewrite Z.eqb_refl, Z.min_l by lia.
    rewrite daysFromCivil_next_day, Hrt.
    f_equal.
    change ((3 * MS_PER_HOUR) / MS_PER_HOUR) with 3.
    change (((3 * MS_PER_HOUR) mod MS_PER_HOUR) / MS_PER_MINUTE) with 0.
    change (((3 * MS_PER_HOUR) mod MS_PER_MINUTE) / MS_PER_SECOND) with 0.
    change ((3 * MS_PER_HOUR) mod MS_PER_SECOND) with 0.
    unfold MS_PER_DAY, MS_PER_HOUR, MS_PER_MINUTE, MS_PER_SECOND. lia. }
  cbn [fmap option_fmap option_map windowStartLocal windowEndLocal].
  rewrite H1, H2. subst start. repeat split.
Qed.

Lemma getTimelineWindow_fixed_zone_witness :
  let tzdb := fun n : string =>
                if String.eqb n "Asia/Kolkata"
                then Some (FixedOffsetZone "Asia/Kolkata" 330) else None in
  (tzdb "Asia/Kolkata" = Some (FixedOffsetZone "Asia/Kolkata" 330)
   /\ parseISODate "2026-10-17" = Some (2026, 10, 17))
  /\ windowStartUtc (getTimelineWindow tzdb 0 "2026-10-17" "Asia/Kolkata")
     = Some "2026-10-16T21:30:00.000Z"
  /\ windowInstant
       (windowEndLocal (getTimelineWindow tzdb 0 "2026-10-17" "Asia/Kolkata"))
     = utcInstant 2026 10 17 21 30 0.
Proof.
  intros tzdb.
  assert (H1 : tzdb "Asia/Kolkata" = Some (FixedOffsetZone "Asia/Kolkata" 330))
    by reflexivity.
  assert (H2 : parseISODate "2026-10-17" = Some (2026, 10, 17))
    by (vm_compute; reflexivity).
  destruct (getTimelineWindow_fixed_zone tzdb 0 "2026-10-17" "Asia/Kolkata"
              "Asia/Kolkata" 330 2026 10 17 H1 H2) as (_ & _ & _ & Hend).
  split; [split; assumption|]. split; [vm_compute; reflexivity|].
  rewrite Hend. vm_compute. reflexivity.
Defined.

Lemma nyWindowOk_2020s :
  allFrom nyWindowOk (Z.to_nat 3653) (daysFromCivil 2020 1 1) = true.
Proof. vm_compute. reflexivity. Qed.

(** The window depends on the clock only through the offset that the zone
    has at that instant, and on the database only through the zone. *)
Lemma windowLength_provisional_offset
      (tzdb tzdb' : string -> option Zone) (now now' : Z)
      (weddingDate venueTimezone : string) (z : Zone) :
  tzdb venueTimezone = Some z -> tzdb' venueTimezone = Some z ->
  offset z now = offset z now' ->
  windowLength tzdb now weddingDate venueTimezone
  = windowLength tzdb' now' weddingDate venueTimezone.
Proof.
  intros H1 H2 Ho. unfold windowLength, getTimelineWindow, fromISO.
  rewrite H1, H2, Ho. reflexivity.
Qed.

(** X8: in America/New_York, for every date from 2020-01-01 to 2029-12-31
    and whatever the clock reads, the window is 23 hours long when the
    clocks go forward in it (it ends on the second Sunday of March), 25
    hours long when they go back in it (it ends on the first Sunday of
    November), and 24 hours long otherwise. *)
Theorem getTimelineWindow_New_York_length
        (tzdb : string -> option Zone) (now z : Z) :
  tzdb "America/New_York" = Some America_New_York ->
  daysFromCivil 2020 1 1 <= z < daysFromCivil 2030 1 1 ->
  let '(y, m, d) := civilFromDays z in
  windowLength tzdb now (isoDate y m d) "America/New_York"
  = Some (if z + 1 =? nthSunday y 3 2 then 23 * MS_PER_HOUR
          else if z + 1 =? nthSunday y 11 1 then 25 * MS_PER_HOUR
          else 24 * MS_PER_HOUR).
Proof.
  intros Hzone Hz.
  pose proof (allFrom_spec nyWindowOk _ _ z nyWindowOk_2020s) as Hok.
  rewrite Z2Nat.id in Hok by discriminate.
  specialize (Hok ltac:(vm_compute in Hz |- *; exact Hz)).
  unfold nyWindowOk in Hok.
  destruct (civilFromDays z) as [[y m] d].
  cbn [forallb] in Hok.
  apply andb_true_iff in Hok as [Hstd Hdst].
  apply andb_true_iff in Hdst as [Hdst _].
  assert (Hex : exampleTzdb "America/New_York" = Some America_New_York)
    by reflexivity.
  destruct (usEasternOffset_cases now) as [Ho | Ho].
  - rewrite (windowLength_provisional_offset tzdb exampleTzdb now 1792220400000
               _ _ America_New_York Hzone Hex)
      by (cbn [offset America_New_York]; rewrite Ho; vm_compute; reflexivity).
    destruct (windowLength exampleTzdb 1792220400000 _ _) as [len|] in *;
      [|discriminate].
    apply Z.eqb_eq in Hdst. rewrite Hdst. reflexivity.
  - rewrite (windowLength_provisional_offset tzdb exampleTzdb now 0
               _ _ America_New_York Hzone Hex)
      by (cbn [offset America_New_York]; rewrite Ho; vm_compute; reflexivity).
    destruct (windowLength exampleTzdb 0 _ _) as [len|] in *;
      [|discriminate].
    apply Z.eqb_eq in Hstd. rewrite Hstd. reflexivity.
Qed.

Lemma getTimelineWindow_New_York_length_witness :
  (exampleTzdb "America/New_York" = Some America_New_York
   /\ daysFromCivil 2020 1 1 <= daysFromCivil 2026 3 7 < daysFromCivil 2030 1 1)
  /\ windowLength exampleTzdb 0 "2026-03-07" "America/New_York"
     = Some (23 * MS_PER_HOUR).
Proof.
  assert (H1 : exampleTzdb "America/New_York" = Some America_New_York)
    by reflexivity.
  assert (H2 : daysFromCivil 2020 1 1 <= daysFromCivil 2026 3 7
               < daysFromCivil 2030 1 1) by (vm_compute; split; congruence).
  split; [split; assumption|].
  exact (getTimelineWindow_New_York_length exampleTzdb 0
           (daysFromCivil 2026 3 7) H1 H2).
Defined.

End MoreWindow.

(** ** More on the history stack and the draft *)

Section MoreHistory.
Import Types History Draft Route.

(** X9: redo then undo is the identity too: for every history with a
    non-empty future, [redo] returns the first future batch and moves it to
    the end of the past, and [undo] of that state returns the same batch
    and restores the history exactly. *)
Theorem redo_then_undo_restores (h : HistoryState) :
  future h <> [] ->
  exists (b : list PatchOp) (rest : list (list PatchOp)),
    future h = b :: rest
    /\ redo h = ({| past := past h ++ [b]; future := rest;
                    maxSize := maxSize h |}, Some b)
    /\ undo (redo h).1 = (h, Some b).
Proof.
  intros Hne. destruct h as [p f m]. cbn in *.
  destruct f as [|b rest]; [contradiction|].
  exists b, rest. split; [reflexivity|]. split; [reflexivity|].
  unfold redo, undo. cbn.
  rewrite list.last_snoc, removelast_last. reflexivity.
Qed.

Lemma redo_then_undo_restores_witness :
  let h := {| past := [[delete_event "a"]];
              future := [[delete_event "b"]; [delete_event "c"]];
              maxSize := 50 |} in
  future h <> [] /\ undo (redo h).1 = (h, Some [delete_event "b"]).
Proof.
  intros h. assert (H : future h <> []) by (cbn; discriminate).
  split; [exact H|].
  destruct (redo_then_undo_restores h H) as (b & rest & Hf & _ & Hu).
  cbn in Hf. injection Hf as <- _. exact Hu.
Defined.

(** X10: every history that is built from [createHistory m], [m] not
    negative, by [recordAction], [undo], [redo] and [clearHistory] keeps
    the capacity [m] and holds at most [m] batches in its two stacks
    together. *)
Theorem reachable_history_bounded (m : Z) (h : HistoryState) :
  0 <= m ->
  reachable m h ->
  maxSize h = m
  /\ Z.of_nat (length (past h)) + Z.of_nat (length (future h)) <= m.
Proof.
  intros Hm Hr.
  destruct (reachable_withinCapacity m h Hm Hr) as [H1 H2].
  unfold withinCapacity in H1. split; [exact H2 | lia].
Qed.

Lemma reachable_history_bounded_witness :
  let h := {| past := [[delete_event "b"]]; future := []; maxSize := 1 |} in
  (0 <= 1 /\ reachable 1 h)
  /\ Z.of_nat (length (past h)) + Z.of_nat (length (future h)) <= 1.
Proof.
  intros h.
  assert (H0 : 0 <= 1) by lia.
  assert (Hr : reachable 1 h).
  { apply (reach_record 1 {| past := [[delete_event "a"]]; future := [];
                             maxSize := 1 |} h [delete_event "b"] 3%nat).
    - apply (reach_record 1 (createHistory 1) _ [delete_event "a"] 3%nat).
      + apply reach_create.
      + reflexivity.
    - reflexivity. }
  split; [split; assumption|].
  exact (proj2 (reachable_history_bounded 1 h H0 Hr)).
Defined.

(** X11: what [recordAction] does to a past within its capacity: below
    the capacity the batch is appended and nothing is evicted; at the
    capacity (at least 1) exactly the oldest batch is evicted; with the
    capacity 0 the past stays empty, so the recorded action cannot be
    undone. *)
Theorem recordAction_eviction (h : HistoryState) (ops : list PatchOp) :
  Z.of_nat (length (past h)) <= maxSize h ->
  exists h' : HistoryState,
    (forall fuel : nat, (length (past h) + 1 < fuel)%nat ->
                        recordAction fuel h ops = Some h')
    /\ (Z.of_nat (length (past h)) < maxSize h ->
        past h' = past h ++ [ops])
    /\ (Z.of_nat (length (past h)) = maxSize h -> 1 <= maxSize h ->
        past h' = tail (past h) ++ [ops])
    /\ (maxSize h = 0 -> past h' = [] /\ canUndo h' = false).
Proof.
  intros Hb. assert (Hm : 0 <= maxSize h) by lia.
  eexists. split;
    [intros fuel Hfuel; apply recordAction_returns; assumption|].
  cbn [past]. split; [|split].
  - intros Hlt.
    replace (length (past h) + 1 - Z.to_nat (maxSize h))%nat with O by lia.
    apply drop_0.
  - intros Heq H1.
    replace (length (past h) + 1 - Z.to_nat (maxSize h))%nat with 1%nat by lia.
    destruct (past h) as [|x l]; [cbn in Heq; lia|]. reflexivity.
  - intros H0. rewrite H0 in *.
    assert (Hnil : past h = []) by (destruct (past h); [reflexivity|cbn in Hb; lia]).
    rewrite Hnil. cbn. split; reflexivity.
Qed.

Lemma recordAction_eviction_witness :
  let h := {| past := [[delete_event "a"]; [delete_event "b"]];
              future := []; maxSize := 2 |} in
  Z.of_nat (length (past h)) <= maxSize h
  /\ recordAction 4 h [delete_event "c"]
     = Some {| past := [[delete_event "b"]; [delete_event "c"]];
               future := []; maxSize := 2 |}.
Proof.
  intros h.
  assert (H : Z.of_nat (length (past h)) <= maxSize h) by (cbn; lia).
  split; [exact H|].
  destruct (recordAction_eviction h [delete_event "c"] H) as (h' & Hrec & _).
  rewrite (Hrec 4%nat) by (cbn; lia).
  rewrite <- (Hrec 5%nat) by (cbn; lia). reflexivity.
Defined.

(** X12: [canUndo] and [canRedo] say exactly whether [undo] and [redo]
    return a batch; when they are false, [undo] and [redo] return the
    history as it is, with no batch. *)
Theorem canUndo_canRedo_agree (h : HistoryState) :
  (canUndo h = true <-> (undo h).2 <> None)
  /\ (canRedo h = true <-> (redo h).2 <> None)
  /\ (canUndo h = false -> undo h = (h, None))
  /\ (canRedo h = false -> redo h = (h, None)).
Proof.
  destruct h as [p f m]. unfold canUndo, canRedo, undo, redo. cbn [past future].
  assert (Hu : (0 <? Z.of_nat (length p)) = true <-> p <> []).
  { rewrite Z.ltb_lt. destruct p; cbn [length]; split; intros;
      try lia; try congruence; try discriminate. }
  assert (Hr : (0 <? Z.of_nat (length f)) = true <-> f <> []).
  { rewrite Z.ltb_lt. destruct f; cbn [length]; split; intros;
      try lia; try congruence; try discriminate. }
  repeat split.
  - intros H. apply Hu in H. destruct (last p) eqn:E; cbn; [discriminate|].
    apply list.last_None in E. contradiction.
  - intros H. apply Hu. intros ->. cbn in H. contradiction.
  - intros H. apply Hr in H. destruct f; [contradiction|]. cbn. discriminate.
  - intros H. apply Hr. intros ->. cbn in H. contradiction.
  - intros H. destruct (last p) eqn:E; [|reflexivity].
    assert (p <> []) by (intros ->; discriminate E).
    apply Hu in H0. congruence.
  - intros H. destruct f; [reflexivity|].
    assert (l :: f <> []) by discriminate. apply Hr in H0. congruence.
Qed.

(** X13: in the draft reducer, creating an event whose id is not in the
    list and then deleting that id gives back the list. *)
Theorem draft_create_then_delete
        (events : list TimelineEventItem) (event : TimelineEventItem) :
  (forall ev, ev ∈ events -> id ev <> id event) ->
  applyDraftToEvents events [create_event event; delete_event (id event)]
  = events.
Proof.
  intros Hfresh.
  cbn [applyDraftToEvents fold_left applyEventOp].
  rewrite List.filter_app. cbn [List.filter].
  rewrite String.eqb_refl. cbn [negb]. rewrite app_nil_r.
  induction events as [|ev evs IH]; [reflexivity|].
  cbn [List.filter].
  destruct (String.eqb_spec (id ev) (id event)) as [Heq|Hneq]; cbn [negb].
  - exfalso. apply (Hfresh ev); [left|exact Heq].
  - f_equal. apply IH. intros ev' Hin. apply Hfresh. right. exact Hin.
Qed.

Lemma draft_create_then_delete_witness :
  let events := [eventView ("e1", exampleEvent "Vows" false)] in
  let event := eventView ("e2", exampleEvent "Toast" false) in
  (forall ev, ev ∈ events -> id ev <> id event)
  /\ applyDraftToEvents events [create_event event; delete_event "e2"] = events.
Proof.
  intros events event.
  assert (H : forall ev, ev ∈ events -> id ev <> id event).
  { intros ev Hin. apply list_elem_of_singleton in Hin. subst ev.
    cbn. discriminate. }
  split; [exact H|]. exact (draft_create_then_delete events event H).
Defined.

(** X14: the update ops of the draft reducer never add, drop or reorder
    events: the list of ids after the op is the list of ids before (so an
    update of an id that is not in the list changes nothing and raises
    nothing); lane ops leave the events alone. *)
Theorem draft_updates_keep_ids
        (events : list TimelineEventItem) (op : PatchOp) :
  (forall e, op <> create_event e) ->
  (forall i, op <> delete_event i) ->
  id <$> applyDraftToEvents events [op] = id <$> events
  /\ ((forall ev, ev ∈ events ->
                  match op with
                  | update_event_time i _ _ | update_event_lane i _
                  | update_event_title i _ | update_event_owner i _ =>
                      id ev <> i
                  | _ => True
                  end) ->
      applyDraftToEvents events [op] = events).
Proof.
  intros Hc Hd. cbn [applyDraftToEvents fold_left].
  destruct op; cbn [applyEventOp];
    try (exfalso; eapply Hc; reflexivity);
    try (exfalso; eapply Hd; reflexivity);
    try (split; [reflexivity | intros _; reflexivity]);
    (split;
     [ rewrite <- list_fmap_compose; apply list_fmap_ext;
       intros i x _; cbn; destruct (String.eqb (id x) eventId); reflexivity
     | intros Habs; rewrite <- (list_fmap_id events) at 2;
       apply list_fmap_ext; intros i x Hx; cbn;
       destruct (String.eqb_spec (id x) eventId) as [Heq|]; [|reflexivity];
       exfalso; apply (Habs x); [eapply list_elem_of_lookup_2; exact Hx | exact Heq] ]).
Qed.

Lemma draft_updates_keep_ids_witness :
  let events := [eventView ("e1", exampleEvent "Vows" false)] in
  let op := update_event_title "ghost" "Renamed" in
  ((forall e, op <> create_event e) /\ (forall i, op <> delete_event i))
  /\ applyDraftToEvents events [op] = events.
Proof.
  intros events op.
  assert (H1 : forall e, op <> create_event e) by (intros e; discriminate).
  assert (H2 : forall i, op <> delete_event i) by (intros i; discriminate).
  split; [split; assumption|].
  apply (proj2 (draft_updates_keep_ids events op H1 H2)).
  intros ev Hin. apply list_elem_of_singleton in Hin. subst ev.
  cbn. discriminate.
Defined.

End MoreHistory.

(** ** More on the route *)

Section MoreRoute.
Import Luxon Types Route RouteRead.

(** X15: when every op of a publish at the current version succeeds,
    [PUT] answers with status 200 and the fresh snapshot; the timeline
    version of the wedding is incremented by exactly one and no other
    wedding row changes; the lanes, events and bands are those the ops
    left, and the snapshot is the snapshot of the wedding in that
    database: the new version, the zone, date and window of the wedding
    and exactly one item for each lane, event and band row of the wedding,
    with the columns of the row as its fields, lanes by sort order and
    events by start. *)
Theorem publish_success_outcome
        (tzdb : string -> option Zone) (now : Z)
        (localTZA : JsDate.LocalTZA)
        (weddingId : string) (body : TimelineUpdateRequest)
        (db db1 : Db) (w : Wedding) :
  wedding db !! weddingId = Some w ->
  timelineVersion w = req_baseVersion body ->
  applyPatchOps localTZA weddingId (req_patchOps body)
                (putWindow tzdb now w).1 (putWindow tzdb now w).2 db
  = (db1, inr tt) ->
  let w' := mkWedding (w_weddingDate w) (w_venueTimezone w)
                      (timelineVersion w + 1) in
  exists (db' : Db) (snapshot : TimelineResponse),
    PUT tzdb now localTZA weddingId body db = (db', Json200 snapshot)
    /\ isSnapshotOf tzdb now weddingId w' db' snapshot
    /\ wedding db' !! weddingId = Some w'
    /\ (forall other, other <> weddingId ->
                      wedding db' !! other = wedding db !! other)
    /\ timelineEvent db' = timelineEvent db1
    /\ timelineLane db' = timelineLane db1
    /\ timelineBackgroundBand db' = timelineBackgroundBand db1.
Proof.
  intros Hw Hv Hops w'.
  pose proof (applyPatchOps_wedding localTZA weddingId (req_patchOps body)
                (putWindow tzdb now w).1 (putWindow tzdb now w).2 db) as Hwed.
  rewrite Hops in Hwed. cbn [fst] in Hwed.
  assert (Heq : (timelineVersion w =? req_baseVersion body) = true)
    by (apply Z.eqb_eq; exact Hv).
  destruct (getFullTimeline_isSnapshotOf tzdb now weddingId w'
              (bumpVersion weddingId w db1)) as (snapshot & Hget & Hsnap).
  exists (bumpVersion weddingId w db1), snapshot. split.
  - unfold PUT, PUT_try, bind, wedding_findUnique, pure.
    rewrite Hw, Heq. cbn [negb].
    unfold putWindow in Hops. cbn [fst snd] in Hops. rewrite Hops.
    unfold wedding_incrementVersion. rewrite Hwed, Hw.
    cbn [wedding]. rewrite lookup_insert_eq.
    unfold bumpVersion in Hget |- *. rewrite Hwed in Hget |- *.
    subst w'. rewrite Hget. reflexivity.
  - split; [exact Hsnap|].
    cbn [bumpVersion wedding timelineEvent timelineLane
         timelineBackgroundBand].
    split; [apply lookup_insert_eq|].
    split; [intros other Hne; rewrite lookup_insert_ne by congruence;
            rewrite Hwed; reflexivity|].
    repeat split.
Qed.

Lemma publish_success_outcome_witness :
  let db := exampleDb false in
  let w := mkWedding "2026-10-17" "America/New_York" 3 in
  let body := {| req_baseVersion := 3;
                 req_patchOps :=
                   [update_event_title "e1" "Changed";
                    create_lane (mkLane "lane2" "w1" "Photos" photo None 1);
                    update_event_lane "e1" "lane2"] |} in
  let db1 := (applyPatchOps utcHost "w1" (req_patchOps body)
                (putWindow exampleTzdb 0 w).1
                (putWindow exampleTzdb 0 w).2 db).1 in
  (wedding db !! "w1" = Some w
   /\ applyPatchOps utcHost "w1" (req_patchOps body)
                    (putWindow exampleTzdb 0 w).1
                    (putWindow exampleTzdb 0 w).2 db = (db1, inr tt))
  /\ exists (db' : Db) (snapshot : TimelineResponse),
       PUT exampleTzdb 0 utcHost "w1" body db = (db', Json200 snapshot)
       /\ version snapshot = 4
       /\ (e_title <$> timelineEvent db' !! "e1" = Some "Changed"
           /\ e_laneId <$> timelineEvent db' !! "e1" = Some "lane2").
Proof.
  intros db w body db1.
  assert (H1 : wedding db !! "w1" = Some w) by (vm_compute; reflexivity).
  assert (H3 : applyPatchOps utcHost "w1" (req_patchOps body)
                 (putWindow exampleTzdb 0 w).1
                 (putWindow exampleTzdb 0 w).2 db = (db1, inr tt))
    by (vm_compute; reflexivity).
  destruct (publish_success_outcome exampleTzdb 0 utcHost "w1" body db db1 w
              H1 eq_refl H3) as (db' & snap & Hput & Hsnap & _ & _ & He & _).
  split; [split; assumption|].
  exists db', snap. split; [exact Hput|].
  split; [exact (proj1 Hsnap)|].
  rewrite He. split; vm_compute; reflexivity.
Defined.

Ltac status_cases :=
  cbn; repeat split; intros;
  repeat match goal with
         | H : exists _, _ |- _ => destruct H
         | H : _ /\ _ |- _ => destruct H
         | H : _ \/ _ |- _ => destruct H
         end;
  try congruence; try discriminate; eauto.

(** X16: the answers of [PUT] and the version: status 404 exactly when
    the wedding does not exist and 409 exactly when the versions differ,
    both with the database untouched; status 200 exactly when the wedding
    table changes, and then the only change is the version of this wedding
    incremented by one; otherwise (status 500) the wedding table is as
    before. *)
Theorem PUT_status_and_version
        (tzdb : string -> option Zone) (now : Z)
        (localTZA : JsDate.LocalTZA)
        (weddingId : string) (body : TimelineUpdateRequest) (db : Db) :
  let r := PUT tzdb now localTZA weddingId body db in
  (httpStatus r.2 = 404 <-> wedding db !! weddingId = None)
  /\ (httpStatus r.2 = 409 <->
      exists w, wedding db !! weddingId = Some w
                /\ timelineVersion w <> req_baseVersion body)
  /\ (httpStatus r.2 = 404 \/ httpStatus r.2 = 409 -> r.1 = db)
  /\ (httpStatus r.2 <> 200 -> wedding r.1 = wedding db)
  /\ (httpStatus r.2 = 200 ->
      exists w, wedding db !! weddingId = Some w
                /\ timelineVersion w = req_baseVersion body
                /\ wedding r.1
                   = <[weddingId := mkWedding (w_weddingDate w)
                                     (w_venueTimezone w)
                                     (timelineVersion w + 1)]> (wedding db)).
Proof.
  cbv zeta. unfold PUT, PUT_try, bind, wedding_findUnique, pure.
  destruct (wedding db !! weddingId) as [w|] eqn:Hw;
    [|cbn; status_cases].
  destruct (Z.eqb_spec (timelineVersion w) (req_baseVersion body)) as [Hv|Hv];
    cbn [negb]; [|cbn; status_cases].
  pose proof (applyPatchOps_wedding localTZA weddingId (req_patchOps body)
                (putWindow tzdb now w).1 (putWindow tzdb now w).2 db) as Hwed.
  unfold putWindow in Hwed. cbn [fst snd] in Hwed.
  destruct (applyPatchOps _ _ _ _ _ db) as [db1 [e|[]]]; cbn [fst] in Hwed;
    [cbn; status_cases|].
  unfold wedding_incrementVersion. rewrite Hwed, Hw.
  cbn [wedding]. rewrite lookup_insert_eq. cbn. status_cases.
Qed.

(** X17: [delete_lane] of an existing lane succeeds and cascades: the lane
    and every event of the lane are gone, every event of another lane and
    every other lane stay as they are. *)
Theorem delete_lane_cascades (localTZA : JsDate.LocalTZA)
        (weddingId laneId : string) (ws we : Z) (db : Db) :
  is_Some (timelineLane db !! laneId) ->
  exists db' : Db,
    applyPatchOp localTZA weddingId (delete_lane laneId) ws we db
    = (db', inr tt)
    /\ timelineLane db' !! laneId = None
    /\ (forall k row, timelineEvent db' !! k = Some row -> e_laneId row <> laneId)
    /\ (forall k row, timelineEvent db !! k = Some row -> e_laneId row <> laneId ->
                      timelineEvent db' !! k = Some row)
    /\ (forall k row, timelineEvent db' !! k = Some row ->
                      timelineEvent db !! k = Some row)
    /\ (forall l, l <> laneId -> timelineLane db' !! l = timelineLane db !! l).
Proof.
  intros [lrow Hl]. eexists. split.
  - cbn [applyPatchOp]. unfold bind, timelineEvent_deleteMany,
      timelineLane_delete. cbn [timelineLane]. rewrite Hl. reflexivity.
  - cbn [timelineLane timelineEvent]. split; [apply lookup_delete_eq|].
    split; [|split; [|split]].
    + intros k row H. apply map_lookup_filter_Some in H as [H _].
      apply map_lookup_filter_Some in H as [_ H]. exact H.
    + intros k row H Hne. apply map_lookup_filter_Some. split; [|exact Hne].
      apply map_lookup_filter_Some. split; [exact H | exact Hne].
    + intros k row H. apply map_lookup_filter_Some in H as [H _].
      apply map_lookup_filter_Some in H as [H _]. exact H.
    + intros l Hne. apply lookup_delete_ne. congruence.
Qed.

Lemma delete_lane_cascades_witness :
  let db := exampleDb false in
  is_Some (timelineLane db !! "lane1")
  /\ timelineEvent
       (applyPatchOp utcHost "w1" (delete_lane "lane1") 0 0 db).1 !! "e1"
     = None.
Proof.
  intros db.
  assert (H : is_Some (timelineLane db !! "lane1"))
    by (eexists; vm_compute; reflexivity).
  split; [exact H|].
  destruct (delete_lane_cascades utcHost "w1" "lane1" 0 0 db H)
    as (db' & Hop & _ & Hgone & _).
  rewrite Hop. cbn [fst].
  destruct (timelineEvent db' !! "e1") as [row|] eqn:E; [|reflexivity].
  exfalso. apply (Hgone "e1" row E).
  assert (Hin : timelineEvent db !! "e1" = Some row).
  { destruct (delete_lane_cascades utcHost "w1" "lane1" 0 0 db H)
      as (db2 & Hop2 & _ & _ & _ & Hsub & _).
    rewrite Hop in Hop2. injection Hop2 as <-. apply Hsub. exact E. }
  vm_compute in Hin. injection Hin as <-. reflexivity.
Defined.

(** X18: the outcomes of [create_event] (owner missing or a name): an id
    that is already in the event table is refused with the unique
    constraint error (P2002) and an unknown lane with the foreign key error
    (P2003), both writing nothing; with a new id and an existing lane the
    event is stored under the wedding of the request (whatever wedding the
    payload names), unlocked unless the payload says locked, with its
    start raised to the window start and its end lowered to the window
    end, both after [setSeconds(0, 0)] in the time of the server; on a
    server whose zone has a fixed offset of whole minutes that is the
    start of the minute. *)
Theorem create_event_outcomes
        (localTZA : JsDate.LocalTZA) (off : Z)
        (weddingId : string) (event : TimelineEventItem) (ws we : Z)
        (db : Db) :
  (forall r, assignedOwner event <> Some (OwnerObject r)) ->
  is_Some (wedding db !! weddingId) ->
  let result :=
    applyPatchOp localTZA weddingId (create_event event) ws we db in
  let start := if startUtc event <? ws then ws else startUtc event in
  let end_ := if endUtc event >? we then we else endUtc event in
  (is_Some (timelineEvent db !! id event) -> result = (db, inl P2002))
  /\ (timelineEvent db !! id event = None ->
      timelineLane db !! laneId event = None -> result = (db, inl P2003))
  /\ (timelineEvent db !! id event = None ->
      is_Some (timelineLane db !! laneId event) ->
      exists row,
        result = (withEvent (id event) row db, inr tt)
        /\ e_weddingId row = weddingId
        /\ e_laneId row = laneId event
        /\ e_title row = title event
        /\ e_startUtc row = setSecondsZero localTZA start
        /\ e_endUtc row = setSecondsZero localTZA end_
        /\ e_locked row = default false (locked event))
  /\ (setSecondsZero (fixedHost off) start = start - start mod MS_PER_MINUTE
      /\ setSecondsZero (fixedHost off) end_ = end_ - end_ mod MS_PER_MINUTE).
Proof.
  intros Howner [w Hw] result start end_. subst result start end_.
  split; [|split; [|split]];
    [| | |split; apply setSecondsZero_fixedHost];
    cbn [applyPatchOp];
    (destruct (assignedOwner event) as [[n|r]|] eqn:Ho;
     [ | exfalso; apply (Howner r); reflexivity | ]);
    unfold timelineEvent_create; cbn [e_weddingId e_laneId]; rewrite Hw.
  - intros [row Hrow]; rewrite Hrow; reflexivity.
  - intros [row Hrow]; rewrite Hrow; reflexivity.
  - intros Hnone Hlane; rewrite Hnone, Hlane; reflexivity.
  - intros Hnone Hlane; rewrite Hnone, Hlane; reflexivity.
  - intros Hnone [lrow Hlane]; rewrite Hnone, Hlane.
    eexists; split; [reflexivity|]; cbn; repeat split.
  - intros Hnone [lrow Hlane]; rewrite Hnone, Hlane.
    eexists; split; [reflexivity|]; cbn; repeat split.
Qed.

Lemma create_event_outcomes_witness :
  let db := exampleDb false in
  let ws := 1792220400000 in
  let we := 1792306800000 in
  let event := mkEvent "e2" "elsewhere" "Toast" (ws - 1) (ws + 3600123)
                       "lane1" None None None None None in
  ((forall r, assignedOwner event <> Some (OwnerObject r))
   /\ is_Some (wedding db !! "w1"))
  /\ exists row,
       applyPatchOp utcHost "w1" (create_event event) ws we db
       = (withEvent "e2" row db, inr tt)
       /\ e_weddingId row = "w1"
       /\ e_startUtc row = ws
       /\ e_endUtc row = ws + 3600000.
Proof.
  intros db ws we event.
  assert (H1 : forall r, assignedOwner event <> Some (OwnerObject r))
    by (intros r; discriminate).
  assert (H2 : is_Some (wedding db !! "w1"))
    by (eexists; vm_compute; reflexivity).
  split; [split; assumption|].
  destruct (create_event_outcomes utcHost 0 "w1" event ws we db H1 H2)
    as (_ & _ & Hok & Hs & He).
  destruct Hok as (row & Hop & Hwid & _ & _ & Hstart & Hend & _).
  - vm_compute. reflexivity.
  - eexists. vm_compute. reflexivity.
  - exists row. split; [exact Hop|]. split; [exact Hwid|].
    split.
    + rewrite Hstart. etransitivity; [exact Hs|]. vm_compute. reflexivity.
    + rewrite Hend. etransitivity; [exact He|]. vm_compute. reflexivity.
Defined.

(** The lanes of the events survive every query. *)
Lemma lanesExist_update (eventId : string)
      (f : TimelineEventRow -> TimelineEventRow) (db : Db) :
  lanesExist db -> lanesExist (timelineEvent_update eventId f db).1.
Proof.
  intros Hinv. unfold timelineEvent_update.
  destruct (timelineEvent db !! eventId) as [row|] eqn:Hrow; [|exact Hinv].
  destruct (String.eqb_spec (e_laneId (f row)) (e_laneId row)) as [Heq|Hne];
    cbn [negb andb].
  - intros k r. cbn [fst timelineEvent timelineLane].
    destruct (decide (eventId = k)) as [->|Hk].
    + rewrite lookup_insert_eq. intros [= <-]. rewrite Heq. eapply Hinv; eauto.
    + rewrite lookup_insert_ne by exact Hk. apply Hinv.
  - destruct (bool_decide (is_Some (timelineLane db !! e_laneId (f row))))
      eqn:Hb; cbn [negb]; [|exact Hinv].
    apply bool_decide_eq_true_1 in Hb.
    intros k r. cbn [fst timelineEvent timelineLane].
    destruct (decide (eventId = k)) as [->|Hk].
    + rewrite lookup_insert_eq. intros [= <-]. exact Hb.
    + rewrite lookup_insert_ne by exact Hk. apply Hinv.
Qed.

Lemma lanesExist_applyPatchOp (localTZA : JsDate.LocalTZA)
      (weddingId : string) (op : PatchOp) (ws we : Z) (db : Db) :
  lanesExist db -> lanesExist (applyPatchOp localTZA weddingId op ws we db).1.
Proof.
  intros Hinv.
  destruct op as [event|eid s e|eid l|eid t|eid ow|eid|lane|lid nm ow so|lid];
    cbn [applyPatchOp]; try (apply lanesExist_update; exact Hinv).
  - (* create_event *)
    destruct (assignedOwner event) as [[n|r]|]; try exact Hinv;
      unfold timelineEvent_create; cbn [e_weddingId e_laneId];
      destruct (timelineEvent db !! id event) eqn:He; try exact Hinv;
      destruct (wedding db !! weddingId); try exact Hinv;
      destruct (timelineLane db !! laneId event) eqn:Hl; try exact Hinv;
      intros k r'; cbn [fst timelineEvent timelineLane];
      (destruct (decide (id event = k)) as [<-|Hk];
       [ rewrite lookup_insert_eq; intros [= <-]; cbn [e_laneId];
         rewrite Hl; eauto
       | rewrite lookup_insert_ne by exact Hk; apply Hinv ]).
  - (* update_event_owner *)
    destruct ow; [apply lanesExist_update; exact Hinv | exact Hinv].
  - (* delete_event *)
    unfold timelineEvent_delete.
    destruct (timelineEvent db !! eid); [|exact Hinv].
    intros k r. cbn [fst timelineEvent timelineLane]. intros H.
    apply lookup_delete_Some in H as [_ H]. eapply Hinv; eauto.
  - (* create_lane *)
    unfold timelineLane_create.
    destruct (timelineLane db !! lane_id lane) eqn:Hl; [exact Hinv|].
    cbn [l_weddingId]. destruct (wedding db !! weddingId); [|exact Hinv].
    intros k r. cbn [fst timelineEvent timelineLane]. intros H.
    destruct (decide (lane_id lane = e_laneId r)) as [->|Hne].
    + rewrite lookup_insert_eq. eauto.
    + rewrite lookup_insert_ne by exact Hne. eapply Hinv; eauto.
  - (* update_lane *)
    unfold timelineLane_update.
    destruct (timelineLane db !! lid) eqn:Hl; [|exact Hinv].
    intros k r. cbn [fst timelineEvent timelineLane]. intros H.
    destruct (decide (lid = e_laneId r)) as [->|Hne].
    + rewrite lookup_insert_eq. eauto.
    + rewrite lookup_insert_ne by exact Hne. eapply Hinv; eauto.
  - (* delete_lane *)
    unfold bind, timelineEvent_deleteMany, timelineLane_delete.
    cbn [timelineLane].
    destruct (timelineLane db !! lid) eqn:Hl; cbn [fst].
    + intros k r. cbn [timelineEvent timelineLane]. intros H.
      apply map_lookup_filter_Some in H as [H Hne].
      apply map_lookup_filter_Some in H as [H _]. cbn in Hne.
      rewrite lookup_delete_ne by congruence. eapply Hinv; eauto.
    + intros k r. cbn [timelineEvent timelineLane]. intros H.
      apply map_lookup_filter_Some in H as [H _]. eapply Hinv; eauto.
Qed.

(** X19: referential integrity survives every publish: if every event row
    points at a lane row before [PUT], so it does after, whatever the
    request and whether it succeeds, fails half way or is rejected. *)
Theorem PUT_keeps_events_in_lanes
        (tzdb : string -> option Zone) (now : Z)
        (localTZA : JsDate.LocalTZA)
        (weddingId : string) (body : TimelineUpdateRequest) (db : Db) :
  lanesExist db ->
  lanesExist (PUT tzdb now localTZA weddingId body db).1.
Proof.
  intros Hinv.
  assert (Hops : forall ops ws we d, lanesExist d ->
             lanesExist (applyPatchOps localTZA weddingId ops ws we d).1).
  { induction ops as [|op ops IH]; intros ws we d Hd; [exact Hd|].
    cbn [applyPatchOps]. unfold bind.
    pose proof (lanesExist_applyPatchOp localTZA weddingId op ws we d Hd) as H1.
    destruct (applyPatchOp localTZA weddingId op ws we d) as [d1 [e|[]]];
      cbn [fst] in *; [exact H1|]. apply IH. exact H1. }
  unfold PUT, PUT_try, bind, wedding_findUnique, pure.
  destruct (wedding db !! weddingId) as [w|]; [|exact Hinv].
  destruct (negb _); [exact Hinv|].
  match goal with
  | |- context [applyPatchOps localTZA weddingId ?ops ?ws ?we db] =>
      pose proof (Hops ops ws we db Hinv) as H1;
      destruct (applyPatchOps localTZA weddingId ops ws we db) as [db1 [e|[]]]
  end; cbn [fst] in *; [exact H1|].
  unfold wedding_incrementVersion.
  destruct (wedding db1 !! weddingId) as [w1|]; [|exact H1].
  cbn [wedding]. rewrite lookup_insert_eq. exact H1.
Qed.

Lemma PUT_keeps_events_in_lanes_witness :
  let db := exampleDb false in
  let body := {| req_baseVersion := 3;
                 req_patchOps := [update_event_lane "e1" "nowhere"] |} in
  lanesExist db /\ lanesExist (PUT exampleTzdb 0 utcHost "w1" body db).1.
Proof.
  intros db body.
  assert (H : lanesExist db).
  { intros k row Hk. unfold db, exampleDb in Hk. cbn [timelineEvent] in Hk.
    apply lookup_singleton_Some in Hk as [_ <-].
    eexists. vm_compute. reflexivity. }
  split; [exact H|].
  exact (PUT_keeps_events_in_lanes exampleTzdb 0 utcHost "w1" body db H).
Defined.


(** On a server in America/New_York, [setSeconds(0, 0)] on an instant of
    the second pass of the hour that the night of 2026-11-01 repeats
    (06:00 to 07:00 UTC) gives the start of its minute in the first pass,
    one hour earlier. *)
Lemma setSecondsZero_newYork_repeated_hour (t : Z) :
  utcInstant 2026 11 1 6 0 0 <= t < utcInstant 2026 11 1 7 0 0 ->
  setSecondsZero newYorkHost t = t - t mod MS_PER_MINUTE - MS_PER_HOUR.
Proof.
  change (utcInstant 2026 11 1 6 0 0) with 1793512800000.
  change (utcInstant 2026 11 1 7 0 0) with 1793516400000.
  intros Ht.
  pose proof (Z.mod_pos_bound t MS_PER_MINUTE eq_refl) as Bm.
  unfold setSecondsZero, JsDate.LocalTime, JsDate.UTC, newYorkHost.
  assert (Ho : usEasternOffset t = -300).
  { unfold usEasternOffset.
    replace (t / MS_PER_DAY) with 20758
      by (apply (Z.div_unique t MS_PER_DAY 20758 (t - 20758 * MS_PER_DAY));
          unfold MS_PER_DAY; lia).
    change (civilFromDays 20758) with (2026, 11, 1). cbv beta iota zeta.
    change (nthSunday 2026 3 2 * MS_PER_DAY + 7 * MS_PER_HOUR)
      with 1772953200000.
    change (nthSunday 2026 11 1 * MS_PER_DAY + 6 * MS_PER_HOUR)
      with 1793512800000.
    destruct (Z.leb_spec 1772953200000 t); [|lia].
    destruct (Z.ltb_spec t 1793512800000); [lia|]. reflexivity. }
  rewrite Ho.
  change (-300 * MS_PER_MINUTE) with (-300 * MS_PER_MINUTE + 0).
  replace ((t + (-300 * MS_PER_MINUTE + 0)) mod MS_PER_MINUTE)
    with (t mod MS_PER_MINUTE)
    by (rewrite Z.add_0_r; symmetry; apply Z_mod_plus_full).
  rewrite Z.add_0_r.
  set (l := t + -300 * MS_PER_MINUTE - t mod MS_PER_MINUTE).
  assert (Hl : 1793494800000 - 59999 <= l < 1793498400000)
    by (subst l; unfold MS_PER_MINUTE in *; lia).
  assert (Hl' : 1793494800000 <= l).
  { (* l is a multiple of a minute *)
    assert (Hdiv : (MS_PER_MINUTE | l)).
    { subst l. exists (t / MS_PER_MINUTE - 300).
      pose proof (Z.div_mod t MS_PER_MINUTE ltac:(discriminate)). lia. }
    destruct Hdiv as [q Hq]. unfold MS_PER_MINUTE in *. lia. }
  assert (Hol : usEasternLocalOffset l = -240).
  { unfold usEasternLocalOffset.
    replace (l / MS_PER_DAY) with 20758
      by (apply (Z.div_unique l MS_PER_DAY 20758 (l - 20758 * MS_PER_DAY));
          unfold MS_PER_DAY; lia).
    change (civilFromDays 20758) with (2026, 11, 1). cbv beta iota zeta.
    change (nthSunday 2026 3 2 * MS_PER_DAY + 3 * MS_PER_HOUR)
      with 1772938800000.
    change (nthSunday 2026 11 1 * MS_PER_DAY + 2 * MS_PER_HOUR)
      with 1793498400000.
    destruct (Z.leb_spec 1772938800000 l); [|lia].
    destruct (Z.ltb_spec l 1793498400000); [|lia]. reflexivity. }
  rewrite Hol. subst l. unfold MS_PER_MINUTE, MS_PER_HOUR. lia.
Qed.

(** X20: [update_event_time] stores what it is given, without checking
    the order or the duration: for an existing event the op succeeds and
    stores the start raised to the window start and the end lowered to the
    window end, both after [setSeconds(0, 0)] in the time of the server.
    On a server whose zone has a fixed offset of whole minutes the stored
    start and end are on minute boundaries, the stored end is not after
    the end of the window, for a minute-aligned window start the stored
    start is not before it, and when the given end is not after the given
    start, the stored end is not after the stored start.  On a server in
    America/New_York a start in the second pass of the hour that the
    night of 2026-11-01 repeats is stored an hour before its minute. *)
Theorem update_event_time_stores_unvalidated
        (localTZA : JsDate.LocalTZA) (off : Z)
        (weddingId eventId : string) (s e ws we : Z) (db : Db)
        (row : TimelineEventRow) :
  timelineEvent db !! eventId = Some row ->
  let start := if s <? ws then ws else s in
  let end_ := if e >? we then we else e in
  (exists row' : TimelineEventRow,
      applyPatchOp localTZA weddingId (update_event_time eventId s e) ws we db
      = (withEvent eventId row' db, inr tt)
      /\ e_startUtc row' = setSecondsZero localTZA start
      /\ e_endUtc row' = setSecondsZero localTZA end_)
  /\ (let start' := setSecondsZero (fixedHost off) start in
      let end' := setSecondsZero (fixedHost off) end_ in
      minuteAligned start' /\ minuteAligned end'
      /\ end' <= we
      /\ (minuteAligned ws -> ws <= start')
      /\ (e <= s -> end' <= start'))
  /\ (utcInstant 2026 11 1 6 0 0 <= start < utcInstant 2026 11 1 7 0 0 ->
      setSecondsZero newYorkHost start
      = start - start mod MS_PER_MINUTE - MS_PER_HOUR).
Proof.
  intros Hrow start end_. split; [|split].
  - eexists. split.
    + cbn [applyPatchOp]. apply timelineEvent_update_found; [exact Hrow|].
      left. reflexivity.
    + cbn [e_startUtc e_endUtc]. split; reflexivity.
  - cbv zeta. rewrite !setSecondsZero_fixedHost. unfold minuteAligned.
    assert (Hs' : s <= start /\ ws <= start)
      by (subst start; destruct (Z.ltb_spec s ws); lia).
    assert (He' : end_ <= e /\ end_ <= we)
      by (subst end_; destruct (Z.gtb_spec e we); lia).
    clearbody start end_.
    pose proof (Z.mod_pos_bound start MS_PER_MINUTE eq_refl) as Bs.
    pose proof (Z.mod_pos_bound end_ MS_PER_MINUTE eq_refl) as Be.
    pose proof (Z.div_mod start MS_PER_MINUTE ltac:(discriminate)) as Es.
    pose proof (Z.div_mod end_ MS_PER_MINUTE ltac:(discriminate)) as Ee.
    assert (As : (start - start mod MS_PER_MINUTE) mod MS_PER_MINUTE = 0).
    { apply Z.mod_divide; [discriminate|].
      exists (start / MS_PER_MINUTE). lia. }
    assert (Ae : (end_ - end_ mod MS_PER_MINUTE) mod MS_PER_MINUTE = 0).
    { apply Z.mod_divide; [discriminate|].
      exists (end_ / MS_PER_MINUTE). lia. }
    split; [exact As|]. split; [exact Ae|]. split; [lia|]. split.
    + intros Hws.
      pose proof (Z.div_mod ws MS_PER_MINUTE ltac:(discriminate)) as Ew.
      rewrite Hws in Ew.
      assert (ws / MS_PER_MINUTE <= start / MS_PER_MINUTE)
        by (apply Z.div_le_mono; [reflexivity | lia]).
      unfold MS_PER_MINUTE in *. lia.
    + intros Hes.
      assert (end_ / MS_PER_MINUTE <= start / MS_PER_MINUTE)
        by (apply Z.div_le_mono; [reflexivity | lia]).
      unfold MS_PER_MINUTE in *. lia.
  - apply setSecondsZero_newYork_repeated_hour.
Qed.

Lemma update_event_time_stores_unvalidated_witness :
  let db := exampleDb false in
  timelineEvent db !! "e1" = Some (exampleEvent "Vows" false)
  /\ (exists row' : TimelineEventRow,
         applyPatchOp utcHost "w1"
           (update_event_time "e1" 1792249200000 1792245600000)
           1792220400000 1792306800000 db
         = (withEvent "e1" row' db, inr tt)
         /\ e_startUtc row' = 1792249200000
         /\ e_endUtc row' = 1792245600000)
  /\ (exists row' : TimelineEventRow,
         applyPatchOp newYorkHost "w1"
           (update_event_time "e1" (utcInstant 2026 11 1 6 10 30)
                                   (utcInstant 2026 11 1 6 40 0))
           (utcInstant 2026 11 1 6 0 0) (utcInstant 2026 11 2 6 0 0) db
         = (withEvent "e1" row' db, inr tt)
         /\ e_startUtc row' = utcInstant 2026 11 1 5 10 0).
Proof.
  intros db.
  assert (H : timelineEvent db !! "e1" = Some (exampleEvent "Vows" false))
    by (vm_compute; reflexivity).
  split; [exact H|]. split.
  - destruct (update_event_time_stores_unvalidated utcHost 0 "w1" "e1"
                1792249200000 1792245600000 1792220400000 1792306800000 db _ H)
      as ((row' & Hop & Hs & He) & _).
    exists row'. split; [exact Hop|].
    split; [rewrite Hs | rewrite He]; vm_compute; reflexivity.
  - destruct (update_event_time_stores_unvalidated newYorkHost 0 "w1" "e1"
                (utcInstant 2026 11 1 6 10 30) (utcInstant 2026 11 1 6 40 0)
                (utcInstant 2026 11 1 6 0 0) (utcInstant 2026 11 2 6 0 0)
                db _ H)
      as ((row' & Hop & Hs & _) & _ & Hny).
    exists row'. split; [exact Hop|].
    rewrite Hs, Hny; vm_compute; [reflexivity | split; congruence].
Defined.

(** X21: the ops are not confined to the wedding of the request: an event
    of another wedding is found by its id alone, so a publish to one
    wedding (at that wedding's version) that deletes or retitles it is
    answered with status 200 and changes the other wedding's event, whose
    own version stays as it is. *)
Theorem publish_reaches_other_weddings
        (tzdb : string -> option Zone) (now : Z)
        (localTZA : JsDate.LocalTZA) (weddingId : string)
        (w : Wedding) (db : Db) (eventId : string) (row : TimelineEventRow)
        (t : string) :
  wedding db !! weddingId = Some w ->
  timelineEvent db !! eventId = Some row ->
  e_weddingId row <> weddingId ->
  let publish := fun op : PatchOp =>
    PUT tzdb now localTZA weddingId
        {| req_baseVersion := timelineVersion w; req_patchOps := [op] |} db in
  (httpStatus (publish (delete_event eventId)).2 = 200
   /\ timelineEvent (publish (delete_event eventId)).1 !! eventId = None)
  /\ (httpStatus (publish (update_event_title eventId t)).2 = 200
      /\ e_title <$> timelineEvent
            (publish (update_event_title eventId t)).1 !! eventId = Some t)
  /\ (forall op, wedding (publish op).1 !! e_weddingId row
                 = wedding db !! e_weddingId row).
Proof.
  intros Hw Hrow Hother publish.
  assert (Hput : forall (op : PatchOp) (db1 : Db),
             applyPatchOp localTZA weddingId op (putWindow tzdb now w).1
                          (putWindow tzdb now w).2 db = (db1, inr tt) ->
             httpStatus (publish op).2 = 200
             /\ timelineEvent (publish op).1 = timelineEvent db1).
  { intros op db1 Hop. subst publish. cbv beta.
    destruct (PUT_ops_succeed tzdb now localTZA weddingId
                {| req_baseVersion := timelineVersion w;
                   req_patchOps := [op] |} db db1 w Hw eq_refl)
      as (snapshot & -> & _).
    - cbn [req_patchOps applyPatchOps]. unfold bind. rewrite Hop. reflexivity.
    - split; reflexivity. }
  split; [|split].
  - destruct (Hput (delete_event eventId)
                (mkDb (wedding db) (timelineLane db)
                      (delete eventId (timelineEvent db))
                      (timelineBackgroundBand db))) as [H1 H2].
    + cbn [applyPatchOp]. unfold timelineEvent_delete. rewrite Hrow.
      reflexivity.
    + split; [exact H1|]. rewrite H2. apply lookup_delete_eq.
  - set (f := fun r : TimelineEventRow =>
                mkEventRow (e_weddingId r) (e_laneId r) t
                  (e_startUtc r) (e_endUtc r) (e_category r)
                  (e_assignedOwnerType r) (e_assignedOwnerId r)
                  (e_assignedOwnerName r) (e_status r) (e_locked r)
                  (e_notes r)).
    destruct (Hput (update_event_title eventId t)
                (withEvent eventId (f row) db)) as [H1 H2].
    + cbn [applyPatchOp].
      apply (timelineEvent_update_found eventId f db row Hrow).
      left. reflexivity.
    + split; [exact H1|]. rewrite H2. cbn [withEvent timelineEvent].
      rewrite lookup_insert_eq. reflexivity.
  - intros op. subst publish. cbv beta.
    unfold PUT, PUT_try, bind, wedding_findUnique, pure. rewrite Hw.
    rewrite Z.eqb_refl. cbn [negb req_baseVersion req_patchOps].
    pose proof (applyPatchOps_wedding localTZA weddingId [op]
                  (putWindow tzdb now w).1 (putWindow tzdb now w).2 db) as Hwed.
    unfold putWindow in Hwed. cbn [fst snd] in Hwed.
    destruct (applyPatchOps _ _ _ _ _ db) as [db1 [err|[]]]; cbn [fst] in Hwed.
    + cbn [fst]. rewrite Hwed. reflexivity.
    + unfold wedding_incrementVersion. rewrite Hwed, Hw.
      cbn [wedding]. rewrite lookup_insert_eq. cbn [fst wedding].
      apply lookup_insert_ne. congruence.
Qed.

Lemma publish_reaches_other_weddings_witness :
  let db := mkDb (<["w2" := mkWedding "2027-05-01" "America/New_York" 9]>
                    (wedding (exampleDb false)))
                 (timelineLane (exampleDb false))
                 (timelineEvent (exampleDb false))
                 (timelineBackgroundBand (exampleDb false)) in
  let w2 := mkWedding "2027-05-01" "America/New_York" 9 in
  (wedding db !! "w2" = Some w2
   /\ timelineEvent db !! "e1" = Some (exampleEvent "Vows" false)
   /\ e_weddingId (exampleEvent "Vows" false) <> "w2")
  /\ timelineEvent
       (PUT exampleTzdb 0 utcHost "w2"
            {| req_baseVersion := 9; req_patchOps := [delete_event "e1"] |}
            db).1 !! "e1" = None.
Proof.
  intros db w2.
  assert (H1 : wedding db !! "w2" = Some w2) by (vm_compute; reflexivity).
  assert (H2 : timelineEvent db !! "e1" = Some (exampleEvent "Vows" false))
    by (vm_compute; reflexivity).
  assert (H3 : e_weddingId (exampleEvent "Vows" false) <> "w2")
    by (cbn; discriminate).
  split; [repeat split; assumption|].
  exact (proj2 (proj1 (publish_reaches_other_weddings
                         exampleTzdb 0 utcHost "w2" w2 db
                         "e1" _ "x" H1 H2 H3))).
Defined.

(** X22: reading after a successful publish: [GET] on the database that
    [PUT] left returns status 200 with the version, the window and the
    bands of the snapshot that [PUT] returned, and the same events in the
    same order, except that [GET] sends the owner of an event as its name
    (or null) where the snapshot of [PUT] has an owner object, and the
    same lanes by id in the same order. *)
Theorem GET_after_PUT
        (tzdb : string -> option Zone) (now : Z)
        (localTZA : JsDate.LocalTZA)
        (weddingId : string) (body : TimelineUpdateRequest)
        (db db' : Db) (snapshot : TimelineResponse) :
  PUT tzdb now localTZA weddingId body db = (db', Json200 snapshot) ->
  exists fresh : TimelineResponse,
    GET tzdb now weddingId db' = Json200 fresh
    /\ version fresh = version snapshot
    /\ Types.windowStartUtc fresh = Types.windowStartUtc snapshot
    /\ Types.windowEndUtc fresh = Types.windowEndUtc snapshot
    /\ events fresh = ownerAsName <$> events snapshot
    /\ lane_id <$> lanes fresh = lane_id <$> lanes snapshot
    /\ bands fresh = bands snapshot.
Proof.
  unfold PUT, PUT_try, bind, wedding_findUnique, pure.
  destruct (wedding db !! weddingId) as [w|] eqn:Hw; [|discriminate].
  destruct (negb _); [discriminate|].
  destruct (applyPatchOps _ _ _ _ _ db) as [db1 [e|[]]]; [discriminate|].
  unfold wedding_incrementVersion.
  destruct (wedding db1 !! weddingId) as [w1|] eqn:Hw1; [|discriminate].
  cbn [wedding]. rewrite lookup_insert_eq. cbn [getFullTimeline].
  intros [= <- <-].
  unfold GET. cbn [wedding]. rewrite lookup_insert_eq.
  eexists. split; [reflexivity|].
  cbn [version Types.windowStartUtc Types.windowEndUtc events lanes bands
       w_weddingDate w_venueTimezone timelineVersion].
  repeat split.
  - rewrite <- list_fmap_compose. apply list_fmap_ext. intros i [k r] _.
    reflexivity.
  - rewrite <- !list_fmap_compose. apply list_fmap_ext. intros i [k r] _.
    reflexivity.
Qed.

Lemma GET_after_PUT_witness :
  let db := exampleDb false in
  let body := {| req_baseVersion := 3;
                 req_patchOps := [update_event_title "e1" "Changed"] |} in
  let r := PUT exampleTzdb 0 utcHost "w1" body db in
  exists snapshot,
    r = (r.1, Json200 snapshot)
    /\ (title <$> events snapshot = ["Changed"]
        /\ httpStatus (GET exampleTzdb 0 "w1" r.1) = 200).
Proof.
  intros db body r.
  assert (Hr : exists snapshot, r = (r.1, Json200 snapshot)
                                /\ title <$> events snapshot = ["Changed"])
    by (eexists; split; vm_compute; reflexivity).
  destruct Hr as (snapshot & Hr & Ht). exists snapshot.
  split; [exact Hr|]. split; [exact Ht|].
  destruct (GET_after_PUT exampleTzdb 0 utcHost "w1" body db r.1 snapshot Hr)
    as (fresh & -> & _).
  reflexivity.
Defined.

(** X23: the update ops on an event id that is not in the event table
    (the owner a name) throw the record-not-found error (P2025) and write
    nothing; an owner given as an object is refused before the lookup
    (validation error), whether the event exists or not. *)
Theorem update_ops_on_missing_event (localTZA : JsDate.LocalTZA)
        (weddingId eventId : string) (ws we : Z) (db : Db) :
  timelineEvent db !! eventId = None ->
  (forall s e, applyPatchOp localTZA weddingId
                 (update_event_time eventId s e) ws we db
               = (db, inl P2025))
  /\ (forall l, applyPatchOp localTZA weddingId
                  (update_event_lane eventId l) ws we db
                = (db, inl P2025))
  /\ (forall t, applyPatchOp localTZA weddingId
                  (update_event_title eventId t) ws we db
                = (db, inl P2025))
  /\ (forall n, applyPatchOp localTZA weddingId
                  (update_event_owner eventId (OwnerName n)) ws we db
                = (db, inl P2025))
  /\ (forall any r, applyPatchOp localTZA weddingId
                      (update_event_owner any (OwnerObject r)) ws we db
                    = (db, inl ValidationError)).
Proof.
  intros Hnone. repeat split; intros; cbn [applyPatchOp];
    unfold timelineEvent_update, throw; rewrite ?Hnone; reflexivity.
Qed.

Lemma update_ops_on_missing_event_witness :
  timelineEvent (exampleDb false) !! "ghost" = None
  /\ applyPatchOp utcHost "w1" (update_event_title "ghost" "x") 0 0
                  (exampleDb false)
     = (exampleDb false, inl P2025).
Proof.
  assert (H : timelineEvent (exampleDb false) !! "ghost" = None)
    by (vm_compute; reflexivity).
  split; [exact H|].
  exact (proj1 (proj2 (proj2
    (update_ops_on_missing_event utcHost "w1" "ghost" 0 0
       (exampleDb false) H))) "x").
Defined.

End MoreRoute.

(** ** More on the session controller *)

Section MoreSession.
Import Types Draft History UseTimeline UseTimelineActions.

Lemma fold_addPatchOp (ops : list PatchOp) :
  forall d : DraftState,
    patchOps (fold_left addPatchOp ops d) = patchOps d ++ ops
    /\ baseVersion (fold_left addPatchOp ops d) = baseVersion d.
Proof.
  induction ops as [|op ops IH]; intros d; cbn [fold_left].
  - rewrite app_nil_r. split; reflexivity.
  - destruct (IH (addPatchOp d op)) as [H1 H2]. rewrite H1, H2. cbn.
    rewrite <- app_assoc. split; reflexivity.
Qed.

(** An edit returns when the capacity of the history is not negative
    (the trimming loop ends), and this is the session it returns. *)
Lemma applyPatch_returns (fuel : nat) (ops : list PatchOp) (s : Session) :
  0 <= maxSize (history s) ->
  (length (past (history s)) + 1 < fuel)%nat ->
  applyPatch fuel ops s
  = Some (mkSession (timeline s) (isLoading s) (error s)
            (fold_left addPatchOp ops (draft s))
            {| past := drop (length (past (history s)) + 1
                             - Z.to_nat (maxSize (history s)))
                            (past (history s) ++ [ops]);
               future := [];
               maxSize := maxSize (history s) |}
            (selectedEventId s)).
Proof.
  intros Hm Hfuel. unfold applyPatch.
  rewrite recordAction_returns by assumption. reflexivity.
Qed.

Lemma slice0_app_length {A : Type} (l b : list A) :
  slice0 (l ++ b) (Z.of_nat (length (l ++ b)) - Z.of_nat (length b)) = l.
Proof.
  unfold slice0. rewrite length_app.
  destruct (Z.ltb_spec (Z.of_nat (length l + length b) - Z.of_nat (length b)) 0);
    [lia|].
  replace (Z.to_nat (Z.of_nat (length l + length b) - Z.of_nat (length b)))
    with (length l) by lia.
  apply take_app_length.
Qed.

(** X24: a publish that does not succeed loses no edit: for a dirty draft
    with ops, when the answer is a conflict, another error status or a
    failure of the call, [publish] returns false after exactly one PUT
    request that carries the base version and the ops of the draft, and
    only the error message of the session changes: the timeline, the draft,
    the history and the selection are as before. *)
Theorem publish_failure_keeps_edits
        (fetch : Request -> FetchResult) (weddingId : string) (s : Session) :
  isDirty (draft s) = true ->
  patchOps (draft s) <> [] ->
  let request :=
    {| rq_url := String.concat "" ["/api/weddings/"; weddingId; "/timeline"];
       rq_method := "PUT";
       rq_body := {| req_baseVersion := baseVersion (draft s);
                     req_patchOps := patchOps (draft s) |} |} in
  (forall data, fetch request <> Ok data) ->
  exists message : string,
    publish fetch weddingId s = (false, setError s (Some message), [request]).
Proof.
  intros Hdirty Hops request Hfail. unfold publish.
  rewrite Hdirty. cbn [negb orb].
  destruct (patchOps (draft s)) as [|op ops] eqn:E; [contradiction|].
  cbn [length Nat.eqb]. fold request.
  destruct (fetch request) as [msg|v|st|data] eqn:F.
  - eexists; reflexivity.
  - eexists; reflexivity.
  - eexists; reflexivity.
  - exfalso. apply (Hfail data). reflexivity.
Qed.

Lemma publish_failure_keeps_edits_witness :
  let s := {| timeline := None; isLoading := false; error := None;
              draft := addPatchOp (createDraftState 3) (delete_event "e1");
              history := createHistory 50;
              selectedEventId := None |} in
  (isDirty (draft s) = true /\ patchOps (draft s) <> [])
  /\ exists message, publish (fun _ => Status409 4) "w1" s
       = (false, setError s (Some message),
          [mkRequest "/api/weddings/w1/timeline" "PUT"
                     (mkUpdateRequest 3 [delete_event "e1"])]).
Proof.
  intros s.
  assert (H1 : isDirty (draft s) = true) by reflexivity.
  assert (H2 : patchOps (draft s) <> []) by (cbn; discriminate).
  split; [split; assumption|].
  apply (publish_failure_keeps_edits (fun _ => Status409 4) "w1" s H1 H2).
  intros data. discriminate.
Defined.

(** X25: a publish that succeeds starts a new epoch: for a dirty draft
    with ops and an ok answer, [publish] returns true after one request,
    the timeline is the returned snapshot, the draft is clean at the
    returned version, both history stacks are empty, the preview shows the
    events of the snapshot, and publishing again sends no request. *)
Theorem publish_success_resets
        (fetch fetch' : Request -> FetchResult) (weddingId : string)
        (s : Session) (data : TimelineResponse) :
  isDirty (draft s) = true ->
  patchOps (draft s) <> [] ->
  fetch {| rq_url := String.concat ""
                       ["/api/weddings/"; weddingId; "/timeline"];
           rq_method := "PUT";
           rq_body := {| req_baseVersion := baseVersion (draft s);
                         req_patchOps := patchOps (draft s) |} |} = Ok data ->
  exists (s' : Session) (request : Request),
    publish fetch weddingId s = (true, s', [request])
    /\ timeline s' = Some data
    /\ draft s' = createDraftState (version data)
    /\ past (history s') = [] /\ future (history s') = []
    /\ maxSize (history s') = maxSize (history s)
    /\ error s' = None
    /\ displayEvents s' = events data
    /\ publish fetch' weddingId s' = (true, s', []).
Proof.
  intros Hdirty Hops Hok. unfold publish at 1.
  rewrite Hdirty. cbn [negb orb].
  destruct (patchOps (draft s)) as [|op ops] eqn:E; [contradiction|].
  cbn [length Nat.eqb]. rewrite Hok.
  eexists. eexists. split; [reflexivity|].
  cbn. repeat split.
Qed.

Lemma publish_success_resets_witness :
  let s := {| timeline := None; isLoading := false; error := None;
              draft := addPatchOp (createDraftState 3) (delete_event "e1");
              history := createHistory 50;
              selectedEventId := None |} in
  let data := mkTimeline 4 "America/New_York" "2026-10-17" None None [] [] [] in
  (isDirty (draft s) = true /\ patchOps (draft s) <> [])
  /\ exists s' request,
       publish (fun _ => Ok data) "w1" s = (true, s', [request])
       /\ draft s' = createDraftState 4.
Proof.
  intros s data.
  assert (H1 : isDirty (draft s) = true) by reflexivity.
  assert (H2 : patchOps (draft s) <> []) by (cbn; discriminate).
  split; [split; assumption|].
  destruct (publish_success_resets (fun _ => Ok data) (fun _ => Ok data)
              "w1" s data H1 H2 eq_refl) as (s' & rq & Hp & _ & Hd & _).
  exists s', rq. split; assumption.
Defined.

(** With the last batch [b] of the past, the ops of the draft are the ops
    before that batch followed by [b]. *)
Lemma draft_ops_split (s : Session) (older b : list PatchOp) :
  patchOps (draft s) = older ++ concat (past (history s)) ->
  last (past (history s)) = Some b ->
  patchOps (draft s)
  = (older ++ concat (removelast (past (history s)))) ++ b.
Proof.
  intros Hd Hlast. rewrite Hd.
  rewrite (last_snoc_inv _ _ Hlast) at 1.
  rewrite concat_app. cbn [concat]. rewrite app_nil_r, app_assoc.
  reflexivity.
Qed.

Lemma draftTracksHistory_undo (s : Session) :
  draftTracksHistory s -> draftTracksHistory (undo s).
Proof.
  intros [older Hd]. unfold undo, History.undo.
  destruct (last (past (history s))) as [b|] eqn:Hlast; [|exists older; exact Hd].
  pose proof (draft_ops_split s older b Hd Hlast) as Hsplit.
  cbn [history draft patchOps past].
  exists older. rewrite Hsplit. apply slice0_app_length.
Qed.

Lemma draftTracksHistory_redo (s : Session) :
  draftTracksHistory s -> draftTracksHistory (redo s).
Proof.
  intros [older Hd]. unfold redo, History.redo.
  destruct (future (history s)) as [|b rest]; [exists older; exact Hd|].
  exists older. cbn [history draft patchOps past].
  rewrite Hd, concat_app. cbn [concat].
  rewrite app_nil_r, app_assoc. reflexivity.
Qed.

Lemma draftTracksHistory_applyPatch (fuel : nat) (ops : list PatchOp)
      (s : Session) :
  draftTracksHistory s ->
  0 <= maxSize (history s) ->
  (length (past (history s)) + 1 < fuel)%nat ->
  exists s' : Session,
    applyPatch fuel ops s = Some s' /\ draftTracksHistory s'.
Proof.
  intros [older Hd] Hm Hfuel. eexists.
  split; [apply applyPatch_returns; assumption|].
  set (k := (length (past (history s)) + 1
             - Z.to_nat (maxSize (history s)))%nat).
  exists (older ++ concat (take k (past (history s) ++ [ops]))).
  cbn [history draft past].
  destruct (fold_addPatchOp ops (draft s)) as [-> _].
  rewrite <- app_assoc, <- concat_app, take_drop.
  rewrite Hd, concat_app. cbn [concat].
  rewrite app_nil_r, app_assoc. reflexivity.
Qed.

(** X26: in every state of the session that the actions build, the ops
    of the draft end with the ops of the undoable batches in order: this
    is kept by undo, redo, discard, publish (whatever the answer), refresh
    and by an edit, which returns when the capacity of the history is not
    negative; so undo, which cuts the draft by the length of the last
    batch, removes exactly the ops of that batch. *)
Theorem draft_ends_with_undoable_ops (s : Session) :
  draftTracksHistory s ->
  draftTracksHistory (undo s)
  /\ draftTracksHistory (redo s)
  /\ draftTracksHistory (discard s)
  /\ (forall fetch weddingId, draftTracksHistory (publish fetch weddingId s).1.2)
  /\ (forall answer, draftTracksHistory (refresh answer s))
  /\ (forall fuel ops,
         0 <= maxSize (history s) ->
         (length (past (history s)) + 1 < fuel)%nat ->
         exists s', applyPatch fuel ops s = Some s' /\ draftTracksHistory s')
  /\ (forall b, last (past (history s)) = Some b ->
                patchOps (draft s) = patchOps (draft (undo s)) ++ b).
Proof.
  intros Hinv.
  split; [apply draftTracksHistory_undo; exact Hinv|].
  split; [apply draftTracksHistory_redo; exact Hinv|].
  split; [exists []; reflexivity|].
  split; [|split; [|split]].
  - intros fetch weddingId. unfold publish.
    destruct (negb _ || _); [exact Hinv|].
    destruct (fetch _); try exact Hinv. exists []. reflexivity.
  - intros [msg|v|st|data]; try exact Hinv. exists []. reflexivity.
  - intros fuel ops. apply draftTracksHistory_applyPatch. exact Hinv.
  - intros b Hlast. destruct Hinv as [older Hd].
    pose proof (draft_ops_split s older b Hd Hlast) as Hsplit.
    unfold undo, History.undo. rewrite Hlast.
    cbn [draft patchOps].
    rewrite Hsplit at 2 3. rewrite slice0_app_length. exact Hsplit.
Qed.

Lemma draft_ends_with_undoable_ops_witness :
  let s := {| timeline := None; isLoading := false; error := None;
              draft := {| baseVersion := 3;
                          patchOps := [delete_event "e1";
                                       update_event_title "e2" "Toast";
                                       delete_lane "lane2"];
                          isDirty := true |};
              history := {| past := [[update_event_title "e2" "Toast"];
                                     [delete_lane "lane2"]];
                            future := []; maxSize := 50 |};
              selectedEventId := None |} in
  draftTracksHistory s
  /\ draftTracksHistory (undo s)
  /\ patchOps (draft (undo s))
     = [delete_event "e1"; update_event_title "e2" "Toast"]
  /\ exists s', applyPatch 4 [delete_event "e3"] s = Some s'
                /\ draftTracksHistory s'.
Proof.
  intros s.
  assert (H : draftTracksHistory s)
    by (exists [delete_event "e1"]; reflexivity).
  destruct (draft_ends_with_undoable_ops s H)
    as (Hundo & _ & _ & _ & _ & Hedit & Hlast).
  split; [exact H|]. split; [exact Hundo|]. split.
  - specialize (Hlast [delete_lane "lane2"] eq_refl).
    apply (app_inv_tail [delete_lane "lane2"]). symmetry. exact Hlast.
  - apply Hedit; cbn; lia.
Defined.

(** X27: an edit can be undone: for a history whose capacity is not
    negative [applyPatch] returns, with the ops appended to the draft;
    when the capacity is at least 1, [undo] after it gives back the ops of
    the draft and the preview of before the edit and makes the batch
    redoable, and [redo] after that gives the ops of the edited draft
    again; with the capacity 0 the edit stays in the draft and [undo] does
    nothing. *)
Theorem edit_then_undo (fuel : nat) (ops : list PatchOp) (s : Session) :
  0 <= maxSize (history s) ->
  (length (past (history s)) + 1 < fuel)%nat ->
  exists s1 : Session,
    applyPatch fuel ops s = Some s1
    /\ patchOps (draft s1) = patchOps (draft s) ++ ops
    /\ (1 <= maxSize (history s) ->
        patchOps (draft (undo s1)) = patchOps (draft s)
        /\ future (history (undo s1)) = [ops]
        /\ displayEvents (undo s1) = displayEvents s
        /\ patchOps (draft (redo (undo s1))) = patchOps (draft s1))
    /\ (maxSize (history s) = 0 -> undo s1 = s1).
Proof.
  intros Hm Hfuel. eexists.
  split; [apply applyPatch_returns; assumption|].
  destruct (fold_addPatchOp ops (draft s)) as [Hops Hbase].
  cbn [draft history]. split; [exact Hops|].
  set (k := (length (past (history s)) + 1
             - Z.to_nat (maxSize (history s)))%nat).
  split.
  - intros H1.
    assert (Hk : (k <= length (past (history s)))%nat) by (subst k; lia).
    assert (Hdrop : drop k (past (history s) ++ [ops])
                    = drop k (past (history s)) ++ [ops]).
    { rewrite drop_app.
      replace (k - length (past (history s)))%nat with O by lia.
      reflexivity. }
    unfold undo, History.undo. cbn [history past future].
    rewrite Hdrop, list.last_snoc. cbn [draft patchOps history future].
    assert (Hslice : slice0 (patchOps (fold_left addPatchOp ops (draft s)))
                       (Z.of_nat (length (patchOps
                                   (fold_left addPatchOp ops (draft s))))
                        - Z.of_nat (length ops))
                     = patchOps (draft s))
      by (rewrite Hops; apply slice0_app_length).
    rewrite Hslice. split; [reflexivity|]. split; [reflexivity|].
    split.
    + unfold displayEvents. cbn [timeline draft patchOps]. reflexivity.
    + unfold redo, History.redo. cbn [history future draft patchOps].
      rewrite Hops. reflexivity.
  - intros H0.
    assert (Hnil : drop k (past (history s) ++ [ops]) = []).
    { apply drop_ge. rewrite length_app. cbn [length]. subst k. lia. }
    unfold undo, History.undo. cbn [history past]. rewrite Hnil.
    reflexivity.
Qed.

Lemma edit_then_undo_witness :
  let s := {| timeline := None; isLoading := false; error := None;
              draft := addPatchOp (createDraftState 3) (delete_event "e0");
              history := createHistory 50;
              selectedEventId := None |} in
  (0 <= maxSize (history s) /\ (length (past (history s)) + 1 < 3)%nat)
  /\ exists s1,
       applyPatch 3 [delete_event "e1"] s = Some s1
       /\ patchOps (draft s1) = [delete_event "e0"; delete_event "e1"]
       /\ patchOps (draft (undo s1)) = [delete_event "e0"].
Proof.
  intros s.
  assert (H1 : 0 <= maxSize (history s)) by (cbn; lia).
  assert (H2 : (length (past (history s)) + 1 < 3)%nat) by (cbn; lia).
  split; [split; assumption|].
  destruct (edit_then_undo 3 [delete_event "e1"] s H1 H2)
    as (s1 & Happ & Hops & Hu & _).
  exists s1. split; [exact Happ|]. split; [exact Hops|].
  apply Hu. cbn. lia.
Defined.

(** X28: undo then redo restores the session: when the ops of the draft
    end with the ops of the undoable batches, the past is not empty and
    the draft is dirty, [redo] after [undo] gives back the session as it
    was. *)
Theorem session_undo_then_redo (s : Session) :
  draftTracksHistory s ->
  past (history s) <> [] ->
  isDirty (draft s) = true ->
  redo (undo s) = s.
Proof.
  intros [older Hd] Hne Hdirty.
  destruct (last (past (history s))) as [b|] eqn:Hlast;
    [|apply list.last_None in Hlast; contradiction].
  pose proof (last_snoc_inv _ _ Hlast) as Hp.
  unfold undo, History.undo. rewrite Hlast.
  unfold redo, History.redo. cbn [history future draft patchOps past
    baseVersion timeline isLoading error selectedEventId maxSize].
  pose proof (draft_ops_split s older b Hd Hlast) as Hsplit.
  assert (Hslice : slice0 (patchOps (draft s))
                     (Z.of_nat (length (patchOps (draft s)))
                      - Z.of_nat (length b)) ++ b
                   = patchOps (draft s)).
  { rewrite Hsplit at 1 2. rewrite slice0_app_length. symmetry. exact Hsplit. }
  rewrite Hslice, <- Hp, <- Hdirty.
  destruct s as [tl il er [bv po dirty] [p f m] sel]. reflexivity.
Qed.

Lemma session_undo_then_redo_witness :
  let s := {| timeline := None; isLoading := false; error := None;
              draft := addPatchOp (createDraftState 3) (delete_event "e1");
              history := {| past := [[delete_event "e1"]]; future := [];
                            maxSize := 50 |};
              selectedEventId := None |} in
  (draftTracksHistory s /\ past (history s) <> []
   /\ isDirty (draft s) = true)
  /\ redo (undo s) = s.
Proof.
  intros s.
  assert (H1 : draftTracksHistory s) by (exists []; reflexivity).
  assert (H2 : past (history s) <> []) by (cbn; discriminate).
  assert (H3 : isDirty (draft s) = true) by reflexivity.
  split; [repeat split; assumption|].
  exact (session_undo_then_redo s H1 H2 H3).
Defined.

End MoreSession.
